(** * HOOF++ dealiasing and superobing: a shallow embedding

    The development follows the C++ sources of the dealiaser
    (HoofDealiaser.cpp), the superober (HoofSuperober.cpp), the helper
    class HoofAux and the worker base class HoofWorker.

    C++ [double] is kept abstract behind the interface [Double]; the code
    is written once against the interface and read in two ways:
    - [float], the binary64 numbers of the kernel: bit-exact evaluation of
      the code on concrete inputs;
    - [xdouble], exact rationals extended with NaN and the two infinities:
      the arithmetic the specification reasons with.  Its operations do
      not round, so a theorem that is stated on [xdouble] alone has a
      conclusion that the rounding of binary64 does not change (an
      integer-valued one, or a comparison of values the code itself
      computes), or names the condition on the computed values under
      which it holds.
    C++ [int] is [Z]; every count handled here is far below 2^31, so no
    wrap-around is written out.  A [std::vector] is a [list]; a read outside
    the vector is undefined behaviour in C++ and yields the default element
    here, a write outside the vector leaves the list unchanged, except where
    a definition returns [option] and says otherwise. *)

From Stdlib Require Import ZArith QArith Qabs Qround Floats Uint63 Lia Lqa String.
From stdpp Require Import base option list.

Local Open Scope Z_scope.

(** ** The interface of [double] *)

Class Double (D : Type) : Type := {
  dNaN : D;                      (* hoof::dNaN, quiet NaN *)
  dInf : D;                      (* std::numeric_limits<double>::infinity() *)
  dPi : D;                       (* HoofAux::Pi = 3.14159265358979323846 *)
  dEpsilon : D;                  (* HoofAux::dblEpsilon = 0.000000000001 *)
  dlit : Z -> D;                 (* (double)n and integral literals *)
  dadd : D -> D -> D;
  dsub : D -> D -> D;
  dmul : D -> D -> D;
  ddiv : D -> D -> D;
  dopp : D -> D;
  dabs : D -> D;                 (* std::abs *)
  dfloor : D -> D;               (* std::floor *)
  dltb : D -> D -> bool;         (* x < y *)
  dleb : D -> D -> bool;         (* x <= y *)
  isnan : D -> bool;             (* std::isnan *)
  isinf : D -> bool;             (* std::isinf *)
  to_int : D -> Z                (* (int)x: truncation toward zero *)
}.

(** [std::sqrt] is only available on binary64. *)
Class DoubleSqrt (D : Type) : Type := dsqrt : D -> D.

(** [std::cos] and [std::sin]: library functions the development has no
    implementation of; the code that calls them takes them from here. *)
Class DoubleTrig (D : Type) : Type := {
  dcos : D -> D;
  dsin : D -> D
}.

(** Neither NaN nor infinite. *)
Definition is_finite {D} `{Double D} (x : D) : bool :=
  negb (isnan x || isinf x).

(** The literal 0.5. *)
Definition dhalf {D} `{Double D} : D := ddiv (dlit 1) (dlit 2).

(** What the proofs use of the order and of NaN. *)
Class DoubleLaws (D : Type) `{Double D} : Prop := {
  isnan_dNaN : isnan dNaN = true;
  dltb_irrefl : forall x : D, dltb x x = false;
  dltb_trans : forall x y z : D,
    dltb x y = true -> dltb y z = true -> dltb x z = true;
  dleb_dltb_trans : forall x y z : D,
    dleb x y = true -> dltb y z = true -> dltb x z = true
}.

(** *** binary64 *)

Definition float_of_Z (z : Z) : float :=
  if z <? 0 then PrimFloat.opp (PrimFloat.of_uint63 (Uint63.of_Z (- z)))
  else PrimFloat.of_uint63 (Uint63.of_Z z).

(** Truncation toward zero.  The conversion of a NaN, of an infinity or of
    a value outside [int] is undefined in C++; 0 stands for it. *)
Definition float_trunc (x : float) : Z :=
  match Prim2SF x with
  | S754_finite s m e =>
      let v := if 0 <=? e then Z.pos m * 2 ^ e else Z.pos m / 2 ^ (- e) in
      if s then - v else v
  | _ => 0
  end.

Definition float_floorZ (x : float) : Z :=
  let t := float_trunc x in
  if PrimFloat.ltb x (float_of_Z t) then t - 1 else t.

Definition float_floor (x : float) : float :=
  if PrimFloat.ltb (PrimFloat.abs x) (float_of_Z (2 ^ 52))
  then float_of_Z (float_floorZ x) else x.

#[export] Instance Binary64 : Double float := {|
  dNaN := PrimFloat.nan;
  dInf := PrimFloat.infinity;
  dPi := 0x1.921fb54442d18p+1%float;
  dEpsilon := PrimFloat.div (float_of_Z 1) (float_of_Z 1000000000000);
  dlit := float_of_Z;
  dadd := PrimFloat.add;
  dsub := PrimFloat.sub;
  dmul := PrimFloat.mul;
  ddiv := PrimFloat.div;
  dopp := PrimFloat.opp;
  dabs := PrimFloat.abs;
  dfloor := float_floor;
  dltb := PrimFloat.ltb;
  dleb := PrimFloat.leb;
  isnan := PrimFloat.is_nan;
  isinf := PrimFloat.is_infinity;
  to_int := float_trunc
|}.

#[export] Instance Binary64Sqrt : DoubleSqrt float := PrimFloat.sqrt.

(** *** Exact rationals with NaN and infinities

    The operations do not round, and [dEpsilon] is 1/10^12 itself, not the
    binary64 number next to it.  There is one zero, so a division of a
    non-zero number by zero gives the infinity of the sign of the
    numerator. *)

Inductive xdouble : Type :=
| XNaN
| XInf (neg : bool)
| XFin (q : Q).

Definition Qsgn_neg (q : Q) : bool := if Qlt_le_dec q 0 then true else false.
Definition Qis0 (q : Q) : bool := Qeq_bool q 0.

Definition xopp (x : xdouble) : xdouble :=
  match x with
  | XNaN => XNaN
  | XInf s => XInf (negb s)
  | XFin q => XFin (- q)
  end.

Definition xadd (x y : xdouble) : xdouble :=
  match x, y with
  | XNaN, _ | _, XNaN => XNaN
  | XInf s, XInf t => if Bool.eqb s t then XInf s else XNaN
  | XInf s, XFin _ | XFin _, XInf s => XInf s
  | XFin a, XFin b => XFin (a + b)
  end.

Definition xsub (x y : xdouble) : xdouble := xadd x (xopp y).

Definition xmul (x y : xdouble) : xdouble :=
  match x, y with
  | XNaN, _ | _, XNaN => XNaN
  | XInf s, XInf t => XInf (xorb s t)
  | XInf s, XFin q | XFin q, XInf s =>
      if Qis0 q then XNaN else XInf (xorb s (Qsgn_neg q))
  | XFin a, XFin b => XFin (a * b)
  end.

Definition xdiv (x y : xdouble) : xdouble :=
  match x, y with
  | XNaN, _ | _, XNaN => XNaN
  | XInf _, XInf _ => XNaN
  | XInf s, XFin q => XInf (xorb s (Qsgn_neg q))
  | XFin _, XInf _ => XFin 0
  | XFin a, XFin b =>
      if Qis0 b then (if Qis0 a then XNaN else XInf (Qsgn_neg a))
      else XFin (a / b)
  end.

Definition xabs (x : xdouble) : xdouble :=
  match x with
  | XNaN => XNaN
  | XInf _ => XInf false
  | XFin q => XFin (Qabs q)
  end.

Definition xfloor (x : xdouble) : xdouble :=
  match x with
  | XFin q => XFin (inject_Z (Qfloor q))
  | _ => x
  end.

Definition xltb (x y : xdouble) : bool :=
  match x, y with
  | XNaN, _ | _, XNaN => false
  | XInf s, XInf t => s && negb t
  | XInf s, XFin _ => s
  | XFin _, XInf t => negb t
  | XFin a, XFin b => if Qlt_le_dec a b then true else false
  end.

Definition xleb (x y : xdouble) : bool :=
  match x, y with
  | XNaN, _ | _, XNaN => false
  | XInf s, XInf t => s || negb t
  | XInf s, XFin _ => s
  | XFin _, XInf t => negb t
  | XFin a, XFin b => if Qlt_le_dec b a then false else true
  end.

(** Truncation toward zero; 0 stands for the undefined conversions. *)
Definition xtrunc (x : xdouble) : Z :=
  match x with
  | XFin q => if Qlt_le_dec q 0 then Qceiling q else Qfloor q
  | _ => 0
  end.

#[export] Instance Exact : Double xdouble := {|
  dNaN := XNaN;
  dInf := XInf false;
  dPi := XFin (314159265358979323846 # 100000000000000000000);
  dEpsilon := XFin (1 # 1000000000000);
  dlit := fun z => XFin (inject_Z z);
  dadd := xadd;
  dsub := xsub;
  dmul := xmul;
  ddiv := xdiv;
  dopp := xopp;
  dabs := xabs;
  dfloor := xfloor;
  dltb := xltb;
  dleb := xleb;
  isnan := fun x => match x with XNaN => true | _ => false end;
  isinf := fun x => match x with XInf _ => true | _ => false end;
  to_int := xtrunc
|}.

(** ** Loops and vectors *)

(** [for(int i = 0; i < n; i++) body], the state threaded through. *)
Definition for_nat {S : Type} (n : nat) (body : nat -> S -> S) (s : S) : S :=
  foldl (fun s i => body i s) s (seq 0 n).

(** [for(int n = lo; n <= hi; n++) body]. *)
Definition for_Z {S : Type} (lo hi : Z) (body : Z -> S -> S) (s : S) : S :=
  foldl (fun s i => body i s) s (seqZ lo (hi + 1 - lo)).

(** [hoof::vector2D<T>] and [hoof::vector3D<T>]. *)
Abbreviation vector2D A := (list (list A)) (only parsing).
Abbreviation vector3D A := (list (list (list A))) (only parsing).

(** [vector<T>(n, x)] and its nestings. *)
Definition vec {A : Type} (n : Z) (x : A) : list A := replicate (Z.to_nat n) x.

(** [v[i]], [v[i][j]] and [v[i][j][k]] with the default [d] outside. *)
Definition get1 {A : Type} (d : A) (v : list A) (i : nat) : A :=
  default d (v !! i).
Definition get2 {A : Type} (d : A) (v : vector2D A) (i j : nat) : A :=
  get1 d (get1 [] v i) j.
Definition get3 {A : Type} (d : A) (v : vector3D A) (i j k : nat) : A :=
  get1 d (get1 [] (get1 [] v i) j) k.

(** [v[i][j] = x] and [v[i][j][k] = x]. *)
Definition set2 {A : Type} (v : vector2D A) (i j : nat) (x : A) : vector2D A :=
  alter (fun row => <[j := x]> row) i v.
Definition set3 {A : Type} (v : vector3D A) (i j k : nat) (x : A) : vector3D A :=
  alter (fun plane => alter (fun row => <[k := x]> row) j plane) i v.

(** The cell [(i, j, k)] exists in [v]. *)
Definition allocated {A : Type} (v : vector3D A) (i j k : nat) : Prop :=
  exists plane row, v !! i = Some plane /\ plane !! j = Some row /\
                    (k < length row)%nat.

(** ** HoofTypes.h *)

(** [iNaN = std::numeric_limits<int>::quiet_NaN()]: [int] has no NaN and
    the standard library returns [0]. *)
Definition iNaN : Z := 0.

(** [std::isnan] applied to an [int]: the argument is converted to
    [double], which is never a NaN. *)
Definition isnan_int (n : Z) : bool := false.

Definition Triple : Type := (nat * nat * nat)%type.

(** ** HoofAux *)

Section HoofAux.
Context {D : Type} `{Double D}.

(** [HoofAux::isallnan] on 2-D and 3-D vectors: the loops return [false]
    at the first value that is not a NaN. *)
Definition isallnan2 (v : vector2D D) : bool := forallb (forallb isnan) v.
Definition isallnan3 (v : vector3D D) : bool :=
  forallb (forallb (forallb isnan)) v.

(** One step of the scan of [HoofAux::nanminmax]. *)
Definition minmax_step (acc : D * D) (value : D) : D * D :=
  if negb (isnan value) then
    let mn := if dltb value (fst acc) then value else fst acc in
    let mx := if dltb (snd acc) value then value else snd acc in
    (mn, mx)
  else acc.

Definition minmax_finish (acc : D * D) : D * D :=
  (if isinf (fst acc) then dNaN else fst acc,
   if isinf (snd acc) then dNaN else snd acc).

(** [HoofAux::nanminmax]: the pair (min, max) over the values that are not
    NaN; a bound that is still infinite at the end becomes NaN. *)
Definition nanminmax2 (v : vector2D D) : D * D :=
  minmax_finish (foldl (foldl minmax_step) (dInf, dopp dInf) v).
Definition nanminmax3 (v : vector3D D) : D * D :=
  minmax_finish (foldl (foldl (foldl minmax_step)) (dInf, dopp dInf) v).

(** [HoofAux::eqDbl]. *)
Definition eqDbl (val1 val2 : D) : bool :=
  dleb (dabs (dsub val1 val2)) dEpsilon.

(** [HoofAux::linspace]: [n] evenly spaced values on [a, b). *)
Definition linspace (v : list D) (a b : D) (n : Z) : list D :=
  if (Z.of_nat (length v) <? n) || (n <? 1) then v
  else
    let step := ddiv (dsub b a) (dlit n) in
    for_nat (Z.to_nat n)
      (fun i v => <[i := dadd a (dmul (dlit (Z.of_nat i)) step)]> v) v.

End HoofAux.

(** ** HoofSettings, HoofMeasurement, HoofData, HoofWorker *)

Record HoofSettings (D : Type) : Type := {
  dealiasing : bool;
  zSectorSize : D;
  zMax : D;
  minGoodPoints : Z;
  maxWind : D;
  superobing : bool;
  rangeBinFactor : Z;
  rayAngleFactor : Z;
  maxArcSize : D;
  minQuality : D;
  dbzClearsky : D;
  dbzPercentage : D;
  vradPercentage : D;
  vradMaxStd : D
}.
Arguments dealiasing {D}. Arguments zSectorSize {D}. Arguments zMax {D}.
Arguments minGoodPoints {D}. Arguments maxWind {D}. Arguments superobing {D}.
Arguments rangeBinFactor {D}. Arguments rayAngleFactor {D}.
Arguments maxArcSize {D}. Arguments minQuality {D}. Arguments dbzClearsky {D}.
Arguments dbzPercentage {D}. Arguments vradPercentage {D}.
Arguments vradMaxStd {D}.

Record HoofMeasurement (D : Type) : Type := {
  datasets : list string;
  nel : Z;
  nazMax : Z;
  nrMax : Z;
  elangles : list D;
  naz : list Z;
  azimuths : vector2D D;
  nr : list Z;
  ranges : vector2D D;
  rscales : list D;
  rstarts : list D;
  vnys : list D;
  meas : vector3D D;
  ths : vector3D D;
  quals : vector3D D;
  zs : vector3D D
}.
Arguments datasets {D}. Arguments nel {D}. Arguments nazMax {D}.
Arguments nrMax {D}. Arguments elangles {D}. Arguments naz {D}.
Arguments azimuths {D}. Arguments nr {D}. Arguments ranges {D}.
Arguments rscales {D}. Arguments rstarts {D}. Arguments vnys {D}.
Arguments meas {D}. Arguments ths {D}. Arguments quals {D}. Arguments zs {D}.

Record HoofData (D : Type) : Type := {
  height : D;
  dbz : HoofMeasurement D;
  vrad : HoofMeasurement D;
  zStarts : list D;
  zEnds : list D;
  zIdxs : vector2D Triple;
  wModels : vector3D D;
  dvrads : vector3D D;
  sdbz : HoofMeasurement D;
  svrad : HoofMeasurement D
}.
Arguments height {D}. Arguments dbz {D}. Arguments vrad {D}.
Arguments zStarts {D}. Arguments zEnds {D}. Arguments zIdxs {D}.
Arguments wModels {D}. Arguments dvrads {D}. Arguments sdbz {D}.
Arguments svrad {D}.

(** The base class of the workers: the texts of the warnings and errors. *)
Record HoofWorker : Type := {
  classMessage : string;
  warnings : list string;
  errors : list string
}.

Definition warning (warn : string) (w : HoofWorker) : HoofWorker :=
  {| classMessage := classMessage w;
     warnings := warnings w ++ [(classMessage w ++ " - " ++ warn)%string];
     errors := errors w |}.

Definition error (err : string) (w : HoofWorker) : HoofWorker :=
  {| classMessage := classMessage w;
     warnings := warnings w;
     errors := errors w ++ [(classMessage w ++ " - " ++ err)%string] |}.

(** ** HoofDealiaser *)

Record HoofDealiaser (D : Type) : Type := {
  dl_worker : HoofWorker;
  dl_data : HoofData D;            (* _data *)
  dl_As : vector3D D;              (* _As *)
  dl_Bs : vector3D D;              (* _Bs *)
  dl_Ds : vector3D D;              (* _Ds *)
  dl_cosEls : list D;              (* _cosEls *)
  dl_cosAzs : vector2D D;          (* _cosAzs *)
  dl_sinAzs : vector2D D;          (* _sinAzs *)
  dl_vnyMin : D                    (* _vnyMin *)
}.
Arguments dl_worker {D}. Arguments dl_data {D}. Arguments dl_As {D}.
Arguments dl_Bs {D}. Arguments dl_Ds {D}. Arguments dl_cosEls {D}.
Arguments dl_cosAzs {D}. Arguments dl_sinAzs {D}. Arguments dl_vnyMin {D}.

Section Dealiaser.
Context {D : Type} `{Double D}.

Definition dl_with_worker (w : HoofWorker) (st : HoofDealiaser D) :=
  {| dl_worker := w; dl_data := dl_data st; dl_As := dl_As st;
     dl_Bs := dl_Bs st; dl_Ds := dl_Ds st; dl_cosEls := dl_cosEls st;
     dl_cosAzs := dl_cosAzs st; dl_sinAzs := dl_sinAzs st;
     dl_vnyMin := dl_vnyMin st |}.

Definition dl_with_data (d : HoofData D) (st : HoofDealiaser D) :=
  {| dl_worker := dl_worker st; dl_data := d; dl_As := dl_As st;
     dl_Bs := dl_Bs st; dl_Ds := dl_Ds st; dl_cosEls := dl_cosEls st;
     dl_cosAzs := dl_cosAzs st; dl_sinAzs := dl_sinAzs st;
     dl_vnyMin := dl_vnyMin st |}.

Definition data_with_sectors (zS zE : list D) (zI : vector2D Triple)
    (d : HoofData D) : HoofData D :=
  {| height := height d; dbz := dbz d; vrad := vrad d; zStarts := zS;
     zEnds := zE; zIdxs := zI; wModels := wModels d; dvrads := dvrads d;
     sdbz := sdbz d; svrad := svrad d |}.

Definition data_with_wModels (w : vector3D D) (d : HoofData D) : HoofData D :=
  {| height := height d; dbz := dbz d; vrad := vrad d; zStarts := zStarts d;
     zEnds := zEnds d; zIdxs := zIdxs d; wModels := w; dvrads := dvrads d;
     sdbz := sdbz d; svrad := svrad d |}.

Definition data_with_dvrads (v : vector3D D) (d : HoofData D) : HoofData D :=
  {| height := height d; dbz := dbz d; vrad := vrad d; zStarts := zStarts d;
     zEnds := zEnds d; zIdxs := zIdxs d; wModels := wModels d; dvrads := v;
     sdbz := sdbz d; svrad := svrad d |}.

(** The per-elevation counts as loop bounds. *)
Definition naz_at (m : HoofMeasurement D) (i : nat) : nat :=
  Z.to_nat (get1 0 (naz m) i).
Definition nr_at (m : HoofMeasurement D) (i : nat) : nat :=
  Z.to_nat (get1 0 (nr m) i).

(** The constructor: [HoofDealiaser(data, outFile)].  The vectors start
    empty; [_vnyMin] is not initialised and NaN stands for it. *)
Definition dl_new (d : HoofData D) : HoofDealiaser D :=
  {| dl_worker := {| classMessage := "Dealiasing"; warnings := [];
                     errors := [] |};
     dl_data := d; dl_As := []; dl_Bs := []; dl_Ds := []; dl_cosEls := [];
     dl_cosAzs := []; dl_sinAzs := []; dl_vnyMin := dNaN |}.

(** [HoofDealiaser::checkData]. *)
Definition dl_checkData (st : HoofDealiaser D) : HoofDealiaser D :=
  let w := dl_worker st in
  let w := if (length (datasets (vrad (dl_data st))) =? 0)%nat
           then error "no VRAD datasets in file" w else w in
  let w := if isallnan3 (meas (vrad (dl_data st)))
           then error "all data in VRAD datasets are NaN" w else w in
  dl_with_worker w st.

(** The smallest Nyquist velocity, as [calculateWindModelQtys] finds it:
    [_vnyMin] starts at infinity and is lowered by [vNy < _vnyMin]. *)
Definition vnyMin_scan (m : HoofMeasurement D) : D :=
  for_nat (Z.to_nat (nel m))
    (fun i mn => let vNy := get1 dNaN (vnys m) i in
                 if dltb vNy mn then vNy else mn) dInf.

(** [HoofDealiaser::calculateWindModelQtys]: the quantities A, B and D,
    the trigonometric caches and the smallest Nyquist velocity. *)
Definition calculateWindModelQtys `{DoubleTrig D} (st : HoofDealiaser D)
    : HoofDealiaser D :=
  let m := vrad (dl_data st) in
  let cube := vec (nel m) (vec (nazMax m) (vec (nrMax m) dNaN)) in
  let plane := vec (nel m) (vec (nazMax m) dNaN) in
  let '(As, Bs, f3s, cosEls, cosAzs, sinAzs, vnyMin) :=
    for_nat (Z.to_nat (nel m))
      (fun i (acc : vector3D D * vector3D D * vector3D D * list D
                    * vector2D D * vector2D D * D) =>
         let '(As, Bs, f3s, cosEls, cosAzs, sinAzs, vnyMin) := acc in
         let cosEls := <[i := dcos (get1 dNaN (elangles m) i)]> cosEls in
         let vNy := get1 dNaN (vnys m) i in
         let vnyMin := if dltb vNy vnyMin then vNy else vnyMin in
         let '(As, Bs, f3s, cosAzs, sinAzs) :=
           for_nat (naz_at m i)
             (fun j (acc : vector3D D * vector3D D * vector3D D
                           * vector2D D * vector2D D) =>
                let '(As, Bs, f3s, cosAzs, sinAzs) := acc in
                let az := get2 dNaN (azimuths m) i j in
                let cosAzs := set2 cosAzs i j (dcos az) in
                let sinAzs := set2 sinAzs i j (dsin az) in
                let '(As, Bs, f3s) :=
                  for_nat (nr_at m i)
                    (fun k (acc : vector3D D * vector3D D * vector3D D) =>
                       let '(As, Bs, f3s) := acc in
                       let mv := get3 dNaN (meas m) i j k in
                       let arg := ddiv (dmul dPi mv) vNy in
                       (set3 As i j k
                          (dmul (dmul (get1 dNaN cosEls i)
                                      (get2 dNaN cosAzs i j)) (dsin arg)),
                        set3 Bs i j k
                          (dmul (dmul (get1 dNaN cosEls i)
                                      (get2 dNaN sinAzs i j)) (dsin arg)),
                        set3 f3s i j k
                          (ddiv (dmul vNy (dcos arg)) dPi)))
                    (As, Bs, f3s) in
                (As, Bs, f3s, cosAzs, sinAzs))
             (As, Bs, f3s, cosAzs, sinAzs) in
         (As, Bs, f3s, cosEls, cosAzs, sinAzs, vnyMin))
      (cube, cube, cube, vec (nel m) dNaN, plane, plane, dInf) in
  let Ds :=
    for_nat (Z.to_nat (nel m)) (fun i =>
      let azSize := get1 0 (naz m) i in
      for_nat (Z.to_nat azSize) (fun j Ds =>
        let jz := Z.of_nat j in
        let nextj := Z.to_nat (if jz + 1 =? azSize then 0 else jz + 1) in
        let prevj := Z.to_nat (if jz - 1 =? -1 then azSize - 1 else jz - 1) in
        let daz := dsub (get2 dNaN (azimuths m) i nextj)
                        (get2 dNaN (azimuths m) i prevj) in
        let daz := if (jz =? 0) || (jz =? azSize - 1)
                   then dsub daz (dmul (dlit 2) dPi) else daz in
        for_nat (nr_at m i) (fun k Ds =>
          set3 Ds i j k
            (ddiv (dsub (get3 dNaN f3s i nextj k) (get3 dNaN f3s i prevj k))
                  daz)) Ds))
      cube in
  {| dl_worker := dl_worker st; dl_data := dl_data st; dl_As := As;
     dl_Bs := Bs; dl_Ds := Ds; dl_cosEls := cosEls; dl_cosAzs := cosAzs;
     dl_sinAzs := sinAzs; dl_vnyMin := vnyMin |}.

(** A bin is used for the wind fit when its height, its measurement and its
    D quantity are not NaN and it lies below the ceiling. *)
Definition eligible (z m d zmax : D) : bool :=
  negb (isnan z || isnan m || isnan d) && dltb z zmax.

(** [_data.zIdxs[idx].push_back(t)]; [None] when [idx] is not an index of
    [zIdxs] (undefined behaviour in the source). *)
Definition push_sector (zI : vector2D Triple) (idx : Z) (t : Triple)
    : option (vector2D Triple) :=
  if (0 <=? idx) && (idx <? Z.of_nat (length zI))
  then Some (alter (fun l => l ++ [t]) (Z.to_nat idx) zI)
  else None.

Definition sector_ceiling (s : HoofSettings D) (d : HoofData D) : D :=
  let zdatamax := snd (nanminmax3 (zs (vrad d))) in
  if dltb zdatamax (zMax s) then zdatamax else zMax s.

Definition sector_count (s : HoofSettings D) (d : HoofData D) : Z :=
  to_int (ddiv (dsub (sector_ceiling s d) (height d)) (zSectorSize s)) + 1.

Definition sector_index (s : HoofSettings D) (d : HoofData D) (z : D) : Z :=
  to_int (ddiv (dsub z (height d)) (zSectorSize s)).

(** [HoofDealiaser::determineHeightSectors].  [vector<double>(nl, 0.0)]
    throws for a negative [nl]: [None] stands for that as well. *)
Definition determineHeightSectors (s : HoofSettings D) (st : HoofDealiaser D)
    : option (HoofDealiaser D) :=
  let d := dl_data st in
  let dz := zSectorSize s in
  let zmax := sector_ceiling s d in
  let nl := sector_count s d in
  if nl <? 0 then None else
  let zS := for_nat (Z.to_nat nl)
              (fun n v => <[n := dadd (height d) (dmul (dlit (Z.of_nat n)) dz)]> v)
              (vec nl (dlit 0)) in
  let zE := for_nat (Z.to_nat nl)
              (fun n v => <[n := dadd (get1 dNaN zS n) dz]> v)
              (vec nl (dlit 0)) in
  let zI :=
    for_nat (Z.to_nat (nel (vrad d))) (fun i =>
      for_nat (naz_at (vrad d) i) (fun j =>
        for_nat (nr_at (vrad d) i) (fun k acc =>
          zI ← acc;
          let z := get3 dNaN (zs (vrad d)) i j k in
          if eligible z (get3 dNaN (meas (vrad d)) i j k)
                      (get3 dNaN (dl_Ds st) i j k) zmax
          then push_sector zI (sector_index s d z) (i, j, k)
          else Some zI)))
      (Some (vec nl [])) in
  zI ← zI;
  Some (dl_with_data (data_with_sectors zS zE zI d) st).

(** [HoofDealiaser::calculateWindModels]; [multifit] stands for the call of
    [gsl_multifit_linear] on the rows [(-A, B, D)] and returns [(u, v)]. *)
Definition calculateWindModels (multifit : list (D * D * D) -> D * D)
    (s : HoofSettings D) (st : HoofDealiaser D) : HoofDealiaser D :=
  let d := dl_data st in
  let vmax := maxWind s in
  let w0 := vec (nel (vrad d)) (vec (nazMax (vrad d)) (vec (nrMax (vrad d)) dNaN)) in
  let w :=
    for_nat (length (zIdxs d)) (fun z w =>
      let idxs := get1 [] (zIdxs d) z in
      let nidxs := Z.of_nat (length idxs) in
      if minGoodPoints s <=? nidxs then
        let rows := map (fun t : Triple =>
                           let '(i, j, k) := t in
                           (dopp (get3 dNaN (dl_As st) i j k),
                            get3 dNaN (dl_Bs st) i j k,
                            get3 dNaN (dl_Ds st) i j k)) idxs in
        let '(u, v) := multifit rows in
        for_nat (length idxs) (fun i w =>
          let '(iel, iaz, ir) := get1 (0, 0, 0)%nat idxs i in
          let vm := dmul (get1 dNaN (dl_cosEls st) iel)
                         (dadd (dmul u (get2 dNaN (dl_sinAzs st) iel iaz))
                               (dmul v (get2 dNaN (dl_cosAzs st) iel iaz))) in
          if dltb (dabs vm) vmax then set3 w iel iaz ir vm else w) w
      else w) w0 in
  dl_with_data (data_with_wModels w d) st.

(** The bound of the multiplier search, [(int)(maxWind/_vnyMin)].  The
    source keeps it in a [double]; it holds the value of an [int], so the
    loop bounds are read on the integer. *)
Definition nymax_of (s : HoofSettings D) (st : HoofDealiaser D) : Z :=
  to_int (ddiv (maxWind s) (dl_vnyMin st)).

(** The distance [abs(m + 2.0*vny*(double)n - wm)]. *)
Definition fold_distance (m vny wm : D) (n : Z) : D :=
  dabs (dsub (dadd m (dmul (dmul (dlit 2) vny) (dlit n))) wm).

(** One visit of a bin by the search loop, for the multiplier [n], on the
    pair (smallest distance so far, its multiplier) of the bin. *)
Definition search_step (m vny wm : D) (n : Z) (best : D * Z) : D * Z :=
  if negb (isnan wm || isnan m) then
    let currMn := fold_distance m vny wm n in
    if dltb currMn (fst best) then (currMn, n) else best
  else best.

(** The visits of one bin by the search loop, in the order of the loop
    over [n]; [mns] starts at infinity and [ns] at [iNaN]. *)
Definition bin_search (m vny wm : D) (nymax : Z) : D * Z :=
  foldl (fun best n => search_step m vny wm n best) (dInf, iNaN)
        (seqZ (- nymax) (nymax + 1 - - nymax)).

(** The first loop nest of [HoofDealiaser::dealias]: the arrays [mns] and
    [ns] after the search over [n = -nymax .. nymax]. *)
Definition dealias_search (s : HoofSettings D) (st : HoofDealiaser D)
    : vector3D D * vector3D Z :=
  let m := vrad (dl_data st) in
  let nymax := nymax_of s st in
  let mns0 := vec (nel m) (vec (nazMax m) (vec (nrMax m) dInf)) in
  let ns0 := vec (nel m) (vec (nazMax m) (vec (nrMax m) iNaN)) in
  for_Z (- nymax) nymax (fun n =>
    for_nat (Z.to_nat (nel m)) (fun i =>
      let vny := get1 dNaN (vnys m) i in
      for_nat (naz_at m i) (fun j =>
        for_nat (nr_at m i) (fun k (acc : vector3D D * vector3D Z) =>
          let '(mns, ns) := acc in
          let wm := get3 dNaN (wModels (dl_data st)) i j k in
          let mv := get3 dNaN (meas m) i j k in
          if negb (isnan wm || isnan mv) then
            let currMn := fold_distance mv vny wm n in
            if dltb currMn (get3 dNaN mns i j k)
            then (set3 mns i j k currMn, set3 ns i j k n)
            else acc
          else acc))))
    (mns0, ns0).

(** The value written to [dvrads]: [m + 2.0*(double)n*vny]. *)
Definition unfolded (m vny : D) (n : Z) : D :=
  dadd m (dmul (dmul (dlit 2) (dlit n)) vny).

(** The second loop nest of [HoofDealiaser::dealias]. *)
Definition dealias_unfold (st : HoofDealiaser D) (ns : vector3D Z)
    : vector3D D :=
  let m := vrad (dl_data st) in
  let dvrads0 := vec (nel m) (vec (nazMax m) (vec (nrMax m) dNaN)) in
  for_nat (Z.to_nat (nel m)) (fun i =>
    let vny := get1 dNaN (vnys m) i in
    for_nat (naz_at m i) (fun j =>
      for_nat (nr_at m i) (fun k dv =>
        let mv := get3 dNaN (meas m) i j k in
        let n := get3 0 ns i j k in
        if negb (isnan mv || isnan_int n || isnan (get3 dNaN (dl_Ds st) i j k))
        then set3 dv i j k (unfolded mv vny n) else dv)))
    dvrads0.

(** [HoofDealiaser::dealias]. *)
Definition dealias (s : HoofSettings D) (st : HoofDealiaser D)
    : HoofDealiaser D :=
  let ns := snd (dealias_search s st) in
  dl_with_data (data_with_dvrads (dealias_unfold st ns) (dl_data st)) st.

End Dealiaser.

(** ** HoofSuperober *)

Record HoofSuperober (D : Type) : Type := {
  so_worker : HoofWorker;
  so_data : HoofData D;                (* _data *)
  so_dbzsNaN : bool;                   (* _dbzsNaN *)
  so_vradsNaN : bool;                  (* _vradsNaN *)
  so_rangeBorders : vector2D Z;        (* _rangeBorders (nsel, nsr) *)
  so_startRayBorders : vector3D Z;     (* _startRayBorders (nsel, nsr, nsaz) *)
  so_endRayBorders : vector3D Z        (* _endRayBorders (nsel, nsr, nsaz) *)
}.
Arguments so_worker {D}. Arguments so_data {D}. Arguments so_dbzsNaN {D}.
Arguments so_vradsNaN {D}. Arguments so_rangeBorders {D}.
Arguments so_startRayBorders {D}. Arguments so_endRayBorders {D}.

(** The moment a call of [_calculateBinBorders] works on. *)
Inductive MomentType : Type := DBZ | VRAD.

(** [for(int j = j0; j < hi; j = j + step) v.push_back(j)].  The loop ends
    only if [step] is positive or the test fails at once; [None] when the
    fuel does not reach the end of the loop. *)
Fixpoint stride_loop (fuel : nat) (j hi step : Z) (v : list Z)
    : option (list Z) :=
  if j <? hi then
    match fuel with
    | O => None
    | S fuel' => stride_loop fuel' (j + step) hi step (v ++ [j])
    end
  else Some v.

(** [if(v.back() > nr) v.pop_back()]. *)
Definition pop_above (nr : Z) (v : list Z) : list Z :=
  match last v with
  | Some b => if nr <? b then removelast v else v
  | None => v
  end.

(** [limIdx >= v.size()], where [int] meets [size_t]: the comparison is
    made on unsigned numbers, so a negative [limIdx] is above every size. *)
Definition ge_size (limIdx : Z) (size : nat) : bool :=
  (limIdx <? 0) || (Z.of_nat size <=? limIdx).

(** [v.back() < size], unsigned as well. *)
Definition lt_size (b : Z) (size : nat) : bool :=
  (0 <=? b) && (b <? Z.of_nat size).

(** [v.back() = x]. *)
Definition set_back (x : Z) (v : list Z) : list Z :=
  match v with
  | [] => []
  | _ => removelast v ++ [x]
  end.

Section Superober.
Context {D : Type} `{Double D}.

Definition so_with_worker (w : HoofWorker) (st : HoofSuperober D) :=
  {| so_worker := w; so_data := so_data st; so_dbzsNaN := so_dbzsNaN st;
     so_vradsNaN := so_vradsNaN st; so_rangeBorders := so_rangeBorders st;
     so_startRayBorders := so_startRayBorders st;
     so_endRayBorders := so_endRayBorders st |}.

Definition so_with_flags (dn vn : bool) (st : HoofSuperober D) :=
  {| so_worker := so_worker st; so_data := so_data st; so_dbzsNaN := dn;
     so_vradsNaN := vn; so_rangeBorders := so_rangeBorders st;
     so_startRayBorders := so_startRayBorders st;
     so_endRayBorders := so_endRayBorders st |}.

Definition so_with_data (d : HoofData D) (st : HoofSuperober D) :=
  {| so_worker := so_worker st; so_data := d; so_dbzsNaN := so_dbzsNaN st;
     so_vradsNaN := so_vradsNaN st; so_rangeBorders := so_rangeBorders st;
     so_startRayBorders := so_startRayBorders st;
     so_endRayBorders := so_endRayBorders st |}.

Definition so_with_borders (rb : vector2D Z) (sb eb : vector3D Z)
    (st : HoofSuperober D) :=
  {| so_worker := so_worker st; so_data := so_data st;
     so_dbzsNaN := so_dbzsNaN st; so_vradsNaN := so_vradsNaN st;
     so_rangeBorders := rb; so_startRayBorders := sb;
     so_endRayBorders := eb |}.

Definition data_with_superobs (sd sv : HoofMeasurement D) (d : HoofData D)
    : HoofData D :=
  {| height := height d; dbz := dbz d; vrad := vrad d; zStarts := zStarts d;
     zEnds := zEnds d; zIdxs := zIdxs d; wModels := wModels d;
     dvrads := dvrads d; sdbz := sd; svrad := sv |}.

(** The constructor: [HoofSuperober(data, outFile)]. *)
Definition so_new (d : HoofData D) : HoofSuperober D :=
  {| so_worker := {| classMessage := "Superobing"; warnings := [];
                     errors := [] |};
     so_data := d; so_dbzsNaN := false; so_vradsNaN := false;
     so_rangeBorders := []; so_startRayBorders := [];
     so_endRayBorders := [] |}.

(** [HoofSuperober::checkData]. *)
Definition so_checkData (st : HoofSuperober D) : HoofSuperober D :=
  let d := so_data st in
  if (nel (dbz d) =? 0) && (nel (vrad d) =? 0) then
    so_with_worker (error "no data to superob" (so_worker st)) st
  else
    let dn := if isallnan3 (meas (dbz d)) then true else so_dbzsNaN st in
    let vn := if isallnan3 (meas (vrad d)) then true else so_vradsNaN st in
    let w := so_worker st in
    let w := if dn && vn then error "all data is NaN" w else w in
    let w := if dn && negb vn then warning "all DBZ data is NaN" w else w in
    let w := if negb dn && vn then warning "all VRAD data is NaN" w else w in
    so_with_worker w (so_with_flags dn vn st).

(** [*max_element(v.begin(), v.end())]; 0 stands for the dereference of
    the end of an empty vector. *)
Definition max_element (v : list Z) : Z :=
  match v with
  | [] => 0
  | x :: v' => foldl Z.max x v'
  end.

(** One moment of [HoofSuperober::prepareMetadata]: the superobed
    metadata [sm] made from the source moment [m].  The C++ division of
    two [int] truncates; a division by zero is undefined there and [0]
    here. *)
Definition prepare_moment (binF rayF : Z) (m sm : HoofMeasurement D)
    : HoofMeasurement D :=
  let n := nel m in
  let naz0 := vec n iNaN in
  let nr0 := vec n iNaN in
  if 0 <? n then
    let '(nr1, naz1) :=
      for_nat (Z.to_nat n)
        (fun i (acc : list Z * list Z) =>
           (<[i := Z.quot (get1 0 (nr m) i) binF]> (fst acc),
            <[i := Z.quot (get1 0 (naz m) i) rayF]> (snd acc)))
        (nr0, naz0) in
    let nrMax1 := max_element nr1 in
    let nazMax1 := max_element naz1 in
    let az0 := vec n (vec nazMax1 dNaN) in
    let rg0 := vec n (vec nrMax1 dNaN) in
    let rsc0 := vec n dNaN in
    let rst0 := vec n dNaN in
    let '(az, rg, rsc, rst) :=
      for_nat (Z.to_nat n)
        (fun i (acc : vector2D D * vector2D D * list D * list D) =>
           let '(az, rg, rsc, rst) := acc in
           let a := get1 0 naz1 i in
           let r := get1 0 nr1 i in
           let rstart := get1 dNaN (rstarts m) i in
           let rscale := get1 dNaN (rscales m) i in
           let az := alter (fun row => linspace row (dlit 0)
                              (dmul (dlit 2) dPi) a) i az in
           let rst := <[i := rstart]> rst in
           let rsc := <[i := dmul (dlit binF) rscale]> rsc in
           let rg := alter (fun row => linspace row rstart
                              (dadd rstart
                                 (dmul (dmul (dlit binF) rscale) (dlit r))) r)
                       i rg in
           (az, rg, rsc, rst))
        (az0, rg0, rsc0, rst0) in
    {| datasets := datasets sm; nel := n; nazMax := nazMax1;
       nrMax := nrMax1; elangles := elangles m; naz := naz1;
       azimuths := az; nr := nr1; ranges := rg; rscales := rsc;
       rstarts := rst; vnys := vnys sm; meas := meas sm; ths := ths sm;
       quals := quals sm; zs := zs sm |}
  else
    {| datasets := datasets sm; nel := nel sm; nazMax := nazMax sm;
       nrMax := nrMax sm; elangles := elangles sm; naz := naz0;
       azimuths := azimuths sm; nr := nr0; ranges := ranges sm;
       rscales := rscales sm; rstarts := rstarts sm; vnys := vnys sm;
       meas := meas sm; ths := ths sm; quals := quals sm; zs := zs sm |}.

(** [HoofSuperober::prepareMetadata]. *)
Definition prepareMetadata (s : HoofSettings D) (st : HoofSuperober D)
    : HoofSuperober D :=
  let binF := rangeBinFactor s in
  let rayF := rayAngleFactor s in
  let d := so_data st in
  let sd := prepare_moment binF rayF (dbz d) (sdbz d) in
  let sv := prepare_moment binF rayF (vrad d) (svrad d) in
  so_with_data (data_with_superobs sd sv d) st.

(** The arc bound [L] of an elevation. *)
Definition arc_bound (s : HoofSettings D) (naz : Z) (rscale : D) : D :=
  ddiv (dmul (dmul (dlit 360) (dlit 360)) (maxArcSize s))
       (dmul (dmul (dmul (dlit 2) dPi) (dlit (naz * rangeBinFactor s)))
             rscale).

(** The range bin borders of an elevation. *)
Definition range_borders (nr binF : Z) : option (list Z) :=
  v ← stride_loop (Z.to_nat (nr + binF)) 0 (nr + binF) binF [];
  Some (pop_above nr v).

Definition back (v : list Z) : Z := default 0 (last v).

(** [floor(L/(int)newFac - 1.0) + 1], converted to [int]. *)
Definition lim_index (L : D) (newFac : Z) : Z :=
  to_int (dadd (dfloor (dsub (ddiv L (dlit newFac)) (dlit 1))) (dlit 1)).

(** [if(limIdx >= currRangeBorders.size()) limIdx = currRangeBorders.size()]. *)
Definition clamp_limit (limIdx : Z) (size : nat) : Z :=
  if ge_size limIdx size then Z.of_nat size else limIdx.

(** The limit of the tier [z], as the loop computes it. *)
Definition tier_limit (L : D) (zmax : Z) (size : nat) (z : Z) : Z :=
  clamp_limit (lim_index L (2 * (zmax - z) + 1)) size.

(** The ray bin limits and the sub ray factors.  [facSubs.push_back(z)]
    is not part of the [if] before it: every [z] is pushed. *)
Definition tier_limits (L : D) (zmax : Z) (size : nat) : list Z * list Z :=
  let '(limIdxs, facSubs) :=
    for_Z 0 zmax
      (fun z (acc : list Z * list Z) =>
         let '(limIdxs, facSubs) := acc in
         let newFac := 2 * (zmax - z) + 1 in
         let limIdx := clamp_limit (lim_index L newFac) size in
         let limIdxs := if negb (limIdx =? back limIdxs)
                        then limIdxs ++ [limIdx] else limIdxs in
         (limIdxs, facSubs ++ [z]))
      ([0], []) in
  let limIdxs := if lt_size (back limIdxs) size
                 then set_back (Z.of_nat size) limIdxs else limIdxs in
  (limIdxs, facSubs).

(** The loop over [k < facSubs.size()] that picks [currFacSub] for the
    coarse range index [j].  [&&] does not read [limIdxs[k+1]] when its
    first operand is false; [None] when a read falls outside [limIdxs]. *)
Definition tier_lookup (limIdxs facSubs : list Z) (j : Z) (currFacSub : Z)
    : option Z :=
  for_nat (length facSubs)
    (fun k acc =>
       cur ← acc;
       lo ← limIdxs !! k;
       if lo <=? j then
         hi ← limIdxs !! (k + 1)%nat;
         if j <? hi then Some (get1 0 facSubs k) else Some cur
       else Some cur)
    (Some currFacSub).

(** The start and end ray borders of an elevation. *)
Definition ray_borders (limIdxs facSubs origStart origEnd : list Z)
    (nsr nsaz : Z) : option (vector2D Z * vector2D Z) :=
  r ← for_nat (Z.to_nat nsr)
        (fun j acc =>
           '(cs, ce, cur) ← acc;
           cur ← tier_lookup limIdxs facSubs (Z.of_nat j) cur;
           Some (for_nat (Z.to_nat nsaz)
                   (fun k (b : vector2D Z * vector2D Z) =>
                      (set2 (fst b) j k (get1 0 origStart k + cur),
                       set2 (snd b) j k (get1 0 origEnd k - cur)))
                   (cs, ce), cur))
        (Some (vec nsr (vec nsaz iNaN), vec nsr (vec nsaz iNaN), -1));
  Some (fst r).

(** The borders of one elevation: [naz], [nr], [rscale] of the source
    moment and [nsaz], [nsr] of the superobed one. *)
Definition elevation_borders (s : HoofSettings D) (naz nr nsaz nsr : Z)
    (rscale : D) : option (list Z * vector2D Z * vector2D Z) :=
  let binF := rangeBinFactor s in
  let rayF := rayAngleFactor s in
  let zmax := Z.quot (rayF - 1) 2 in
  let L := arc_bound s naz rscale in
  currRangeBorders ← range_borders nr binF;
  let '(limIdxs, facSubs) :=
    tier_limits L zmax (length currRangeBorders) in
  origStart ← stride_loop (Z.to_nat naz) 0 naz rayF [];
  let origEnd := map (fun j => rayF + j) origStart in
  b ← ray_borders limIdxs facSubs origStart origEnd nsr nsaz;
  Some (currRangeBorders, fst b, snd b).

(** The moment [type] names, and its superobed companion. *)
Definition source_moment (type : MomentType) (d : HoofData D)
    : HoofMeasurement D :=
  match type with DBZ => dbz d | VRAD => vrad d end.
Definition superobed_moment (type : MomentType) (d : HoofData D)
    : HoofMeasurement D :=
  match type with DBZ => sdbz d | VRAD => svrad d end.

(** [HoofSuperober::_calculateBinBorders]. *)
Definition calculateBinBorders (s : HoofSettings D) (type : MomentType)
    (st : HoofSuperober D) : option (HoofSuperober D) :=
  let d := so_data st in
  let m := source_moment type d in
  let sm := superobed_moment type d in
  r ← for_nat (Z.to_nat (nel sm))
        (fun i acc =>
           '(rb, sb, eb) ← acc;
           b ← elevation_borders s (get1 0 (naz m) i) (get1 0 (nr m) i)
                 (get1 0 (naz sm) i) (get1 0 (nr sm) i)
                 (get1 dNaN (rscales m) i);
           Some (rb ++ [fst (fst b)], sb ++ [snd (fst b)], eb ++ [snd b]))
        (Some ([], [], []));
  Some (so_with_borders (fst (fst r)) (snd (fst r)) (snd r) st).

(** The roll of a cube by [zmax] along the azimuth axis. *)
Definition roll (zmax Nel Naz Nr : Z) (old : vector3D D) : vector3D D :=
  for_nat (Z.to_nat Nel) (fun i =>
    for_nat (Z.to_nat Naz) (fun j =>
      let newj := if Naz <=? Z.of_nat j + zmax
                  then Z.of_nat j + zmax - Naz else Z.of_nat j + zmax in
      for_nat (Z.to_nat Nr) (fun k m =>
        set3 m i (Z.to_nat newj) k (get3 dNaN old i j k))))
    (vec Nel (vec Naz (vec Nr dNaN))).

(** The sweep of a coarse VRAD cell: [nGood], [s] and [s2].  The sums are
    taken over the loop index [m], as the source has it. *)
Definition vrad_sums (meas : vector3D D) (i : nat)
    (startRay endRay startBin endBin : Z) : Z * D * D :=
  for_Z startRay (endRay - 1) (fun l =>
    for_Z startBin (endBin - 1) (fun m (acc : Z * D * D) =>
      let '(nGood, s, s2) := acc in
      let v := get3 dNaN meas i (Z.to_nat l) (Z.to_nat m) in
      if dltb v (dlit 1000000)
      then (nGood + 1, dadd s (dlit m), dadd s2 (dlit (m * m)))
      else acc))
    (0, dlit 0, dlit 0).

(** The sums as the specification words them, over the measurement [v]
    of the good bins; only for the comparison with [vrad_sums]. *)
Definition vrad_sums_of_values (meas : vector3D D) (i : nat)
    (startRay endRay startBin endBin : Z) : Z * D * D :=
  for_Z startRay (endRay - 1) (fun l =>
    for_Z startBin (endBin - 1) (fun m (acc : Z * D * D) =>
      let '(nGood, s, s2) := acc in
      let v := get3 dNaN meas i (Z.to_nat l) (Z.to_nat m) in
      if dltb v (dlit 1000000)
      then (nGood + 1, dadd s v, dadd s2 (dmul v v))
      else acc))
    (0, dlit 0, dlit 0).

(** The quantization of [HoofSuperober::write] and [HoofDealiaser::write]:
    gain and offset of a field. *)
Definition quant_params (el : vector2D D) : D * D :=
  if negb (isallnan2 el) then
    let minmax := nanminmax2 el in
    let gain := ddiv (dsub (snd minmax) (fst minmax)) (dlit 254) in
    let gain := if eqDbl gain (dlit 0) then dlit 1 else gain in
    let offset := ddiv (dsub (dmul (dlit 254) (fst minmax)) (snd minmax))
                       (dlit 253) in
    (gain, offset)
  else (dlit 1, dlit 0).

(** [static_cast<unsigned char>(x)]; the conversion is defined for the
    values that truncate into 0..255 and wraps here outside. *)
Definition to_uchar (x : D) : Z := to_int x mod 256.

(** The byte of a cell: [(v - offset + 0.5*gain) / gain]. *)
Definition quantize (gain offset v : D) : Z :=
  to_uchar (ddiv (dadd (dsub v offset) (dmul dhalf gain)) gain).

(** The data a field is written with: gain, offset and the bytes. *)
Definition write_field (nodataRaw : Z) (el : vector2D D)
    : D * D * vector2D Z :=
  let '(gain, offset) := quant_params el in
  (gain, offset,
   map (map (fun v => if negb (isnan v) then quantize gain offset v
                      else nodataRaw)) el).

(** The value read back from a byte, [g * (double)d[i][j] + o] of
    [HoofHomogenizer::_fillHomDataDataset]. *)
Definition dequantize (g o : D) (b : Z) : D := dadd (dmul g (dlit b)) o.

End Superober.

Section SuperobVrad.
Context {D : Type} `{Double D} `{DoubleSqrt D}.

(** Average and standard deviation of a coarse VRAD cell. *)
Definition vrad_avg_std (maxstd : D) (sums : Z * D * D) : D * D :=
  let '(nGood, s, s2) := sums in
  if 0 <? nGood then
    let avg := ddiv s (dlit nGood) in
    let std2 := ddiv (dsub s2 (dmul s avg)) (dlit nGood) in
    (avg, if dltb (dlit 0) std2 then dsqrt std2 else dlit 0)
  else (dlit 0, dadd maxstd (dlit 1)).

(** The superob of a coarse VRAD cell: the average when the cell passes
    the two gates, nothing otherwise. *)
Definition vrad_cell (s : HoofSettings D) (meas : vector3D D) (i : nat)
    (startRay endRay startBin endBin : Z) : option D :=
  let sums := vrad_sums meas i startRay endRay startBin endBin in
  let '(avg, std) := vrad_avg_std (vradMaxStd s) sums in
  if dltb (dmul (vradPercentage s)
                (dlit ((endRay - startRay) * (endBin - startBin))))
          (dlit (fst (fst sums)))
     && dltb std (vradMaxStd s)
  then Some avg else None.

(** The same cell with the sums of the specification. *)
Definition vrad_cell_of_values (s : HoofSettings D) (meas : vector3D D)
    (i : nat) (startRay endRay startBin endBin : Z) : option D :=
  let sums := vrad_sums_of_values meas i startRay endRay startBin endBin in
  let '(avg, std) := vrad_avg_std (vradMaxStd s) sums in
  if dltb (dmul (vradPercentage s)
                (dlit ((endRay - startRay) * (endBin - startBin))))
          (dlit (fst (fst sums)))
     && dltb std (vradMaxStd s)
  then Some avg else None.

(** The VRAD branch of [HoofSuperober::superob]: the state with the bin
    borders and the cubes [svrad.meas] and [svrad.quals]. *)
Definition superob_vrad (s : HoofSettings D) (st : HoofSuperober D)
    : option (HoofSuperober D * vector3D D * vector3D D) :=
  let d := so_data st in
  let zmax := Z.quot (rayAngleFactor s - 1) 2 in
  let Nelv := nel (vrad d) in
  let Nazv := nazMax (vrad d) in
  let Nrv := nrMax (vrad d) in
  let Nselv := nel (svrad d) in
  let Nsazv := nazMax (svrad d) in
  let Nsrv := nrMax (svrad d) in
  if 0 <? Nelv then
    st ← calculateBinBorders s VRAD st;
    let smeas0 := vec Nselv (vec Nsazv (vec Nsrv dNaN)) in
    let squals0 := vec Nselv (vec Nsazv (vec Nsrv (dlit 0))) in
    let oldmeas := if dealiasing s then dvrads d else meas (vrad d) in
    let rolled := roll zmax Nelv Nazv Nrv oldmeas in
    let out :=
      for_nat (Z.to_nat Nselv) (fun i =>
        for_nat (Z.to_nat (get1 0 (nr (svrad d)) i)) (fun j =>
          let startBin := get2 0 (so_rangeBorders st) i j in
          let endBin := get2 0 (so_rangeBorders st) i (j + 1) in
          for_nat (Z.to_nat (get1 0 (naz (svrad d)) i))
            (fun k (acc : vector3D D * vector3D D) =>
               let startRay := get3 0 (so_startRayBorders st) i j k in
               let endRay := get3 0 (so_endRayBorders st) i j k in
               match vrad_cell s rolled i startRay endRay startBin endBin with
               | Some avg => (set3 (fst acc) i k j avg,
                              set3 (snd acc) i k j (dlit 1))
               | None => acc
               end)))
        (smeas0, squals0) in
    Some (st, fst out, snd out)
  else Some (st, meas (svrad d), quals (svrad d)).

End SuperobVrad.

(** The relations of C5 between a source moment [m] and its superobed
    moment [sm] at the elevation [e]; [/] is the floor division. *)
Definition superobed_dims {D : Type} `{Double D} (binF rayF : Z)
    (m sm : HoofMeasurement D) (e : nat) : Prop :=
  get1 0 (naz sm) e = get1 0 (naz m) e / rayF /\
  get1 0 (nr sm) e = get1 0 (nr m) e / binF /\
  get1 dNaN (rscales sm) e = dmul (dlit binF) (get1 dNaN (rscales m) e) /\
  get1 dNaN (rstarts sm) e = get1 dNaN (rstarts m) e.

(** ** Loop nests over the bins, for the proofs *)

(** The nest [for i < n1, for j < n2 i, for k < n3 i] around a body. *)
Definition sweep {S : Type} (n1 : nat) (n2 n3 : nat -> nat)
    (body : nat -> nat -> nat -> S -> S) (s : S) : S :=
  for_nat n1 (fun i => for_nat (n2 i) (fun j => for_nat (n3 i) (body i j))) s.

(** The bins such a nest visits. *)
Definition visited (n1 : nat) (n2 n3 : nat -> nat) (a b c : nat) : Prop :=
  (a < n1 /\ b < n2 a /\ c < n3 a)%nat.

Section DealiaserBins.
Context {D : Type} `{Double D}.

(** The bins the loops of the dealiaser visit, and the cells of the cubes
    it allocates. *)
Definition in_range (m : HoofMeasurement D) (i j k : nat) : Prop :=
  (i < Z.to_nat (nel m) /\ j < naz_at m i /\ k < nr_at m i)%nat.
Definition in_cube (m : HoofMeasurement D) (i j k : nat) : Prop :=
  (i < Z.to_nat (nel m) /\ j < Z.to_nat (nazMax m) /\
   k < Z.to_nat (nrMax m))%nat.

Definition cube_shaped {A : Type} (m : HoofMeasurement D)
    (v : list (list (list A))) : Prop :=
  forall a b c, allocated v a b c <-> in_cube m a b c.

(** One sweep of the search loop nest, for the multiplier [n]. *)
Definition search_body (st : HoofDealiaser D) (n : Z) (i j k : nat)
    (acc : list (list (list D)) * list (list (list Z)))
    : list (list (list D)) * list (list (list Z)) :=
  let m := vrad (dl_data st) in
  let '(mns, ns) := acc in
  let wm := get3 dNaN (wModels (dl_data st)) i j k in
  let mv := get3 dNaN (meas m) i j k in
  if negb (isnan wm || isnan mv) then
    let currMn := fold_distance mv (get1 dNaN (vnys m) i) wm n in
    if dltb currMn (get3 dNaN mns i j k)
    then (set3 mns i j k currMn, set3 ns i j k n)
    else acc
  else acc.

Definition search_obs (acc : list (list (list D)) * list (list (list Z)))
    (a b c : nat) : D * Z :=
  (get3 dNaN (fst acc) a b c, get3 0 (snd acc) a b c).

Definition search_upd (st : HoofDealiaser D) (n : Z) (a b c : nat)
    (best : D * Z) : D * Z :=
  if decide (in_cube (vrad (dl_data st)) a b c) then
    search_step (get3 dNaN (meas (vrad (dl_data st))) a b c)
                (get1 dNaN (vnys (vrad (dl_data st))) a)
                (get3 dNaN (wModels (dl_data st)) a b c) n best
  else best.

Definition search_inv (st : HoofDealiaser D)
    (acc : list (list (list D)) * list (list (list Z))) : Prop :=
  cube_shaped (vrad (dl_data st)) (fst acc) /\
  cube_shaped (vrad (dl_data st)) (snd acc).

(** One visit of the second loop nest of [dealias]. *)
Definition unfold_body (st : HoofDealiaser D) (ns : list (list (list Z)))
    (i j k : nat) (dv : list (list (list D))) : list (list (list D)) :=
  let m := vrad (dl_data st) in
  let mv := get3 dNaN (meas m) i j k in
  let n := get3 0 ns i j k in
  if negb (isnan mv || isnan_int n || isnan (get3 dNaN (dl_Ds st) i j k))
  then set3 dv i j k (unfolded mv (get1 dNaN (vnys m) i) n) else dv.

Definition unfold_upd (st : HoofDealiaser D) (ns : list (list (list Z)))
    (a b c : nat) (x : D) : D :=
  let m := vrad (dl_data st) in
  let mv := get3 dNaN (meas m) a b c in
  if decide (in_cube m a b c) then
    if negb (isnan mv || isnan_int (get3 0 ns a b c)
             || isnan (get3 dNaN (dl_Ds st) a b c))
    then unfolded mv (get1 dNaN (vnys m) a) (get3 0 ns a b c) else x
  else x.

(** What the visits of a bin have established after the multipliers
    [lo .. lo + len - 1]. *)
Definition searched (d : Z -> D) (lo len : Z) (best : D * Z) : Prop :=
  (forall j, lo <= j < lo + len -> dltb (d j) (fst best) = false) /\
  ((fst best = dInf /\ snd best = iNaN) \/
   (lo <= snd best < lo + len /\ fst best = d (snd best) /\
    dltb (fst best) dInf = true /\
    forall j, lo <= j < snd best -> dleb (d j) (d (snd best)) = false)).

End DealiaserBins.

(** ** The ray bin tiers, for the proofs *)

(** A list of limits that never decreases. *)
Definition ascending (l : list Z) : Prop :=
  forall (a b : nat) (x y : Z),
    (a <= b)%nat -> l !! a = Some x -> l !! b = Some y -> x <= y.

(** [c] is the initial [currFacSub] or the index of a tier that starts at
    or before the coarse range index [j]. *)
Definition tier_ok (limIdxs : list Z) (j c : Z) : Prop :=
  c = -1 \/
  (0 <= c /\ exists lo, limIdxs !! Z.to_nat c = Some lo /\ lo <= j).

(** A vector of [n] rows of [m] elements. *)
Definition rect {A : Type} (v : vector2D A) (n m : nat) : Prop :=
  length v = n /\ forall i row, v !! i = Some row -> length row = m.

(** The rows below [J] of the ray borders are the original borders moved
    by the sub ray factor [f j] of their row. *)
Definition rows_filled (origStart origEnd : list Z) (m : nat)
    (cs ce : vector2D Z) (J : nat) (f : nat -> Z) : Prop :=
  forall j k, (j < J)%nat -> (k < m)%nat ->
    get2 0 cs j k = get1 0 origStart k + f j /\
    get2 0 ce j k = get1 0 origEnd k - f j.

(** ** The scan of [nanminmax], for the proofs on the exact numbers *)



(** ** Scenarios *)

Section Scenarios.
Context {D : Type} `{Double D}.

(** A moment without elevations. *)
Definition empty_moment : HoofMeasurement D :=
  {| datasets := []; nel := 0; nazMax := 0; nrMax := 0; elangles := [];
     naz := []; azimuths := []; nr := []; ranges := []; rscales := [];
     rstarts := []; vnys := []; meas := []; ths := []; quals := [];
     zs := [] |}.

(** One elevation of [na] rays and [nb] gates, elevation angle 0, Nyquist
    velocity [vny], gates of 1000 m from 500 m on, every measurement [v]
    and every height taken from [heights]. *)
Definition flat_moment (na nb : Z) (vny v : D) (heights : list D)
    : HoofMeasurement D :=
  {| datasets := ["dataset1"%string]; nel := 1; nazMax := na; nrMax := nb;
     elangles := [dlit 0]; naz := [na];
     azimuths := [linspace (vec na dNaN) (dlit 0) (dmul (dlit 2) dPi) na];
     nr := [nb];
     ranges := [linspace (vec nb dNaN) (dlit 500)
                  (dadd (dlit 500) (dmul (dlit 1000) (dlit nb))) nb];
     rscales := [dlit 1000]; rstarts := [dlit 500]; vnys := [vny];
     meas := vec 1 (vec na (vec nb v)); ths := []; quals := [];
     zs := vec 1 (vec na heights) |}.

Definition volume (site_height : D) (d v : HoofMeasurement D)
    (w : vector3D D) : HoofData D :=
  {| height := site_height; dbz := d; vrad := v; zStarts := []; zEnds := [];
     zIdxs := []; wModels := w; dvrads := []; sdbz := empty_moment;
     svrad := empty_moment |}.

Definition settings (minGood : Z) (vmax : D) (deal : bool) (binF rayF : Z)
    (arc vradgood maxstd : D) : HoofSettings D :=
  {| dealiasing := deal; zSectorSize := dlit 100; zMax := dlit 10000;
     minGoodPoints := minGood; maxWind := vmax; superobing := true;
     rangeBinFactor := binF; rayAngleFactor := rayF; maxArcSize := arc;
     minQuality := dhalf; dbzClearsky := dlit 0; dbzPercentage := dhalf;
     vradPercentage := vradgood; vradMaxStd := maxstd |}.

(** The dealiaser after [calculateWindModelQtys] on a volume whose D
    quantity is [dq] everywhere. *)
Definition dealiaser_on (d : HoofData D) (dq vnyMin : D) : HoofDealiaser D :=
  {| dl_worker := {| classMessage := "Dealiasing"; warnings := [];
                     errors := [] |};
     dl_data := d; dl_As := []; dl_Bs := [];
     dl_Ds := vec (nel (vrad d)) (vec (nazMax (vrad d))
                                   (vec (nrMax (vrad d)) dq));
     dl_cosEls := []; dl_cosAzs := []; dl_sinAzs := []; dl_vnyMin := vnyMin |}.

(** S3: S1 (one elevation, 4 rays of 2 gates, Nyquist velocity 10, every
    measurement 1.0, site at height 0) with [minGoodPoints = 100].  The
    heights are those of the gates at 500 m and 1500 m above a flat
    horizon; the measurements being constant, D is zero. *)
Definition S3_settings : HoofSettings D :=
  settings 100 (dlit 40) true 1 1 (dlit 1000) dhalf (dlit 1).
Definition S3_dealiaser : HoofDealiaser D :=
  dealiaser_on
    (volume (dlit 0) empty_moment
       (flat_moment 4 2 (dlit 10) (dlit 1)
          [ddiv (dlit 14715) (dlit 1000000);
           ddiv (dlit 132432) (dlit 1000000)]) [])
    (dlit 0) (dlit 10).

(** A single bin with measurement 0 and model -30 under Nyquist velocity
    10 and [maxWind = 40]: the multipliers -2 and -1 are equally near. *)
Definition tie_settings : HoofSettings D :=
  settings 1 (dlit 40) true 1 1 (dlit 1000) dhalf (dlit 1).
Definition tie_dealiaser : HoofDealiaser D :=
  dealiaser_on
    (volume (dlit 0) empty_moment
       (flat_moment 1 1 (dlit 10) (dlit 0) [dlit 0]) [[[dlit (-30)]]])
    (dlit 0) (dlit 10).

(** S4: a DBZ moment of one elevation with 16 rays and 20 gates,
    [binFactor = 4] and [rayFactor = 3]. *)
Definition S4_settings : HoofSettings D :=
  settings 1 (dlit 40) false 4 3 (dlit 1000) dhalf (dlit 1).
Definition S4_superober : HoofSuperober D :=
  so_new (volume (dlit 0) (flat_moment 16 20 (dlit 10) (dlit 1) [])
                 empty_moment []).

(** S6: a VRAD moment of one elevation with 3 rays of 3 gates that makes
    one coarse cell of 9 bins, [meas = {1,1,1,1,1,1,1,1,10}],
    [vradMaxStd = 1], [vradPercentage = 0.5], no dealiasing; the arc bound
    is far, so the cell keeps its 3 rays. *)
Definition S6_settings : HoofSettings D :=
  settings 1 (dlit 40) false 3 3 (dlit 100000) dhalf (dlit 1).
Definition S6_cube : vector3D D :=
  [[[dlit 1; dlit 1; dlit 1]; [dlit 1; dlit 1; dlit 1];
    [dlit 1; dlit 1; dlit 10]]].
Definition S6_vrad : HoofMeasurement D :=
  {| datasets := ["dataset1"%string]; nel := 1; nazMax := 3; nrMax := 3;
     elangles := [dlit 0]; naz := [3];
     azimuths := [linspace (vec 3 dNaN) (dlit 0) (dmul (dlit 2) dPi) 3];
     nr := [3];
     ranges := [linspace (vec 3 dNaN) (dlit 500) (dlit 3500) 3];
     rscales := [dlit 1000]; rstarts := [dlit 500]; vnys := [dlit 10];
     meas := S6_cube; ths := []; quals := []; zs := [] |}.
Definition S6_superober : HoofSuperober D :=
  so_new (volume (dlit 0) empty_moment S6_vrad []).

(** A VRAD moment of one elevation with 12 rays of 20 gates of 500 m,
    [binFactor = 4], [rayFactor = 3] and [maxArcSize = 7]: the arc bound is
    about 6, the limits of the tiers are 0, 2 and 6. *)
Definition tiers_settings : HoofSettings D :=
  settings 1 (dlit 40) false 4 3 (dlit 7) dhalf (dlit 1).
Definition tiers_vrad : HoofMeasurement D :=
  {| datasets := ["dataset1"%string]; nel := 1; nazMax := 12; nrMax := 20;
     elangles := [dlit 0]; naz := [12];
     azimuths := [linspace (vec 12 dNaN) (dlit 0) (dmul (dlit 2) dPi) 12];
     nr := [20];
     ranges := [linspace (vec 20 dNaN) (dlit 250) (dlit 10250) 20];
     rscales := [dlit 500]; rstarts := [dlit 250]; vnys := [dlit 10];
     meas := vec 1 (vec 12 (vec 20 (dlit 1))); ths := []; quals := [];
     zs := [] |}.
Definition tiers_superober : HoofSuperober D :=
  so_new (volume (dlit 0) empty_moment tiers_vrad []).

(** A volume with a DBZ moment of one NaN bin and a VRAD moment of one
    bin of value 1.0. *)
Definition one_sided_volume : HoofData D :=
  volume (dlit 0) (flat_moment 1 1 (dlit 10) dNaN [dlit 0])
         (flat_moment 1 1 (dlit 10) (dlit 1) [dlit 0]) [].

End Scenarios.

(** ** The reader of a written field *)

Section ReadBack.
Context {D : Type} `{Double D}.

(** [HoofAux::replace] on a 2-D vector of [double]: every cell that
    [eqDbl] finds equal to [condValue] becomes [value]. *)
Definition replace2 (v : vector2D D) (condValue value : D) : vector2D D :=
  map (map (fun x => if eqDbl x condValue then value else x)) v.

(** [HoofHomogenizer::_fillHomDataDataset], once the dataset [d] and its
    attributes gain, offset, nodata and undetect are found: the bytes are
    recalculated to [double] into [v], then the cells at the values of
    nodata and of undetect become NaN.  The loops run over the rows of [d]
    and the length of its first row. *)
Definition fillHomDataDataset (g o nodata undetect : D) (d : vector2D Z)
    (v : vector2D D) : vector2D D :=
  let nd := dadd (dmul g nodata) o in
  let un := dadd (dmul g undetect) o in
  let v := for_nat (length d) (fun i =>
             for_nat (length (get1 [] d 0)) (fun j v =>
               set2 v i j (dequantize g o (get2 0 d i j)))) v in
  replace2 (replace2 v nd dNaN) un dNaN.

End ReadBack.

(** ** The DBZ branch of the superober and [superob] as a whole *)

Section SuperobDbz.
Context {D : Type} `{Double D}.

Definition moment_with_cubes (me th qu : vector3D D) (m : HoofMeasurement D)
    : HoofMeasurement D :=
  {| datasets := datasets m; nel := nel m; nazMax := nazMax m;
     nrMax := nrMax m; elangles := elangles m; naz := naz m;
     azimuths := azimuths m; nr := nr m; ranges := ranges m;
     rscales := rscales m; rstarts := rstarts m; vnys := vnys m;
     meas := me; ths := th; quals := qu; zs := zs m |}.

(** The roll by [zmax] into a cube that starts at [x0]; the rolled
    qualities of the DBZ branch start at 0.0. *)
Definition roll_from (x0 : D) (zmax Nel Naz Nr : Z) (old : vector3D D)
    : vector3D D :=
  for_nat (Z.to_nat Nel) (fun i =>
    for_nat (Z.to_nat Naz) (fun j =>
      let newj := if Naz <=? Z.of_nat j + zmax
                  then Z.of_nat j + zmax - Naz else Z.of_nat j + zmax in
      for_nat (Z.to_nat Nr) (fun k m =>
        set3 m i (Z.to_nat newj) k (get3 dNaN old i j k))))
    (vec Nel (vec Naz (vec Nr x0))).

(** The sweep of a coarse DBZ cell: [nWet], [nDry], [wetAvg], [nWetTh]
    and [wetAvgTh]. *)
Definition dbz_sums (s : HoofSettings D) (meas ths quals : vector3D D)
    (i : nat) (startRay endRay startBin endBin : Z) : Z * Z * D * Z * D :=
  for_Z startRay (endRay - 1) (fun l =>
    for_Z startBin (endBin - 1) (fun m (acc : Z * Z * D * Z * D) =>
      let '(nWet, nDry, wetAvg, nWetTh, wetAvgTh) := acc in
      let d := get3 dNaN meas i (Z.to_nat l) (Z.to_nat m) in
      let t := get3 dNaN ths i (Z.to_nat l) (Z.to_nat m) in
      let q := get3 dNaN quals i (Z.to_nat l) (Z.to_nat m) in
      if dltb (minQuality s) q then
        if dltb (dbzClearsky s) d then
          if dltb t (dlit 100000)
          then (nWet + 1, nDry, dadd wetAvg d, nWetTh + 1, dadd wetAvgTh t)
          else (nWet + 1, nDry, dadd wetAvg d, nWetTh, wetAvgTh)
        else (nWet, nDry + 1, wetAvg, nWetTh, wetAvgTh)
      else acc))
    (0, 0, dlit 0, 0, dlit 0).

(** The superob of a coarse DBZ cell: the reflectivity written to
    [sdbz.meas] and, with it, the value written to [sdbz.ths] if there is
    one; nothing when neither rule applies. *)
Definition dbz_cell (s : HoofSettings D) (dbzmin : D)
    (meas ths quals : vector3D D) (i : nat)
    (startRay endRay startBin endBin : Z) : option (D * option D) :=
  let '(nWet, nDry, wetAvg, nWetTh, wetAvgTh) :=
    dbz_sums s meas ths quals i startRay endRay startBin endBin in
  if dltb (dmul (dbzPercentage s)
                (dlit ((endRay - startRay) * (endBin - startBin))))
          (dlit nWet)
  then Some (ddiv wetAvg (dlit nWet),
             if 0 <? nWetTh then Some (ddiv wetAvgTh (dlit nWetTh))
             else None)
  else if 0 <? nDry then Some (dbzmin, None) else None.

(** The cubes [sdbz.meas], [sdbz.ths] and [sdbz.quals] that the loops of
    the DBZ branch fill, from the rolled cubes and the borders of [st]. *)
Definition dbz_cubes (s : HoofSettings D) (st : HoofSuperober D)
    (dbzmin : D) (rmeas rths rquals : vector3D D)
    : vector3D D * vector3D D * vector3D D :=
  let sd := sdbz (so_data st) in
  let cube0 := vec (nel sd) (vec (nazMax sd) (vec (nrMax sd) dNaN)) in
  for_nat (Z.to_nat (nel sd)) (fun i =>
    for_nat (Z.to_nat (get1 0 (nr sd) i)) (fun j =>
      let startBin := get2 0 (so_rangeBorders st) i j in
      let endBin := get2 0 (so_rangeBorders st) i (j + 1) in
      for_nat (Z.to_nat (get1 0 (naz sd) i))
        (fun k (acc : vector3D D * vector3D D * vector3D D) =>
           let '(sm, sth, sq) := acc in
           let startRay := get3 0 (so_startRayBorders st) i j k in
           let endRay := get3 0 (so_endRayBorders st) i j k in
           match dbz_cell s dbzmin rmeas rths rquals i
                          startRay endRay startBin endBin with
           | Some (v, t) =>
               (set3 sm i k j v,
                match t with Some t => set3 sth i k j t | None => sth end,
                set3 sq i k j (dlit 1))
           | None => acc
           end)))
    (cube0, cube0, cube0).

(** The DBZ branch of [HoofSuperober::superob]. *)
Definition superob_dbz (s : HoofSettings D) (st : HoofSuperober D)
    : option (HoofSuperober D) :=
  let d := so_data st in
  let dbzmin := fst (nanminmax3 (meas (dbz d))) in
  let zmax := Z.quot (rayAngleFactor s - 1) 2 in
  let Nel := nel (dbz d) in
  let Naz := nazMax (dbz d) in
  let Nr := nrMax (dbz d) in
  if 0 <? Nel then
    st ← calculateBinBorders s DBZ st;
    let '(sm, sth, sq) :=
      dbz_cubes s st dbzmin (roll zmax Nel Naz Nr (meas (dbz d)))
                (roll zmax Nel Naz Nr (ths (dbz d)))
                (roll_from (dlit 0) zmax Nel Naz Nr (quals (dbz d))) in
    Some (so_with_data
            (data_with_superobs (moment_with_cubes sm sth sq (sdbz d))
                                (svrad d) d) st)
  else Some st.

End SuperobDbz.

Section Superob.
Context {D : Type} `{Double D} `{DoubleSqrt D}.

(** [HoofSuperober::superob]: the DBZ branch, then the VRAD branch. *)
Definition superob (s : HoofSettings D) (st : HoofSuperober D)
    : option (HoofSuperober D) :=
  st ← superob_dbz s st;
  r ← superob_vrad s st;
  let st := fst (fst r) in
  let d := so_data st in
  Some (so_with_data
          (data_with_superobs (sdbz d)
             (moment_with_cubes (snd (fst r)) (ths (svrad d)) (snd r)
                                (svrad d)) d) st).

End Superob.

(** ** The writers *)

Section Writers.
Context {D : Type} `{Double D}.

(** The 2-D array of an elevation, [el[j][k] = cube[i][j][k]] for
    [j < naz] and [k < nr]. *)
Definition elevation_field (cube : vector3D D) (i : nat) (naz nr : Z)
    : vector2D D :=
  for_nat (Z.to_nat naz) (fun j =>
    for_nat (Z.to_nat nr) (fun k el =>
      set2 el j k (get3 dNaN cube i j k)))
    (vec naz (vec nr dNaN)).

(** The quality bytes of [HoofSuperober::write], with the gain 1/255 and
    the offset 0. *)
Definition write_quality (el : vector2D D) : vector2D Z :=
  map (map (fun q => if negb (isnan q)
                     then quantize (ddiv (dlit 1) (dlit 255)) (dlit 0) q
                     else 0)) el.

(** What [HoofSuperober::write] writes for the VRAD dataset [i]: gain,
    offset and bytes of the data, and the bytes of the quality.  The
    nodata byte of VRAD is 255. *)
Definition so_write_vrad (st : HoofSuperober D) (i : nat)
    : D * D * vector2D Z * vector2D Z :=
  let sv := svrad (so_data st) in
  let a := get1 0 (naz sv) i in
  let r := get1 0 (nr sv) i in
  (write_field 255 (elevation_field (meas sv) i a r),
   write_quality (elevation_field (quals sv) i a r)).

(** What [HoofDealiaser::write] writes for the dataset [i], [nodata] being
    the attribute of the file: the data, and the quality bytes
    [static_cast<unsigned char>(1.5)], which is 1, on the cells with a
    value and [static_cast<unsigned char>(0.5)], which is 0, elsewhere. *)
Definition dl_write_dataset (nodata : D) (st : HoofDealiaser D) (i : nat)
    : D * D * vector2D Z * vector2D Z :=
  let m := vrad (dl_data st) in
  let el := elevation_field (dvrads (dl_data st)) i
              (get1 0 (naz m) i) (get1 0 (nr m) i) in
  (write_field (to_uchar nodata) el,
   map (map (fun v => if negb (isnan v) then 1 else 0)) el).

End Writers.

(** ** Further scenarios *)

(** The fit of the examples: the wind (3, 4) whatever the rows are. *)
Definition steady_fit (rows : list (float * float * float)) : float * float :=
  (3%float, 4%float).

Section MoreScenarios.
Context {D : Type} `{Double D}.

(** S3 with one height sector that lists two of its bins. *)
Definition S3_sectored : HoofDealiaser D :=
  dl_with_data
    (data_with_sectors [dlit 0] [dlit 100] [[(0, 0, 0); (0, 1, 1)]%nat]
                       (dl_data S3_dealiaser))
    S3_dealiaser.

(** A DBZ moment of one elevation with 3 rays of 3 gates that makes one
    coarse cell under [S6_settings]: every reflectivity 20, every TH 25
    and every quality 1. *)
Definition S6_dbz : HoofMeasurement D :=
  {| datasets := ["dataset1"%string]; nel := 1; nazMax := 3; nrMax := 3;
     elangles := [dlit 0]; naz := [3];
     azimuths := [linspace (vec 3 dNaN) (dlit 0) (dmul (dlit 2) dPi) 3];
     nr := [3];
     ranges := [linspace (vec 3 dNaN) (dlit 500) (dlit 3500) 3];
     rscales := [dlit 1000]; rstarts := [dlit 500]; vnys := [];
     meas := vec 1 (vec 3 (vec 3 (dlit 20)));
     ths := vec 1 (vec 3 (vec 3 (dlit 25)));
     quals := vec 1 (vec 3 (vec 3 (dlit 1))); zs := [] |}.
Definition S6_dbz_superober : HoofSuperober D :=
  so_new (volume (dlit 0) S6_dbz empty_moment []).

(** A VRAD moment of three elevations of one bin each, with the Nyquist
    velocities 12, 8 and 10. *)
Definition three_tilts : HoofMeasurement D :=
  {| datasets := ["dataset1"; "dataset2"; "dataset3"]%string; nel := 3;
     nazMax := 1; nrMax := 1; elangles := [dlit 0; dlit 1; dlit 2];
     naz := [1; 1; 1]; azimuths := vec 3 [dlit 0]; nr := [1; 1; 1];
     ranges := vec 3 [dlit 500]; rscales := vec 3 (dlit 1000);
     rstarts := vec 3 (dlit 500); vnys := [dlit 12; dlit 8; dlit 10];
     meas := vec 3 (vec 1 (vec 1 (dlit 5))); ths := []; quals := [];
     zs := vec 3 (vec 1 [dlit 100]) |}.

End MoreScenarios.

(** ** Predicates of the proofs *)

(** What the scan of [nanminmax] holds after it has seen the values [P]:
    the initial pair if every value was a NaN; otherwise two values it has
    seen that are around every other. *)
Definition scanned (acc : xdouble * xdouble) (P : xdouble -> Prop) : Prop :=
  (acc = (XInf false, XInf true) /\ forall v, P v -> v = XNaN) \/
  (exists mn mx, acc = (XFin mn, XFin mx) /\ P (XFin mn) /\ P (XFin mx) /\
                 forall q, P (XFin q) -> (mn <= q)%Q /\ (q <= mx)%Q).

Section HeightSectorBins.
Context {D : Type} `{Double D}.

(** A bin of the VRAD moment is eligible, and its sector index. *)
Definition bin_eligible (s : HoofSettings D) (st : HoofDealiaser D)
    (i j k : nat) : bool :=
  eligible (get3 dNaN (zs (vrad (dl_data st))) i j k)
           (get3 dNaN (meas (vrad (dl_data st))) i j k)
           (get3 dNaN (dl_Ds st) i j k) (sector_ceiling s (dl_data st)).
Definition bin_sector (s : HoofSettings D) (st : HoofDealiaser D)
    (i j k : nat) : Z :=
  sector_index s (dl_data st) (get3 dNaN (zs (vrad (dl_data st))) i j k).

(** What the loop over the bins has put in [zIdxs] after the bins [P]. *)
Definition sectors_hold (s : HoofSettings D) (st : HoofDealiaser D)
    (P : nat -> nat -> nat -> Prop) (acc : option (list (list Triple)))
    : Prop :=
  forall zI, acc = Some zI ->
    length zI = Z.to_nat (sector_count s (dl_data st)) /\
    (forall a b c, P a b c -> bin_eligible s st a b c = true ->
                   0 <= bin_sector s st a b c
                     < Z.of_nat (length zI)) /\
    (forall n a b c,
       (a, b, c) ∈ get1 [] zI n <->
       P a b c /\ bin_eligible s st a b c = true /\
       bin_sector s st a b c = Z.of_nat n).

End HeightSectorBins.

(** ** The roll and the loops of the superober, for the proofs *)

(** A cube of [n1] planes of [n2] rows of [n3] cells. *)
Definition box_shaped {A : Type} (n1 n2 n3 : Z) (v : vector3D A) : Prop :=
  forall a b c, allocated v a b c <->
    (a < Z.to_nat n1 /\ b < Z.to_nat n2 /\ c < Z.to_nat n3)%nat.

Section SuperobBins.
Context {D : Type} `{Double D}.

(** The ray the roll by [zmax] moves the ray [j] to. *)
Definition rolled_ray (zmax Naz : Z) (j : nat) : nat :=
  Z.to_nat (if Naz <=? Z.of_nat j + zmax
            then Z.of_nat j + zmax - Naz else Z.of_nat j + zmax).

(** One visit of the loop nest of the roll. *)
Definition roll_body (zmax Naz : Z) (old : vector3D D) (i j k : nat)
    (m : vector3D D) : vector3D D :=
  if decide (j < Z.to_nat Naz)%nat
  then set3 m i (rolled_ray zmax Naz j) k (get3 dNaN old i j k) else m.

(** One visit of the loop nest of the VRAD branch, around the value
    [cell i j k] of the coarse cell. *)
Definition vrad_body (cell : nat -> nat -> nat -> option D) (i j k : nat)
    (acc : vector3D D * vector3D D) : vector3D D * vector3D D :=
  match cell i j k with
  | Some avg => (set3 (fst acc) i k j avg, set3 (snd acc) i k j (dlit 1))
  | None => acc
  end.

(** One visit of the loop nest of the DBZ branch. *)
Definition dbz_body (cell : nat -> nat -> nat -> option (D * option D))
    (i j k : nat) (acc : vector3D D * vector3D D * vector3D D)
    : vector3D D * vector3D D * vector3D D :=
  let '(sm, sth, sq) := acc in
  match cell i j k with
  | Some (v, t) =>
      (set3 sm i k j v,
       match t with Some t => set3 sth i k j t | None => sth end,
       set3 sq i k j (dlit 1))
  | None => acc
  end.

End SuperobBins.

(** * Proofs *)

(** * Loops *)

Lemma for_nat_0 {S : Type} (body : nat -> S -> S) (s : S) :
  for_nat O body s = s.
Proof. reflexivity. Qed.

Lemma for_nat_S {S : Type} (n : nat) (body : nat -> S -> S) (s : S) :
  for_nat (Datatypes.S n) body s = body n (for_nat n body s).
Proof.
  unfold for_nat. rewrite seq_S, foldl_app. reflexivity.
Qed.

Lemma for_nat_ind {S : Type} (P : nat -> S -> Prop) (n : nat)
    (body : nat -> S -> S) (s : S) :
  P O s ->
  (forall i t, (i < n)%nat -> P i t -> P (Datatypes.S i) (body i t)) ->
  P n (for_nat n body s).
Proof.
  intros H0 Hstep. induction n as [|n IH].
  - exact H0.
  - rewrite for_nat_S. apply Hstep; [lia|]. apply IH.
    intros i t Hi. apply Hstep. lia.
Qed.

Lemma for_nat_inv {S : Type} (P : S -> Prop) (n : nat)
    (body : nat -> S -> S) (s : S) :
  P s -> (forall i t, (i < n)%nat -> P t -> P (body i t)) ->
  P (for_nat n body s).
Proof.
  intros H0 Hstep. apply (for_nat_ind (fun _ => P)); auto.
Qed.

Lemma foldl_pointwise {A B : Type} (f g : A -> B -> A) (l : list B) (a : A) :
  (forall x y, f x y = g x y) -> foldl f a l = foldl g a l.
Proof.
  intros Hfg. revert a. induction l as [|y l IH]; intros a; simpl.
  - reflexivity.
  - rewrite Hfg. apply IH.
Qed.

Lemma for_Z_for_nat {S : Type} (lo hi : Z) (body : Z -> S -> S) (s : S) :
  for_Z lo hi body s =
  for_nat (Z.to_nat (hi + 1 - lo)) (fun i => body (lo + Z.of_nat i)) s.
Proof.
  unfold for_Z, for_nat, seqZ. rewrite foldl_fmap.
  apply foldl_pointwise. intros x y. f_equal. lia.
Qed.

Lemma for_Z_inv {S : Type} (P : S -> Prop) (lo hi : Z)
    (body : Z -> S -> S) (s : S) :
  P s -> (forall i t, lo <= i <= hi -> P t -> P (body i t)) ->
  P (for_Z lo hi body s).
Proof.
  intros H0 Hstep. rewrite for_Z_for_nat. apply for_nat_inv; [exact H0|].
  intros i t Hi Ht. apply Hstep; [lia|exact Ht].
Qed.

(** * Vectors *)

Lemma get1_vec {A : Type} (d x : A) (n : Z) (i : nat) :
  get1 d (vec n x) i = if decide (i < Z.to_nat n)%nat then x else d.
Proof.
  unfold get1, vec. destruct (decide (i < Z.to_nat n)%nat) as [Hi|Hi].
  - rewrite lookup_replicate_2 by exact Hi. reflexivity.
  - rewrite (proj1 (lookup_replicate_None _ _ _)) by lia. reflexivity.
Qed.

Lemma get3_set3_other {A : Type} (d x : A) (v : vector3D A)
    (i j k a b c : nat) :
  (a, b, c) <> (i, j, k) ->
  get3 d (set3 v i j k x) a b c = get3 d v a b c.
Proof.
  intros Hne. unfold get3, set3, get1.
  destruct (decide (i = a)) as [->|Hi].
  - rewrite list_lookup_alter_eq. destruct (v !! a) as [plane|]; simpl; [|done].
    destruct (decide (j = b)) as [->|Hj].
    + rewrite list_lookup_alter_eq.
      destruct (plane !! b) as [row|]; simpl; [|done].
      rewrite list_lookup_insert_ne; [done|]. intros ->. by apply Hne.
    + by rewrite list_lookup_alter_ne.
  - by rewrite list_lookup_alter_ne.
Qed.

Lemma get3_set3_same {A : Type} (d x : A) (v : vector3D A) (i j k : nat) :
  allocated v i j k -> get3 d (set3 v i j k x) i j k = x.
Proof.
  intros (plane & row & Hp & Hr & Hk). unfold get3, set3, get1.
  rewrite list_lookup_alter_eq, Hp. simpl.
  rewrite list_lookup_alter_eq, Hr. simpl.
  by rewrite list_lookup_insert_eq.
Qed.

Lemma set3_unallocated {A : Type} (x : A) (v : vector3D A) (i j k : nat) :
  ~ allocated v i j k -> set3 v i j k x = v.
Proof.
  intros Hn. unfold set3. apply list_eq. intros a.
  destruct (decide (i = a)) as [->|Hi]; [|by rewrite list_lookup_alter_ne].
  rewrite list_lookup_alter_eq.
  destruct (v !! a) as [plane|] eqn:Hp; simpl; [|done]. f_equal.
  apply list_eq. intros b.
  destruct (decide (j = b)) as [->|Hj]; [|by rewrite list_lookup_alter_ne].
  rewrite list_lookup_alter_eq.
  destruct (plane !! b) as [row|] eqn:Hr; simpl; [|done]. f_equal.
  apply list_insert_ge. destruct (decide (length row <= k)%nat); [done|].
  exfalso. apply Hn. exists plane, row. repeat split; [done..|lia].
Qed.

Lemma classic_allocated {A : Type} (v : vector3D A) (i j k : nat) :
  allocated v i j k \/ ~ allocated v i j k.
Proof.
  unfold allocated.
  destruct (v !! i) as [plane|] eqn:Hp; [|right; intros (?&?&?&_); congruence].
  destruct (plane !! j) as [row|] eqn:Hr.
  - destruct (decide (k < length row)%nat).
    + left. by exists plane, row.
    + right. intros (p & r & ? & ? & ?). simplify_eq. done.
  - right. intros (p & r & ? & ? & ?). simplify_eq.
Qed.

Lemma get3_set3_cases {A : Type} (d x : A) (v : vector3D A)
    (i j k a b c : nat) :
  get3 d (set3 v i j k x) a b c = get3 d v a b c \/
  ((a, b, c) = (i, j, k) /\ get3 d (set3 v i j k x) a b c = x).
Proof.
  destruct (decide ((a, b, c) = (i, j, k))) as [Heq|Hne].
  - inversion Heq; subst.
    destruct (classic_allocated v i j k) as [Ha|Ha].
    + right. split; [done|]. by apply get3_set3_same.
    + left. by rewrite set3_unallocated.
  - left. by apply get3_set3_other.
Qed.

Lemma allocated_set3 {A : Type} (x : A) (v : vector3D A)
    (i j k a b c : nat) :
  allocated (set3 v i j k x) a b c <-> allocated v a b c.
Proof.
  unfold allocated, set3. split.
  - intros (plane & row & Hp & Hr & Hk).
    destruct (decide (i = a)) as [->|Hi].
    + rewrite list_lookup_alter_eq in Hp.
      destruct (v !! a) as [plane0|] eqn:Hp0; simplify_eq/=.
      destruct (decide (j = b)) as [->|Hj].
      * rewrite list_lookup_alter_eq in Hr.
        destruct (plane0 !! b) as [row0|] eqn:Hr0; simplify_eq/=.
        exists plane0, row0. rewrite length_insert in Hk. done.
      * rewrite list_lookup_alter_ne in Hr by done. by exists plane0, row.
    + rewrite list_lookup_alter_ne in Hp by done. by exists plane, row.
  - intros (plane & row & Hp & Hr & Hk).
    destruct (decide (i = a)) as [->|Hi].
    + destruct (decide (j = b)) as [->|Hj].
      * exists (alter (fun row => <[k := x]> row) b plane), (<[k := x]> row).
        rewrite list_lookup_alter_eq, Hp. simpl.
        rewrite list_lookup_alter_eq, Hr. simpl.
        by rewrite length_insert.
      * exists (alter (fun row => <[k := x]> row) j plane), row.
        rewrite list_lookup_alter_eq, Hp. simpl.
        by rewrite list_lookup_alter_ne.
    + exists plane, row. by rewrite list_lookup_alter_ne.
Qed.

Lemma allocated_vec {A : Type} (x : A) (n1 n2 n3 : Z) (a b c : nat) :
  allocated (vec n1 (vec n2 (vec n3 x))) a b c <->
  (a < Z.to_nat n1 /\ b < Z.to_nat n2 /\ c < Z.to_nat n3)%nat.
Proof.
  unfold allocated, vec. split.
  - intros (plane & row & Hp & Hr & Hk).
    apply lookup_replicate in Hp as [-> Ha].
    apply lookup_replicate in Hr as [-> Hb].
    rewrite length_replicate in Hk. done.
  - intros (Ha & Hb & Hc). eexists _, _.
    rewrite !lookup_replicate_2 by done.
    split; [done|]. split; [done|]. by rewrite length_replicate.
Qed.

Lemma get3_vec {A : Type} (d x : A) (n1 n2 n3 : Z) (a b c : nat) :
  get3 d (vec n1 (vec n2 (vec n3 x))) a b c = x \/
  get3 d (vec n1 (vec n2 (vec n3 x))) a b c = d.
Proof.
  unfold get3. rewrite get1_vec. destruct (decide _).
  - rewrite get1_vec. destruct (decide _).
    + rewrite get1_vec. destruct (decide _); auto.
    + right. unfold get1. by rewrite lookup_nil.
  - right. unfold get1. by rewrite !lookup_nil.
Qed.

Lemma get3_vec_in {A : Type} (d x : A) (n1 n2 n3 : Z) (a b c : nat) :
  (a < Z.to_nat n1)%nat -> (b < Z.to_nat n2)%nat -> (c < Z.to_nat n3)%nat ->
  get3 d (vec n1 (vec n2 (vec n3 x))) a b c = x.
Proof.
  intros Ha Hb Hc. unfold get3.
  rewrite get1_vec, decide_True by done.
  rewrite get1_vec, decide_True by done.
  by rewrite get1_vec, decide_True.
Qed.

Section DealiasGeneric.
Context {D : Type} `{DoubleLaws D}.

(** Every multiplier the search leaves in [ns] is [iNaN] or a value of the
    loop variable. *)
Lemma dealias_search_range (s : HoofSettings D) (st : HoofDealiaser D)
    (i j k : nat) :
  0 <= nymax_of s st ->
  Z.abs (get3 0 (snd (dealias_search s st)) i j k) <= nymax_of s st.
Proof.
  intros HN. unfold dealias_search.
  set (N := nymax_of s st) in *.
  apply (for_Z_inv
           (fun acc : list (list (list D)) * list (list (list Z)) =>
              forall a b c, Z.abs (get3 0 (snd acc) a b c) <= N)).
  - intros a b c. simpl.
    destruct (get3_vec 0 iNaN (nel (vrad (dl_data st)))
                (nazMax (vrad (dl_data st))) (nrMax (vrad (dl_data st)))
                a b c) as [-> | ->]; unfold iNaN; lia.
  - intros n acc Hn Hacc.
    apply for_nat_inv; [exact Hacc|]. intros i' acc1 _ Hacc1.
    apply for_nat_inv; [exact Hacc1|]. intros j' acc2 _ Hacc2.
    apply for_nat_inv; [exact Hacc2|]. intros k' [mns ns] _ Hacc3.
    destruct (negb _); [|exact Hacc3].
    destruct (dltb _ _); [|exact Hacc3].
    intros a b c. simpl.
    destruct (get3_set3_cases 0 n ns i' j' k' a b c) as [-> | [_ ->]].
    + apply (Hacc3 a b c).
    + lia.
Qed.

(** A cell of [dvrads] is either never written or holds the unfolded
    measurement of its own bin. *)
Lemma dealias_unfold_cell (st : HoofDealiaser D) (ns : list (list (list Z)))
    (i j k : nat) :
  isnan (get3 dNaN (dealias_unfold st ns) i j k) = true \/
  get3 dNaN (dealias_unfold st ns) i j k =
    unfolded (get3 dNaN (meas (vrad (dl_data st))) i j k)
             (get1 dNaN (vnys (vrad (dl_data st))) i)
             (get3 0 ns i j k).
Proof.
  unfold dealias_unfold.
  set (m := vrad (dl_data st)).
  set (P := fun dv : list (list (list D)) =>
              forall a b c,
                isnan (get3 dNaN dv a b c) = true \/
                get3 dNaN dv a b c =
                  unfolded (get3 dNaN (meas m) a b c)
                           (get1 dNaN (vnys m) a) (get3 0 ns a b c)).
  cut (P (for_nat (Z.to_nat (nel m))
            (fun i0 =>
               let vny := get1 dNaN (vnys m) i0 in
               for_nat (naz_at m i0)
                 (fun j0 =>
                    for_nat (nr_at m i0)
                      (fun k0 dv =>
                         let mv := get3 dNaN (meas m) i0 j0 k0 in
                         let n := get3 0 ns i0 j0 k0 in
                         if negb (isnan mv || isnan_int n
                                  || isnan (get3 dNaN (dl_Ds st) i0 j0 k0))
                         then set3 dv i0 j0 k0 (unfolded mv vny n) else dv)))
            (vec (nel m) (vec (nazMax m) (vec (nrMax m) dNaN))))).
  { intros HP. apply HP. }
  apply for_nat_inv.
  - intros a b c. left.
    destruct (get3_vec dNaN dNaN (nel m) (nazMax m) (nrMax m) a b c)
      as [-> | ->]; apply isnan_dNaN.
  - intros i' dv1 _ H1. apply for_nat_inv; [exact H1|].
    intros j' dv2 _ H2. apply for_nat_inv; [exact H2|].
    intros k' dv3 _ H3. simpl.
    destruct (negb _); [|exact H3].
    intros a b c.
    destruct (get3_set3_cases dNaN
                (unfolded (get3 dNaN (meas m) i' j' k')
                   (get1 dNaN (vnys m) i') (get3 0 ns i' j' k'))
                dv3 i' j' k' a b c) as [-> | [Heq ->]].
    + apply H3.
    + right. inversion Heq; subst. reflexivity.
Qed.

(** C3.  After [dealias], a bin of [dvrads] that is not NaN equals
    [meas + 2*k*vny] of its elevation for an integer [k] with
    [|k| <= (int)(maxWind/_vnyMin)], provided this bound is not negative. *)
Theorem dealias_adds_bounded_nyquist_multiple (s : HoofSettings D)
    (st : HoofDealiaser D) (i j k : nat) :
  0 <= nymax_of s st ->
  isnan (get3 dNaN (dvrads (dl_data (dealias s st))) i j k) = false ->
  exists n : Z,
    Z.abs n <= nymax_of s st /\
    get3 dNaN (dvrads (dl_data (dealias s st))) i j k =
      dadd (get3 dNaN (meas (vrad (dl_data st))) i j k)
           (dmul (dmul (dlit 2) (dlit n))
                 (get1 dNaN (vnys (vrad (dl_data st))) i)).
Proof.
  intros HN Hdef. simpl in *.
  exists (get3 0 (snd (dealias_search s st)) i j k). split.
  - by apply dealias_search_range.
  - destruct (dealias_unfold_cell st (snd (dealias_search s st)) i j k)
      as [Hnan | Heq].
    + congruence.
    + exact Heq.
Qed.

End DealiasGeneric.

(** * The laws on binary64 *)

Ltac cmp_cases :=
  repeat match goal with
    | H : context [Z.compare ?a ?b] |- _ =>
        destruct (Z.compare_spec a b); simpl in H; try discriminate
    | |- context [Z.compare ?a ?b] =>
        destruct (Z.compare_spec a b); simpl; try lia
    | H : context [Pos.compare_cont Eq ?a ?b] |- _ =>
        change (Pos.compare_cont Eq a b) with (Pos.compare a b) in H;
        destruct (Pos.compare_spec a b); simpl in H; try discriminate
    | |- context [Pos.compare_cont Eq ?a ?b] =>
        change (Pos.compare_cont Eq a b) with (Pos.compare a b);
        destruct (Pos.compare_spec a b); simpl; try lia
    end.

Lemma SFltb_irrefl (x : spec_float) : SFltb x x = false.
Proof.
  unfold SFltb, SFcompare.
  destruct x as [[]|[]| |[] m e]; try reflexivity; cmp_cases; reflexivity.
Qed.

Lemma SFltb_trans (x y z : spec_float) :
  SFltb x y = true -> SFltb y z = true -> SFltb x z = true.
Proof.
  unfold SFltb, SFcompare.
  destruct x as [[]|[]| |[] mx ex], y as [[]|[]| |[] my ey],
           z as [[]|[]| |[] mz ez];
    simpl; intros Hxy Hyz; try discriminate; try reflexivity;
    cmp_cases; subst; try lia; try reflexivity.
Qed.

Lemma SFleb_SFltb_trans (x y z : spec_float) :
  SFleb x y = true -> SFltb y z = true -> SFltb x z = true.
Proof.
  unfold SFleb, SFltb, SFcompare.
  destruct x as [[]|[]| |[] mx ex], y as [[]|[]| |[] my ey],
           z as [[]|[]| |[] mz ez];
    simpl; intros Hxy Hyz; try discriminate; try reflexivity;
    cmp_cases; subst; try lia; try reflexivity.
Qed.

#[export] Instance Binary64Laws : DoubleLaws float.
Proof.
  split.
  - reflexivity.
  - intros x. simpl. rewrite FloatAxioms.ltb_spec. apply SFltb_irrefl.
  - intros x y z. simpl. rewrite !FloatAxioms.ltb_spec. apply SFltb_trans.
  - intros x y z. simpl. rewrite FloatAxioms.leb_spec, !FloatAxioms.ltb_spec. apply SFleb_SFltb_trans.
Qed.

(** * The laws on the exact numbers *)

#[export] Instance ExactLaws : DoubleLaws xdouble.
Proof.
  split.
  - reflexivity.
  - intros [|[]|q]; simpl; try reflexivity.
    destruct (Qlt_le_dec q q) as [Hlt|_]; [|reflexivity].
    exfalso. exact (Qlt_irrefl _ Hlt).
  - intros [|[]|a] [|[]|b] [|[]|c]; simpl; try discriminate; try reflexivity.
    destruct (Qlt_le_dec a b), (Qlt_le_dec b c), (Qlt_le_dec a c);
      try discriminate; try reflexivity; intros; exfalso; lra.
  - intros [|[]|a] [|[]|b] [|[]|c]; simpl; try discriminate; try reflexivity.
    destruct (Qlt_le_dec b a), (Qlt_le_dec b c), (Qlt_le_dec a c);
      try discriminate; try reflexivity; intros; exfalso; lra.
Qed.

(** * Loop nests that visit every bin once *)

Section Sweep.
Context {S X : Type}.
Variables (n1 : nat) (n2 n3 : nat -> nat).
Variable body : nat -> nat -> nat -> S -> S.
Variable obs : S -> nat -> nat -> nat -> X.
Variable upd : nat -> nat -> nat -> X -> X.
Variable Inv : S -> Prop.
Hypothesis body_inv : forall i j k s, Inv s -> Inv (body i j k s).
Hypothesis body_same : forall i j k s,
  Inv s -> (i < n1)%nat -> (j < n2 i)%nat -> (k < n3 i)%nat ->
  obs (body i j k s) i j k = upd i j k (obs s i j k).
Hypothesis body_other : forall i j k s a b c,
  (a, b, c) <> (i, j, k) -> obs (body i j k s) a b c = obs s a b c.

Lemma sweep_row (i j : nat) (s : S) :
  (i < n1)%nat -> (j < n2 i)%nat -> Inv s ->
  Inv (for_nat (n3 i) (body i j) s) /\
  forall a b c,
    obs (for_nat (n3 i) (body i j) s) a b c =
    if decide (a = i /\ b = j /\ (c < n3 i)%nat)
    then upd a b c (obs s a b c) else obs s a b c.
Proof.
  intros Hi Hj Hs.
  cut (forall K, (K <= n3 i)%nat ->
         Inv (for_nat K (body i j) s) /\
         forall a b c,
           obs (for_nat K (body i j) s) a b c =
           if decide (a = i /\ b = j /\ (c < K)%nat)
           then upd a b c (obs s a b c) else obs s a b c).
  { intros HK. apply HK. lia. }
  induction K as [|K IH]; intros HK.
  - split; [exact Hs|]. intros a b c. rewrite for_nat_0.
    case_decide; [exfalso; intuition lia|reflexivity].
  - destruct IH as [IHinv IHobs]; [lia|]. rewrite for_nat_S. split.
    + by apply body_inv.
    + intros a b c. destruct (decide ((a, b, c) = (i, j, K))) as [Heq|Hne].
      * inversion Heq; subst. rewrite body_same by (done || lia).
        rewrite IHobs. repeat case_decide; try reflexivity; exfalso;
          intuition lia.
      * rewrite body_other by done. rewrite IHobs.
        repeat case_decide; try reflexivity; exfalso.
        -- intuition lia.
        -- destruct (decide (c = K)) as [->|]; [|intuition lia].
           apply Hne. intuition congruence.
Qed.

Lemma sweep_plane (i : nat) (s : S) :
  (i < n1)%nat -> Inv s ->
  Inv (for_nat (n2 i) (fun j => for_nat (n3 i) (body i j)) s) /\
  forall a b c,
    obs (for_nat (n2 i) (fun j => for_nat (n3 i) (body i j)) s) a b c =
    if decide (a = i /\ (b < n2 i)%nat /\ (c < n3 i)%nat)
    then upd a b c (obs s a b c) else obs s a b c.
Proof.
  intros Hi Hs.
  cut (forall J, (J <= n2 i)%nat ->
         Inv (for_nat J (fun j => for_nat (n3 i) (body i j)) s) /\
         forall a b c,
           obs (for_nat J (fun j => for_nat (n3 i) (body i j)) s) a b c =
           if decide (a = i /\ (b < J)%nat /\ (c < n3 i)%nat)
           then upd a b c (obs s a b c) else obs s a b c).
  { intros HJ. apply HJ. lia. }
  induction J as [|J IH]; intros HJ.
  - split; [exact Hs|]. intros a b c. rewrite for_nat_0.
    case_decide; [exfalso; intuition lia|reflexivity].
  - destruct IH as [IHinv IHobs]; [lia|]. rewrite for_nat_S.
    destruct (sweep_row i J _ Hi ltac:(lia) IHinv) as [Rinv Robs].
    split; [exact Rinv|].
    intros a b c. rewrite Robs, IHobs.
    repeat case_decide; try reflexivity; exfalso;
      first [intuition lia
            | destruct (decide (b = J)) as [->|]; intuition lia].
Qed.

Lemma sweep_obs (s : S) (a b c : nat) :
  Inv s ->
  Inv (sweep n1 n2 n3 body s) /\
  obs (sweep n1 n2 n3 body s) a b c =
    if decide (visited n1 n2 n3 a b c)
    then upd a b c (obs s a b c) else obs s a b c.
Proof.
  intros Hs. unfold sweep, visited.
  cut (forall I, (I <= n1)%nat ->
         Inv (for_nat I (fun i => for_nat (n2 i)
                                    (fun j => for_nat (n3 i) (body i j))) s) /\
         forall a b c,
           obs (for_nat I (fun i => for_nat (n2 i)
                                      (fun j => for_nat (n3 i) (body i j))) s)
               a b c =
           if decide ((a < I)%nat /\ (b < n2 a)%nat /\ (c < n3 a)%nat)
           then upd a b c (obs s a b c) else obs s a b c).
  { intros HI. destruct (HI n1) as [H1 H2]; [lia|]. split; [exact H1|].
    apply H2. }
  clear a b c. induction I as [|I IH]; intros HI.
  - split; [exact Hs|]. intros a b c. rewrite for_nat_0.
    case_decide; [exfalso; intuition lia|reflexivity].
  - destruct IH as [IHinv IHobs]; [lia|]. rewrite for_nat_S.
    destruct (sweep_plane I _ ltac:(lia) IHinv) as [Rinv Robs].
    split; [exact Rinv|].
    intros a b c. rewrite Robs, IHobs.
    repeat case_decide; try reflexivity; exfalso;
      first [intuition lia
            | destruct (decide (a = I)) as [->|]; intuition lia].
Qed.

End Sweep.

Section SearchBin.
Context {D : Type} `{DoubleLaws D}.

Lemma cube_shaped_vec {A : Type} (m : HoofMeasurement D) (x : A) :
  cube_shaped m (vec (nel m) (vec (nazMax m) (vec (nrMax m) x))).
Proof. intros a b c. apply allocated_vec. Qed.

Lemma cube_shaped_set3 {A : Type} (m : HoofMeasurement D)
    (v : list (list (list A))) (i j k : nat) (x : A) :
  cube_shaped m v -> cube_shaped m (set3 v i j k x).
Proof. intros Hv a b c. rewrite allocated_set3. apply Hv. Qed.

Lemma search_body_inv st n i j k acc :
  search_inv st acc -> search_inv st (search_body st n i j k acc).
Proof.
  intros [H1 H2]. unfold search_body. destruct acc as [mns ns].
  destruct (negb _); [|by split]. destruct (dltb _ _); [|by split].
  split; simpl in *; by apply cube_shaped_set3.
Qed.

Lemma search_body_same st n i j k acc :
  search_inv st acc ->
  search_obs (search_body st n i j k acc) i j k =
  search_upd st n i j k (search_obs acc i j k).
Proof.
  intros [H1 H2]. unfold search_body, search_upd, search_obs, search_step.
  destruct acc as [mns ns]. simpl in *.
  destruct (decide (in_cube _ i j k)) as [Hc|Hc].
  - destruct (negb _); [|done]. destruct (dltb _ _); [|done]. simpl.
    rewrite !get3_set3_same; [done|by apply H2|by apply H1].
  - destruct (negb _); [|done]. destruct (dltb _ _); [|done]. simpl.
    rewrite !set3_unallocated; [done| |].
    + intros Ha. by apply Hc, H2.
    + intros Ha. by apply Hc, H1.
Qed.

Lemma search_body_other st n i j k acc a b c :
  (a, b, c) <> (i, j, k) ->
  search_obs (search_body st n i j k acc) a b c = search_obs acc a b c.
Proof.
  intros Hne. unfold search_body, search_obs. destruct acc as [mns ns].
  destruct (negb _); [|done]. destruct (dltb _ _); [|done]. simpl.
  by rewrite !get3_set3_other.
Qed.

Lemma search_sweeps st (l : list Z) acc a b c :
  search_inv st acc ->
  in_range (vrad (dl_data st)) a b c ->
  search_obs
    (foldl (fun acc n =>
              sweep (Z.to_nat (nel (vrad (dl_data st))))
                    (naz_at (vrad (dl_data st))) (nr_at (vrad (dl_data st)))
                    (search_body st n) acc) acc l) a b c =
  foldl (fun best n => search_upd st n a b c best) (search_obs acc a b c) l.
Proof.
  intros Hinv Hr. revert acc Hinv. induction l as [|n l IH]; intros acc Hinv.
  - reflexivity.
  - simpl.
    destruct (sweep_obs (Z.to_nat (nel (vrad (dl_data st))))
                (naz_at (vrad (dl_data st))) (nr_at (vrad (dl_data st)))
                (search_body st n) search_obs (search_upd st n)
                (search_inv st) (search_body_inv st n)
                (fun i j k s Hs _ _ _ => search_body_same st n i j k s Hs)
                (fun i j k s a b c => search_body_other st n i j k s a b c)
                acc a b c Hinv) as [Hinv' Hobs].
    rewrite IH by exact Hinv'. rewrite decide_True in Hobs by exact Hr.
    by rewrite Hobs.
Qed.

(** On a bin that the loops visit and the cubes hold, the search leaves
    the pair that the visits of this bin alone produce. *)
Lemma dealias_search_bin (s : HoofSettings D) (st : HoofDealiaser D)
    (i j k : nat) :
  in_range (vrad (dl_data st)) i j k ->
  in_cube (vrad (dl_data st)) i j k ->
  (get3 dNaN (fst (dealias_search s st)) i j k,
   get3 0 (snd (dealias_search s st)) i j k) =
  bin_search (get3 dNaN (meas (vrad (dl_data st))) i j k)
             (get1 dNaN (vnys (vrad (dl_data st))) i)
             (get3 dNaN (wModels (dl_data st)) i j k) (nymax_of s st).
Proof.
  intros Hr Hc. unfold dealias_search, for_Z, bin_search.
  set (m := vrad (dl_data st)).
  set (acc0 := (vec (nel m) (vec (nazMax m) (vec (nrMax m) dInf)),
                vec (nel m) (vec (nazMax m) (vec (nrMax m) iNaN)))).
  assert (Hinv : search_inv st acc0).
  { split; apply cube_shaped_vec. }
  pose proof (search_sweeps st
                (seqZ (- nymax_of s st) (nymax_of s st + 1 - - nymax_of s st))
                acc0 i j k Hinv Hr) as Hs.
  unfold search_obs in Hs at 1.
  etransitivity; [exact Hs|].
  assert (Hobs0 : search_obs acc0 i j k = (dInf, iNaN)).
  { unfold search_obs, acc0. simpl. destruct Hc as (Hi & Hj & Hk).
    by rewrite !get3_vec_in. }
  rewrite Hobs0. apply foldl_pointwise. intros best n.
  unfold search_upd. case_decide; [reflexivity|done].
Qed.

End SearchBin.

Section SearchOrder.
Context {D : Type} `{DoubleLaws D}.

Lemma search_step_searched (m vny wm : D) (lo : Z) (len : nat)
    (best : D * Z) :
  isnan wm = false -> isnan m = false ->
  searched (fold_distance m vny wm) lo (Z.of_nat len) best ->
  searched (fold_distance m vny wm) lo (Z.of_nat (S len))
    (search_step m vny wm (lo + Z.of_nat len) best).
Proof.
  intros Hwm Hm [Hmin Hsel]. unfold search_step. rewrite Hwm, Hm. simpl.
  set (d := fold_distance m vny wm) in *. set (n := lo + Z.of_nat len).
  destruct (dltb (d n) (fst best)) eqn:Hlt.
  - split; simpl.
    + intros j Hj. destruct (decide (j = n)) as [->|Hjn].
      * apply dltb_irrefl.
      * destruct (dltb (d j) (d n)) eqn:Hjlt; [|reflexivity].
        rewrite <- (Hmin j) by lia. symmetry.
        exact (dltb_trans _ _ _ Hjlt Hlt).
    + right. split; [lia|]. split; [reflexivity|]. split.
      * destruct Hsel as [[Heq _] | (_ & _ & Hfin & _)].
        -- by rewrite <- Heq.
        -- exact (dltb_trans _ _ _ Hlt Hfin).
      * intros j Hj. destruct (dleb (d j) (d n)) eqn:Hjle; [|reflexivity].
        rewrite <- (Hmin j) by lia. symmetry.
        exact (dleb_dltb_trans _ _ _ Hjle Hlt).
  - split.
    + intros j Hj. destruct (decide (j = n)) as [->|Hjn]; [exact Hlt|].
      apply Hmin. lia.
    + destruct Hsel as [Hnone | (Hk & Heq & Hfin & Hfirst)]; [by left|].
      right. repeat split; try done; lia.
Qed.

Lemma bin_search_searched (m vny wm : D) (N : Z) :
  isnan wm = false -> isnan m = false ->
  searched (fold_distance m vny wm) (- N) (N + 1 - - N)
    (bin_search m vny wm N).
Proof.
  intros Hwm Hm. unfold bin_search.
  destruct (Z_lt_le_dec (N + 1 - - N) 0) as [Hneg|Hpos].
  - rewrite seqZ_nil by lia. simpl. split; [intros j Hj; lia|by left].
  - rewrite <- (Z2Nat.id (N + 1 - - N)) by exact Hpos.
    induction (Z.to_nat (N + 1 - - N)) as [|len IH].
    + simpl. split; [intros j Hj; lia|by left].
    + rewrite seqZ_S, foldl_snoc. by apply search_step_searched.
Qed.

(** C4, as the code has it.  On a bin that is visited, with model and
    measurement defined and at least one candidate at a finite distance,
    the multiplier left in [ns] lies in [-N, N], no candidate of [-N, N]
    is strictly nearer to the model, and every candidate below it is
    strictly farther: among equal distances the least multiplier wins. *)
Theorem dealias_picks_least_nearest_multiplier (s : HoofSettings D)
    (st : HoofDealiaser D) (i j k : nat) (n0 : Z) :
  let m := get3 dNaN (meas (vrad (dl_data st))) i j k in
  let vny := get1 dNaN (vnys (vrad (dl_data st))) i in
  let wm := get3 dNaN (wModels (dl_data st)) i j k in
  let N := nymax_of s st in
  let chosen := get3 0 (snd (dealias_search s st)) i j k in
  in_range (vrad (dl_data st)) i j k ->
  in_cube (vrad (dl_data st)) i j k ->
  isnan wm = false -> isnan m = false ->
  - N <= n0 <= N -> dltb (fold_distance m vny wm n0) dInf = true ->
  - N <= chosen <= N /\
  (forall n, - N <= n <= N ->
     dltb (fold_distance m vny wm n) (fold_distance m vny wm chosen) = false) /\
  (forall n, - N <= n < chosen ->
     dleb (fold_distance m vny wm n) (fold_distance m vny wm chosen) = false).
Proof.
  intros m vny wm N chosen Hr Hc Hwm Hm Hn0 Hfin0.
  pose proof (dealias_search_bin s st i j k Hr Hc) as Hbin.
  pose proof (bin_search_searched m vny wm N Hwm Hm) as [Hmin Hsel].
  fold m vny wm N in Hbin. rewrite <- Hbin in Hmin, Hsel. simpl in Hmin, Hsel.
  fold chosen in Hsel.
  destruct Hsel as [[Hinf _] | (Hk & Heq & _ & Hfirst)].
  - exfalso. specialize (Hmin n0 ltac:(lia)). rewrite Hinf in Hmin.
    congruence.
  - split; [lia|]. split.
    + intros n Hn. rewrite <- Heq. apply Hmin. lia.
    + exact Hfirst.
Qed.

End SearchOrder.

Section UnfoldBin.
Context {D : Type} `{DoubleLaws D}.

(** On a bin that the loops visit and the cube holds, [dvrads] is the
    unfolded measurement unless the measurement or D is NaN. *)
Lemma dealias_unfold_bin (st : HoofDealiaser D) (ns : list (list (list Z)))
    (i j k : nat) :
  in_range (vrad (dl_data st)) i j k ->
  in_cube (vrad (dl_data st)) i j k ->
  get3 dNaN (dealias_unfold st ns) i j k =
  if negb (isnan (get3 dNaN (meas (vrad (dl_data st))) i j k)
           || isnan_int (get3 0 ns i j k)
           || isnan (get3 dNaN (dl_Ds st) i j k))
  then unfolded (get3 dNaN (meas (vrad (dl_data st))) i j k)
                (get1 dNaN (vnys (vrad (dl_data st))) i) (get3 0 ns i j k)
  else dNaN.
Proof.
  intros Hr Hc. set (m := vrad (dl_data st)).
  set (dv0 := vec (nel m) (vec (nazMax m) (vec (nrMax m) (dNaN : D)))).
  destruct (sweep_obs (Z.to_nat (nel m)) (naz_at m) (nr_at m)
              (unfold_body st ns) (fun dv a b c => get3 dNaN dv a b c)
              (unfold_upd st ns) (cube_shaped m)) with (s := dv0)
    (a := i) (b := j) (c := k) as [_ Hobs].
  - intros a b c dv Hdv. unfold unfold_body.
    destruct (negb _); [|done]. by apply cube_shaped_set3.
  - intros a b c dv Hdv _ _ _. unfold unfold_body, unfold_upd. fold m.
    destruct (decide (in_cube m a b c)) as [Hin|Hout].
    + destruct (negb _); [|done]. apply get3_set3_same. by apply Hdv.
    + destruct (negb _); [|done]. rewrite set3_unallocated; [done|].
      intros Ha. by apply Hout, Hdv.
  - intros a b c dv a' b' c' Hne. unfold unfold_body.
    destruct (negb _); [|done]. by apply get3_set3_other.
  - apply cube_shaped_vec.
  - rewrite decide_True in Hobs by exact Hr.
    unfold dealias_unfold. fold m dv0.
    etransitivity; [exact Hobs|].
    unfold unfold_upd. fold m. rewrite decide_True by exact Hc.
    destruct (negb _); [done|].
    destruct Hc as (Hi & Hj & Hk). unfold dv0.
    by rewrite get3_vec_in.
Qed.

Lemma bin_search_no_model (m vny wm : D) (N : Z) :
  isnan wm = true -> bin_search m vny wm N = (dInf, iNaN).
Proof.
  intros Hwm. unfold bin_search.
  induction (seqZ (- N) (N + 1 - - N)) as [|n l IH] using rev_ind.
  - reflexivity.
  - rewrite foldl_snoc, IH. unfold search_step. by rewrite Hwm.
Qed.

(** The behaviour behind C1: a visited bin without model, but with
    measurement and D defined, keeps the multiplier [iNaN = 0] and is
    written to [dvrads] as [meas + 2*0*vny]. *)
Lemma dealias_unmodelled_bin (s : HoofSettings D) (st : HoofDealiaser D)
    (i j k : nat) :
  in_range (vrad (dl_data st)) i j k ->
  in_cube (vrad (dl_data st)) i j k ->
  isnan (get3 dNaN (wModels (dl_data st)) i j k) = true ->
  isnan (get3 dNaN (meas (vrad (dl_data st))) i j k) = false ->
  isnan (get3 dNaN (dl_Ds st) i j k) = false ->
  get3 dNaN (dvrads (dl_data (dealias s st))) i j k =
  dadd (get3 dNaN (meas (vrad (dl_data st))) i j k)
       (dmul (dmul (dlit 2) (dlit 0))
             (get1 dNaN (vnys (vrad (dl_data st))) i)).
Proof.
  intros Hr Hc Hwm Hm Hd. simpl.
  rewrite dealias_unfold_bin by done.
  pose proof (dealias_search_bin s st i j k Hr Hc) as Hbin.
  rewrite bin_search_no_model in Hbin by exact Hwm.
  injection Hbin as _ Hns. rewrite Hns, Hm, Hd. reflexivity.
Qed.

End UnfoldBin.

(** C1, on the code.  In scenario S3 no sector reaches [minGoodPoints], so
    no bin gets a model, whatever the fit would return; [dealias] still
    writes every bin: [dvrads] equals the measurements 1.0 and holds no
    NaN. *)
Theorem dealias_S3_keeps_measurements
    (multifit : list (float * float * float) -> float * float) :
  (st ← determineHeightSectors (D:=float) S3_settings S3_dealiaser;
   let st := calculateWindModels multifit S3_settings st in
   Some (isallnan3 (wModels (dl_data st)),
         dvrads (dl_data (dealias S3_settings st)),
         errors (dl_worker (dealias S3_settings st)))) =
  Some (true,
        [[[1%float; 1%float]; [1%float; 1%float];
          [1%float; 1%float]; [1%float; 1%float]]],
        []).
Proof. vm_compute. reflexivity. Qed.

(** C3, applied: in scenario S3 the bound is 4 and the first bin of
    [dvrads] is defined, so it is the measurement plus an even multiple of
    the Nyquist velocity. *)
Lemma dealias_adds_bounded_nyquist_multiple_witness :
  let s := S3_settings (D:=float) in
  let st := S3_dealiaser (D:=float) in
  0 <= nymax_of s st /\
  isnan (get3 dNaN (dvrads (dl_data (dealias s st))) 0 0 0) = false /\
  exists n : Z,
    Z.abs n <= nymax_of s st /\
    get3 dNaN (dvrads (dl_data (dealias s st))) 0 0 0 =
      dadd (get3 dNaN (meas (vrad (dl_data st))) 0 0 0)
           (dmul (dmul (dlit 2) (dlit n))
                 (get1 dNaN (vnys (vrad (dl_data st))) 0)).
Proof.
  intros s st.
  split; [vm_compute; discriminate|].
  split; [vm_compute; reflexivity|].
  apply (dealias_adds_bounded_nyquist_multiple s st 0 0 0).
  - vm_compute. discriminate.
  - vm_compute. reflexivity.
Defined.

(** C4 as stated fails: on the bin with measurement 0 and model -30 the
    multipliers -2 and -1 are at the same distance 10 from the model, no
    multiplier of [-4, 4] is nearer, and the search keeps -2, the one of
    the larger absolute value. *)
Lemma dealias_tie_keeps_larger_multiplier :
  let k := get3 0 (snd (dealias_search (D:=float) tie_settings
                          tie_dealiaser)) 0 0 0 in
  let dist := fold_distance (D:=float) (dlit 0) (dlit 10) (dlit (-30)) in
  nymax_of (D:=float) tie_settings tie_dealiaser = 4 /\
  k = -2 /\
  dist (-1) = dist k /\
  forallb (fun n => negb (dltb (dist n) (dist k))) (seqZ (-4) 9) = true /\
  Z.abs (-1) < Z.abs k.
Proof. vm_compute. repeat split; reflexivity. Qed.

(** C4 as amended, applied to the same bin. *)
Lemma dealias_picks_least_nearest_multiplier_witness :
  let s := tie_settings (D:=float) in
  let st := tie_dealiaser (D:=float) in
  let m := get3 dNaN (meas (vrad (dl_data st))) 0 0 0 in
  let vny := get1 dNaN (vnys (vrad (dl_data st))) 0 in
  let wm := get3 dNaN (wModels (dl_data st)) 0 0 0 in
  let N := nymax_of s st in
  let chosen := get3 0 (snd (dealias_search s st)) 0 0 0 in
  - N <= chosen <= N /\
  (forall n, - N <= n <= N ->
     dltb (fold_distance m vny wm n) (fold_distance m vny wm chosen) = false) /\
  (forall n, - N <= n < chosen ->
     dleb (fold_distance m vny wm n) (fold_distance m vny wm chosen) = false).
Proof.
  intros s st.
  apply (dealias_picks_least_nearest_multiplier s st 0 0 0 0).
  - vm_compute. repeat split; lia.
  - vm_compute. repeat split; lia.
  - vm_compute. reflexivity.
  - vm_compute. reflexivity.
  - vm_compute. split; discriminate.
  - vm_compute. reflexivity.
Defined.

Section CheckData.
Context {D : Type} `{Double D}.

Lemma isallnan3_nil : isallnan3 ([] : list (list (list D))) = true.
Proof. reflexivity. Qed.

Lemma error_nonempty (err : string) (w : HoofWorker) :
  errors (error err w) <> [].
Proof. simpl. intros Heq. by apply app_nil in Heq as [_ ?]. Qed.

(** C9.  On a fresh superober, [checkData] leaves an error exactly when
    both moments are empty or both are all NaN; when the element counts
    agree with the cubes and exactly one moment is all NaN, it leaves one
    warning and no error.  On a fresh dealiaser, [checkData] leaves an
    error exactly when VRAD has no dataset or is all NaN. *)
Theorem checkData_classifies (d : HoofData D) :
  let so := so_checkData (so_new d) in
  let dl := dl_checkData (dl_new d) in
  (errors (so_worker so) <> [] <->
     (nel (dbz d) = 0 /\ nel (vrad d) = 0) \/
     (isallnan3 (meas (dbz d)) = true /\ isallnan3 (meas (vrad d)) = true)) /\
  (nel (dbz d) = Z.of_nat (length (meas (dbz d))) ->
   nel (vrad d) = Z.of_nat (length (meas (vrad d))) ->
   isallnan3 (meas (dbz d)) <> isallnan3 (meas (vrad d)) ->
   errors (so_worker so) = [] /\ length (warnings (so_worker so)) = 1%nat) /\
  (errors (dl_worker dl) <> [] <->
     datasets (vrad d) = [] \/ isallnan3 (meas (vrad d)) = true).
Proof.
  intros so dl. subst so dl. unfold so_checkData, dl_checkData. simpl.
  split; [|split].
  - destruct (Z.eqb_spec (nel (dbz d)) 0) as [Hd|Hd];
      destruct (Z.eqb_spec (nel (vrad d)) 0) as [Hv|Hv]; simpl.
    + split; [intros _; by left | intros _; discriminate].
    + destruct (isallnan3 (meas (dbz d))), (isallnan3 (meas (vrad d)));
        simpl; split; try (intros [[? ?]|[? ?]]); try done;
        intros _; by right.
    + destruct (isallnan3 (meas (dbz d))), (isallnan3 (meas (vrad d)));
        simpl; split; try (intros [[? ?]|[? ?]]); try done;
        intros _; by right.
    + destruct (isallnan3 (meas (dbz d))), (isallnan3 (meas (vrad d)));
        simpl; split; try (intros [[? ?]|[? ?]]); try done;
        intros _; by right.
  - intros Hd Hv Hone.
    destruct ((nel (dbz d) =? 0) && (nel (vrad d) =? 0)) eqn:Hboth.
    + exfalso. apply andb_true_iff in Hboth as [Hd0 Hv0].
      apply Z.eqb_eq in Hd0, Hv0.
      destruct (meas (dbz d)); [|simpl in Hd; lia].
      destruct (meas (vrad d)); [|simpl in Hv; lia].
      by apply Hone.
    + destruct (isallnan3 (meas (dbz d))), (isallnan3 (meas (vrad d)));
        simpl; done.
  - destruct (datasets (vrad d)) as [|x l]; simpl;
      destruct (isallnan3 (meas (vrad d))); simpl; split; intros Hx;
      try done; try (by left); try (by right).
    destruct Hx as [?|?]; done.
Qed.

End CheckData.

(** C9, applied: DBZ all NaN and VRAD with data. *)
Lemma checkData_classifies_witness :
  let d := one_sided_volume (D:=float) in
  nel (dbz d) = Z.of_nat (length (meas (dbz d))) /\
  nel (vrad d) = Z.of_nat (length (meas (vrad d))) /\
  isallnan3 (meas (dbz d)) <> isallnan3 (meas (vrad d)) /\
  errors (so_worker (so_checkData (so_new d))) = [] /\
  warnings (so_worker (so_checkData (so_new d))) =
    ["Superobing - all DBZ data is NaN"%string].
Proof.
  intros d.
  split; [reflexivity|]. split; [reflexivity|].
  split; [vm_compute; discriminate|].
  split.
  - apply (checkData_classifies d); [reflexivity|reflexivity|].
    vm_compute. discriminate.
  - vm_compute. reflexivity.
Defined.

Section PrepareMetadata.
Context {D : Type} `{Double D}.

Lemma length_vec {A : Type} (n : Z) (x : A) : length (vec n x) = Z.to_nat n.
Proof. apply length_replicate. Qed.

Lemma prepare_counts (n : nat) (f g : nat -> Z) (va vb : list Z) (e : nat) :
  length va = n -> length vb = n -> (e < n)%nat ->
  let r := for_nat n (fun i (acc : list Z * list Z) =>
                        (<[i := f i]> (fst acc), <[i := g i]> (snd acc)))
                   (va, vb) in
  get1 0 (fst r) e = f e /\ get1 0 (snd r) e = g e.
Proof.
  intros Ha Hb He r. subst r.
  cut (forall I, (I <= n)%nat ->
         let r := for_nat I (fun i (acc : list Z * list Z) =>
                               (<[i := f i]> (fst acc), <[i := g i]> (snd acc)))
                          (va, vb) in
         length (fst r) = n /\ length (snd r) = n /\
         forall e, (e < I)%nat ->
           fst r !! e = Some (f e) /\ snd r !! e = Some (g e)).
  { intros HI. destruct (HI n ltac:(lia)) as (_ & _ & Hl).
    destruct (Hl e He) as [H1 H2]. unfold get1. by rewrite H1, H2. }
  induction I as [|I IH]; intros HI; cbv zeta.
  - rewrite for_nat_0. simpl. repeat split; try done; lia.
  - destruct IH as (L1 & L2 & Hl); [lia|]. rewrite for_nat_S. simpl.
    rewrite !length_insert. split; [done|]. split; [done|].
    intros e' He'. destruct (decide (e' = I)) as [->|Hne].
    + rewrite !list_lookup_insert_eq by lia. done.
    + rewrite !list_lookup_insert_ne by done. apply Hl. lia.
Qed.

Lemma prepare_scales {A : Type} (n : nat) (f g : nat -> D)
    (body : nat -> A * list D * list D -> A * list D * list D)
    (a0 : A) (vc vd : list D) (e : nat) :
  (forall i acc, snd (fst (body i acc)) = <[i := f i]> (snd (fst acc)) /\
                 snd (body i acc) = <[i := g i]> (snd acc)) ->
  length vc = n -> length vd = n -> (e < n)%nat ->
  get1 dNaN (snd (fst (for_nat n body (a0, vc, vd)))) e = f e /\
  get1 dNaN (snd (for_nat n body (a0, vc, vd))) e = g e.
Proof.
  intros Hbody Hc Hd He.
  cut (forall I, (I <= n)%nat ->
         length (snd (fst (for_nat I body (a0, vc, vd)))) = n /\
         length (snd (for_nat I body (a0, vc, vd))) = n /\
         forall e, (e < I)%nat ->
           snd (fst (for_nat I body (a0, vc, vd))) !! e = Some (f e) /\
           snd (for_nat I body (a0, vc, vd)) !! e = Some (g e)).
  { intros HI. destruct (HI n ltac:(lia)) as (_ & _ & Hl).
    destruct (Hl e He) as [H1 H2]. unfold get1. by rewrite H1, H2. }
  induction I as [|I IH]; intros HI.
  - rewrite for_nat_0. simpl. repeat split; try done; lia.
  - rewrite for_nat_S. destruct (Hbody I (for_nat I body (a0, vc, vd)))
      as [-> ->].
    destruct IH as (L1 & L2 & Hl); [lia|].
    rewrite !length_insert. split; [done|]. split; [done|].
    intros e' He'. destruct (decide (e' = I)) as [->|Hne].
    + rewrite !list_lookup_insert_eq by lia. done.
    + rewrite !list_lookup_insert_ne by done. apply Hl. lia.
Qed.

Lemma prepare_moment_dims (binF rayF : Z) (m sm : HoofMeasurement D)
    (e : nat) :
  0 < binF -> 0 < rayF -> (e < Z.to_nat (nel m))%nat ->
  0 <= get1 0 (naz m) e -> 0 <= get1 0 (nr m) e ->
  superobed_dims binF rayF m (prepare_moment binF rayF m sm) e.
Proof.
  intros HbinF HrayF He Hnaz Hnr. unfold prepare_moment, superobed_dims.
  assert (Hn : (0 <? nel m) = true) by (apply Z.ltb_lt; lia).
  rewrite Hn.
  pose proof (prepare_counts (Z.to_nat (nel m))
                (fun i => Z.quot (get1 0 (nr m) i) binF)
                (fun i => Z.quot (get1 0 (naz m) i) rayF)
                (vec (nel m) iNaN) (vec (nel m) iNaN) e
                (length_vec _ _) (length_vec _ _) He) as Hcounts.
  cbv zeta in Hcounts.
  destruct (for_nat (Z.to_nat (nel m)) _ (vec (nel m) iNaN, vec (nel m) iNaN))
    as [nr1 naz1] eqn:Hloop1.
  simpl in Hcounts. destruct Hcounts as [Hnr1 Hnaz1].
  match goal with
  | |- context [for_nat (Z.to_nat (nel m)) ?body
                  (?a0, vec (nel m) dNaN, vec (nel m) dNaN)] =>
      destruct (prepare_scales (Z.to_nat (nel m))
                  (fun i => dmul (dlit binF) (get1 dNaN (rscales m) i))
                  (fun i => get1 dNaN (rstarts m) i)
                  body a0 (vec (nel m) dNaN) (vec (nel m) dNaN) e)
        as [Hrsc Hrst];
      [ intros i [[[az rg] rsc] rst]; split; reflexivity
      | apply length_vec | apply length_vec | exact He | ];
      destruct (for_nat (Z.to_nat (nel m)) body
                  (a0, vec (nel m) dNaN, vec (nel m) dNaN))
        as [[[az rg] rsc] rst] eqn:Hloop2
  end.
  simpl in Hrsc, Hrst |- *.
  rewrite Hnaz1, Hnr1, Hrsc, Hrst.
  rewrite !Z.quot_div_nonneg by lia. done.
Qed.

(** C5.  After [prepareMetadata], at every elevation of DBZ and of VRAD
    the superobed moment has [naz' = naz / rayFactor] and
    [nr' = nr / binFactor] (floor divisions), [rscale' = binFactor *
    rscale] and [rstart' = rstart]; the factors are positive and the
    source counts not negative. *)
Theorem prepareMetadata_dimensions (s : HoofSettings D)
    (st : HoofSuperober D) (e : nat) :
  let d := so_data st in
  let d' := so_data (prepareMetadata s st) in
  0 < rangeBinFactor s -> 0 < rayAngleFactor s ->
  ((e < Z.to_nat (nel (dbz d)))%nat ->
   0 <= get1 0 (naz (dbz d)) e -> 0 <= get1 0 (nr (dbz d)) e ->
   superobed_dims (rangeBinFactor s) (rayAngleFactor s) (dbz d) (sdbz d') e) /\
  ((e < Z.to_nat (nel (vrad d)))%nat ->
   0 <= get1 0 (naz (vrad d)) e -> 0 <= get1 0 (nr (vrad d)) e ->
   superobed_dims (rangeBinFactor s) (rayAngleFactor s) (vrad d) (svrad d') e).
Proof.
  intros d d' HbinF HrayF. split; intros He Hnaz Hnr; simpl;
    by apply prepare_moment_dims.
Qed.

End PrepareMetadata.

(** C5, applied to S4: 16 rays and 20 gates become 5 rays and 5 gates. *)
Lemma prepareMetadata_dimensions_witness :
  let s := S4_settings (D:=float) in
  let st := S4_superober (D:=float) in
  0 < rangeBinFactor s /\ 0 < rayAngleFactor s /\
  (0 < Z.to_nat (nel (dbz (so_data st))))%nat /\
  0 <= get1 0 (naz (dbz (so_data st))) 0 /\
  0 <= get1 0 (nr (dbz (so_data st))) 0 /\
  superobed_dims 4 3 (dbz (so_data st))
    (sdbz (so_data (prepareMetadata s st))) 0 /\
  naz (sdbz (so_data (prepareMetadata s st))) = [5] /\
  nr (sdbz (so_data (prepareMetadata s st))) = [5].
Proof.
  intros s st.
  split; [reflexivity|]. split; [reflexivity|].
  split; [vm_compute; lia|].
  split; [vm_compute; discriminate|]. split; [vm_compute; discriminate|].
  split.
  - apply (prepareMetadata_dimensions s st 0%nat);
      [reflexivity|reflexivity|vm_compute; lia
      |vm_compute; discriminate|vm_compute; discriminate].
  - vm_compute. split; reflexivity.
Defined.

(** * The range bin borders *)

(** The first [n] terms [j, j + step, ...]. *)
Lemma stride_loop_terms (n : nat) :
  forall (fuel : nat) (j hi step : Z) (v : list Z),
    0 < step -> (n <= fuel)%nat ->
    (n = O -> hi <= j) ->
    (n <> O -> j + step * (Z.of_nat n - 1) < hi <= j + step * Z.of_nat n) ->
    stride_loop fuel j hi step v =
    Some (v ++ ((fun i : nat => j + step * Z.of_nat i) <$> seq 0 n)).
Proof.
  induction n as [|n IH]; intros fuel j hi step v Hstep Hfuel H0 Hn.
  - specialize (H0 eq_refl). simpl. rewrite app_nil_r.
    destruct fuel; simpl; rewrite (proj2 (Z.ltb_ge j hi)) by lia; done.
  - specialize (Hn ltac:(lia)).
    destruct fuel as [|fuel]; [lia|]. simpl.
    rewrite (proj2 (Z.ltb_lt j hi)) by nia.
    rewrite (IH fuel (j + step) hi step (v ++ [j]));
      [|lia|lia|intros ->; lia|intros Hne; nia].
    rewrite <- app_assoc. do 2 f_equal. simpl. f_equal; [lia|].
    rewrite <- fmap_S_seq, <- list_fmap_compose.
    apply list_fmap_ext. intros i x _. simpl. lia.
Qed.

Lemma stride_loop_multiples (n fuel : nat) (hi step : Z) :
  0 < step -> (n <= fuel)%nat ->
  (n = O -> hi <= 0) ->
  (n <> O -> step * (Z.of_nat n - 1) < hi <= step * Z.of_nat n) ->
  stride_loop fuel 0 hi step [] =
  Some ((fun i : nat => step * Z.of_nat i) <$> seq 0 n).
Proof.
  intros Hstep Hfuel H0 Hn.
  rewrite (stride_loop_terms n) by (done || lia).
  rewrite app_nil_l. reflexivity.
Qed.

Lemma last_multiples (step : Z) (n : nat) :
  last ((fun i : nat => step * Z.of_nat i) <$> seq 0 (S n)) =
  Some (step * Z.of_nat n).
Proof. rewrite seq_S, fmap_app. simpl. apply last_snoc. Qed.

Lemma range_borders_exact (nr binF : Z) :
  0 <= nr -> 0 < binF ->
  range_borders nr binF =
  Some ((fun i : nat => binF * Z.of_nat i) <$> seq 0 (S (Z.to_nat (nr / binF)))).
Proof.
  intros Hnr HbinF. unfold range_borders.
  pose proof (Z.div_mod nr binF ltac:(lia)) as Hdm.
  pose proof (Z.mod_pos_bound nr binF HbinF) as Hr.
  pose proof (Z.div_pos nr binF Hnr HbinF) as Hq.
  set (q := nr / binF) in *. set (r := nr mod binF) in *.
  destruct (decide (r = 0)) as [Hr0|Hr0].
  - rewrite (stride_loop_multiples (S (Z.to_nat q))); try lia; try nia.
    cbn [mbind option_bind]. unfold pop_above.
    rewrite last_multiples. rewrite (proj2 (Z.ltb_ge _ _)) by nia. done.
  - rewrite (stride_loop_multiples (S (S (Z.to_nat q)))); try lia; try nia.
    cbn [mbind option_bind]. unfold pop_above.
    rewrite last_multiples. rewrite (proj2 (Z.ltb_lt _ _)) by nia.
    rewrite (seq_S (S (Z.to_nat q))), fmap_app.
    cbn [fmap list_fmap]. rewrite removelast_last. done.
Qed.

(** C6, as the code has it.  For a gate count [nr >= 0] and a positive
    [binFactor], the range borders are the multiples [0, binFactor, ...,
    binFactor * (nr / binFactor)]: there are [nr / binFactor + 1] of them
    and the last is [binFactor * (nr / binFactor)], which is [nr] exactly
    when [binFactor] divides [nr]. *)
Theorem range_borders_multiples (nr binF : Z) :
  0 <= nr -> 0 < binF ->
  exists rb,
    range_borders nr binF = Some rb /\
    (forall i : nat, Z.of_nat i <= nr / binF ->
       rb !! i = Some (binF * Z.of_nat i)) /\
    Z.of_nat (length rb) = nr / binF + 1 /\
    last rb = Some (binF * (nr / binF)) /\
    (last rb = Some nr <-> nr mod binF = 0).
Proof.
  intros Hnr HbinF. eexists. split; [by apply range_borders_exact|].
  pose proof (Z.div_pos nr binF Hnr HbinF) as Hq.
  split; [|split; [|split]].
  - intros i Hi. rewrite list_lookup_fmap, lookup_seq_lt by lia. done.
  - rewrite length_fmap, length_seq. lia.
  - rewrite last_multiples. f_equal. lia.
  - rewrite last_multiples, Z2Nat.id by lia.
    pose proof (Z.div_mod nr binF ltac:(lia)) as Hdm.
    split.
    + intros [= Heq]. lia.
    + intros Hmod. f_equal. lia.
Qed.

(** C6 as stated fails: with 22 gates and [binFactor = 4] the last border
    is 20, not the gate count. *)
Lemma range_borders_last_is_not_gate_count :
  range_borders 22 4 = Some [0; 4; 8; 12; 16; 20] /\
  Z.of_nat (length [0; 4; 8; 12; 16; 20]) = 22 / 4 + 1 /\
  last [0; 4; 8; 12; 16; 20] <> Some 22.
Proof. vm_compute. repeat split; discriminate. Qed.

(** C6 as amended, applied to S4 and to the input above. *)
Lemma range_borders_multiples_witness :
  0 <= 22 /\ 0 < 4 /\
  exists rb,
    range_borders 22 4 = Some rb /\
    (forall i : nat, Z.of_nat i <= 22 / 4 ->
       rb !! i = Some (4 * Z.of_nat i)) /\
    Z.of_nat (length rb) = 22 / 4 + 1 /\
    last rb = Some (4 * (22 / 4)) /\
    (last rb = Some 22 <-> 22 mod 4 = 0).
Proof.
  split; [lia|]. split; [lia|].
  apply (range_borders_multiples 22 4); lia.
Defined.

(** C2, on the code.  In scenario S6 the sums run over the gate index
    [m = 0, 1, 2] of the 9 good bins: [s = 9], [s2 = 15], average 1.0 and
    standard deviation 0.816, so the cell passes the gate of 1.0 and is
    written with the value 1.0 and quality 1.0.  The sums over the
    measurements give average 2.0 and standard deviation 2.83, for which
    the same gates leave the cell NaN. *)
Theorem superob_S6_averages_gate_indices :
  let s := S6_settings (D:=float) in
  let st := prepareMetadata s S6_superober in
  let rolled := roll 1 1 3 3 (S6_cube (D:=float)) in
  (r ← superob_vrad s st;
   Some (so_rangeBorders (fst (fst r)), so_startRayBorders (fst (fst r)),
         so_endRayBorders (fst (fst r)), snd (fst r), snd r)) =
    Some ([[0; 3]], [[[0]]], [[[3]]], [[[1%float]]], [[[1%float]]]) /\
  vrad_sums rolled 0 0 3 0 3 = (9, 9%float, 15%float) /\
  vrad_sums_of_values rolled 0 0 3 0 3 = (9, 18%float, 108%float) /\
  vrad_cell s rolled 0 0 3 0 3 = Some 1%float /\
  vrad_cell_of_values s rolled 0 0 3 0 3 = None.
Proof. vm_compute. repeat split; reflexivity. Qed.

(** * Height sectors, on the exact numbers *)

Lemma xtrunc_nonneg (q : Q) : (0 <= q)%Q -> xtrunc (XFin q) = Qfloor q.
Proof.
  intros Hq. simpl. destruct (Qlt_le_dec q 0) as [Hlt|_]; [|reflexivity].
  exfalso. lra.
Qed.

Lemma Qfloor_nonneg (q : Q) : (0 <= q)%Q -> 0 <= Qfloor q.
Proof. intros Hq. apply (Qfloor_resp_le 0 q Hq). Qed.

Lemma Qdiv_le_compat (a b d : Q) :
  (0 < d)%Q -> (a <= b)%Q -> (a / d <= b / d)%Q.
Proof.
  intros Hd Hab. apply Qle_shift_div_r; [exact Hd|].
  assert (Heq : (b / d * d == b)%Q) by (field; lra).
  rewrite Heq. exact Hab.
Qed.

Lemma Qdiv_nonneg (a d : Q) : (0 < d)%Q -> (0 <= a)%Q -> (0 <= a / d)%Q.
Proof. intros Hd Ha. apply Qle_shift_div_l; [exact Hd|]. lra. Qed.

Lemma minmax_finish_not_inf (acc : xdouble * xdouble) :
  isinf (snd (minmax_finish acc)) = false.
Proof. destruct acc as [mn [|[]|q]]; reflexivity. Qed.

(** The ceiling of the sectors is a finite number when [zMax] is. *)
Lemma sector_ceiling_finite (s : HoofSettings xdouble) (d : HoofData xdouble) :
  is_finite (zMax s) = true -> exists c, sector_ceiling s d = XFin c.
Proof.
  intros HzMax. unfold sector_ceiling, nanminmax3.
  pose proof (minmax_finish_not_inf
                (foldl (foldl (foldl minmax_step)) (dInf, dopp dInf)
                   (zs (vrad d)))) as Hinf.
  destruct (snd (minmax_finish _)) as [|b|c]; simpl in *; try discriminate.
  - destruct (zMax s) as [|b|c]; try discriminate. by exists c.
  - destruct (zMax s) as [|b|c']; try discriminate.
    destruct (Qlt_le_dec c c'); eauto.
Qed.

(** The index of an eligible bin is an index of the sectors. *)
Lemma sector_index_bound (s : HoofSettings xdouble) (d : HoofData xdouble)
    (z m dq : xdouble) :
  dltb (dlit 0) (zSectorSize s) = true ->
  is_finite (height d) = true -> is_finite (zMax s) = true ->
  (isnan z = false -> dleb (height d) z = true) ->
  eligible z m dq (sector_ceiling s d) = true ->
  0 <= sector_index s d z < sector_count s d.
Proof.
  intros Hdz Hh HzMax Hz Hel.
  destruct (sector_ceiling_finite s d HzMax) as [c Hc].
  unfold sector_index, sector_count. rewrite Hc in *.
  unfold eligible in Hel. apply andb_true_iff in Hel as [Hnan Hlt].
  apply negb_true_iff, orb_false_iff in Hnan as [Hnan _].
  apply orb_false_iff in Hnan as [Hznan _].
  specialize (Hz Hznan).
  destruct (height d) as [|b|h]; try discriminate.
  destruct z as [|[]|q]; try discriminate.
  simpl in Hz, Hlt.
  destruct (Qlt_le_dec q h) as [|Hhq]; [discriminate|].
  destruct (Qlt_le_dec q c) as [Hqc|]; [|discriminate].
  destruct (zSectorSize s) as [|[]|dz]; try discriminate.
  - (* an infinite sector size: every quotient is 0 *)
    cbn [dsub ddiv Exact xsub xadd xopp xdiv to_int].
    change (xtrunc (XFin 0)) with 0. lia.
  - simpl in Hdz. destruct (Qlt_le_dec (inject_Z 0) dz) as [Hpos|];
      [|discriminate].
    change (inject_Z 0) with 0%Q in Hpos.
    assert (Hn0 : Qis0 dz = false).
    { unfold Qis0. destruct (Qeq_bool dz 0) eqn:Heq; [|reflexivity].
      apply Qeq_bool_eq in Heq. lra. }
    cbn [dsub ddiv Exact xsub xadd xopp xdiv to_int]. rewrite Hn0.
    assert (H1 : (0 <= (q + - h) / dz)%Q) by (apply Qdiv_nonneg; lra).
    assert (H2 : ((q + - h) / dz <= (c + - h) / dz)%Q)
      by (apply Qdiv_le_compat; lra).
    rewrite !xtrunc_nonneg by lra.
    pose proof (Qfloor_nonneg _ H1).
    pose proof (Qfloor_resp_le _ _ H2). lia.
Qed.

Lemma push_sector_in_bounds (zI : list (list Triple)) (idx : Z) (t : Triple) :
  0 <= idx < Z.of_nat (length zI) ->
  exists zI', push_sector zI idx t = Some zI' /\ length zI' = length zI.
Proof.
  intros Hidx. unfold push_sector.
  rewrite (proj2 (Z.leb_le 0 idx)), (proj2 (Z.ltb_lt idx _)) by lia.
  simpl. eexists. split; [reflexivity|]. apply length_alter.
Qed.

(** C10.  With a positive sector size, finite site height and [zMax], and
    no height below the site, the sector index of every eligible bin lies
    in [0, nl); so no push leaves [zIdxs], and [determineHeightSectors]
    completes whenever the sector count is not negative. *)
Theorem height_sector_indices_in_bounds (s : HoofSettings xdouble)
    (st : HoofDealiaser xdouble) :
  let d := dl_data st in
  dltb (dlit 0) (zSectorSize s) = true ->
  is_finite (height d) = true -> is_finite (zMax s) = true ->
  (forall i j k, isnan (get3 dNaN (zs (vrad d)) i j k) = false ->
                 dleb (height d) (get3 dNaN (zs (vrad d)) i j k) = true) ->
  (forall i j k,
     eligible (get3 dNaN (zs (vrad d)) i j k)
              (get3 dNaN (meas (vrad d)) i j k)
              (get3 dNaN (dl_Ds st) i j k) (sector_ceiling s d) = true ->
     0 <= sector_index s d (get3 dNaN (zs (vrad d)) i j k)
       < sector_count s d) /\
  (0 <= sector_count s d -> is_Some (determineHeightSectors s st)).
Proof.
  intros d Hdz Hh HzMax Hz. split.
  - intros i j k Hel. eapply sector_index_bound; eauto.
  - intros Hnl. unfold determineHeightSectors. fold d.
    rewrite (proj2 (Z.ltb_ge _ _)) by lia.
    match goal with
    | |- is_Some (mbind _ ?loops) =>
        assert (Hloops : exists zI,
                  loops = Some zI /\
                  length zI = Z.to_nat (sector_count s d))
    end.
    { apply (for_nat_inv
               (fun acc : option (list (list Triple)) =>
                  exists zI, acc = Some zI /\
                             length zI = Z.to_nat (sector_count s d))).
      - eexists. split; [reflexivity|]. apply length_vec.
      - intros i acc1 _ H1. apply for_nat_inv; [exact H1|].
        intros j acc2 _ H2. apply for_nat_inv; [exact H2|].
        intros k acc3 _ (zI & -> & Hlen). cbn [mbind option_bind].
        destruct (eligible _ _ _ _) eqn:Hel; [|eauto].
        destruct (push_sector_in_bounds zI
                    (sector_index s d (get3 dNaN (zs (vrad d)) i j k))
                    (i, j, k)) as (zI' & -> & Hlen').
        + rewrite Hlen, Z2Nat.id by lia.
          eapply sector_index_bound; eauto.
        + exists zI'. split; [reflexivity|]. congruence. }
    destruct Hloops as (zI & -> & _). simpl. eauto.
Qed.

(** C10, applied to S3: one sector, the four bins of the first gate. *)
Lemma height_sector_indices_in_bounds_witness :
  let s := S3_settings (D:=xdouble) in
  let st := S3_dealiaser (D:=xdouble) in
  let d := dl_data st in
  sector_count s d = 1 /\
  eligible (get3 dNaN (zs (vrad d)) 0 0 0) (get3 dNaN (meas (vrad d)) 0 0 0)
           (get3 dNaN (dl_Ds st) 0 0 0) (sector_ceiling s d) = true /\
  0 <= sector_index s d (get3 dNaN (zs (vrad d)) 0 0 0) < sector_count s d /\
  is_Some (determineHeightSectors s st).
Proof.
  intros s st d.
  assert (Hz : forall i j k,
             isnan (get3 dNaN (zs (vrad d)) i j k) = false ->
             dleb (height d) (get3 dNaN (zs (vrad d)) i j k) = true).
  { intros [|[|i]] [|[|[|[|[|j]]]]] [|[|[|k]]]; vm_compute; congruence. }
  split; [reflexivity|]. split; [reflexivity|].
  split.
  - apply (height_sector_indices_in_bounds s st);
      [reflexivity|reflexivity|reflexivity|exact Hz|reflexivity].
  - apply (height_sector_indices_in_bounds s st);
      [reflexivity|reflexivity|reflexivity|exact Hz|vm_compute; discriminate].
Defined.

(** * Quantization, on the exact numbers *)









Lemma Qis0_false (g : Q) : ~ (g == 0)%Q -> Qis0 g = false.
Proof.
  intros Hg. unfold Qis0. destruct (Qeq_bool g 0) eqn:Heq; [|reflexivity].
  apply Qeq_bool_eq in Heq. contradiction.
Qed.






(** * The ray bin borders *)

Lemma tier_ok_later (limIdxs : list Z) (j j' c : Z) :
  j <= j' -> tier_ok limIdxs j c -> tier_ok limIdxs j' c.
Proof.
  intros Hj [->|(Hc & lo & Hlo & Hle)]; [by left|].
  right. split; [done|]. exists lo. split; [done|lia].
Qed.

(** The pick of [currFacSub] never goes down. *)
Lemma tier_lookup_mono (limIdxs facSubs : list Z) (j cur c' : Z) :
  ascending limIdxs ->
  (forall k, (k < length facSubs)%nat -> get1 0 facSubs k = Z.of_nat k) ->
  tier_ok limIdxs j cur ->
  tier_lookup limIdxs facSubs j cur = Some c' ->
  cur <= c' /\ tier_ok limIdxs j c'.
Proof.
  intros Hasc Hfac Hcur. unfold tier_lookup. revert c'.
  apply (for_nat_ind
           (fun _ acc => forall c, acc = Some c ->
                                   cur <= c /\ tier_ok limIdxs j c)).
  - intros c [= <-]. split; [lia|done].
  - intros k acc Hk IH c Hc.
    destruct acc as [c0|]; [|discriminate]. cbn [mbind option_bind] in Hc.
    destruct (IH c0 eq_refl) as [Hle0 Hok0].
    destruct (limIdxs !! k) as [lo|] eqn:Hlo; [|discriminate].
    cbn [mbind option_bind] in Hc.
    destruct (Z.leb_spec lo j) as [Hloj|_]; [|by injection Hc as <-].
    destruct (limIdxs !! (k + 1)%nat) as [hi|] eqn:Hhi; [|discriminate].
    cbn [mbind option_bind] in Hc.
    destruct (Z.ltb_spec j hi) as [Hjhi|_]; [|by injection Hc as <-].
    injection Hc as <-. rewrite Hfac by exact Hk. split.
    + destruct Hcur as [->|(Hc0 & lc & Hlc & Hlcj)]; [lia|].
      destruct (Z_lt_le_dec (Z.of_nat k) cur) as [Hlt|]; [|lia].
      exfalso.
      assert (hi <= lc); [|lia].
      apply (Hasc (k + 1)%nat (Z.to_nat cur) hi lc); [lia|done|done].
    + right. split; [lia|]. exists lo. by rewrite Nat2Z.id.
Qed.

(** ** Two-dimensional vectors *)

Lemma rect_vec {A : Type} (n m : Z) (x : A) :
  rect (vec n (vec m x)) (Z.to_nat n) (Z.to_nat m).
Proof.
  split; [apply length_vec|]. intros i row Hrow.
  apply lookup_replicate in Hrow as [-> _]. apply length_vec.
Qed.

Lemma rect_set2 {A : Type} (v : list (list A)) (n m i j : nat) (x : A) :
  rect v n m -> rect (set2 v i j x) n m.
Proof.
  intros [Hn Hm]. unfold set2. split; [by rewrite length_alter|].
  intros a row Hrow. destruct (decide (i = a)) as [->|Hne].
  - rewrite list_lookup_alter_eq in Hrow.
    destruct (v !! a) as [row0|] eqn:Hv; simplify_eq/=.
    rewrite length_insert. by eapply Hm.
  - rewrite list_lookup_alter_ne in Hrow by done. by eapply Hm.
Qed.

Lemma get2_set2_same {A : Type} (d x : A) (v : list (list A))
    (n m i j : nat) :
  rect v n m -> (i < n)%nat -> (j < m)%nat ->
  get2 d (set2 v i j x) i j = x.
Proof.
  intros [Hn Hm] Hi Hj. unfold get2, set2, get1.
  rewrite list_lookup_alter_eq.
  destruct (v !! i) as [row|] eqn:Hv.
  - simpl. rewrite list_lookup_insert_eq; [done|].
    rewrite (Hm i row Hv). done.
  - apply lookup_ge_None in Hv. lia.
Qed.

Lemma get2_set2_other {A : Type} (d x : A) (v : list (list A))
    (i j a b : nat) :
  (a, b) <> (i, j) -> get2 d (set2 v i j x) a b = get2 d v a b.
Proof.
  intros Hne. unfold get2, set2, get1.
  destruct (decide (i = a)) as [->|Hi].
  - rewrite list_lookup_alter_eq. destruct (v !! a) as [row|]; simpl; [|done].
    rewrite list_lookup_insert_ne; [done|]. intros ->. by apply Hne.
  - by rewrite list_lookup_alter_ne.
Qed.

(** The loop over [k] that writes the row [J] of both border arrays. *)
Lemma ray_row_filled (f g : nat -> Z) (n m J : nat)
    (cs ce : list (list Z)) :
  rect cs n m -> rect ce n m -> (J < n)%nat ->
  let b := for_nat m (fun k (b : list (list Z) * list (list Z)) =>
                        (set2 (fst b) J k (f k), set2 (snd b) J k (g k)))
                   (cs, ce) in
  rect (fst b) n m /\ rect (snd b) n m /\
  (forall k, (k < m)%nat ->
     get2 0 (fst b) J k = f k /\ get2 0 (snd b) J k = g k) /\
  (forall j k, j <> J ->
     get2 0 (fst b) j k = get2 0 cs j k /\
     get2 0 (snd b) j k = get2 0 ce j k).
Proof.
  intros Hcs Hce HJ.
  cut (forall K, (K <= m)%nat ->
         let b := for_nat K (fun k (b : list (list Z) * list (list Z)) =>
                               (set2 (fst b) J k (f k),
                                set2 (snd b) J k (g k)))
                          (cs, ce) in
         rect (fst b) n m /\ rect (snd b) n m /\
         (forall k, (k < K)%nat ->
            get2 0 (fst b) J k = f k /\ get2 0 (snd b) J k = g k) /\
         (forall j k, j <> J ->
            get2 0 (fst b) j k = get2 0 cs j k /\
            get2 0 (snd b) j k = get2 0 ce j k)).
  { intros HK. apply HK. lia. }
  induction K as [|K IH]; intros HK; cbv zeta.
  - rewrite for_nat_0. cbn [fst snd].
    split; [done|]. split; [done|]. split; [intros k Hk; lia|done].
  - rewrite for_nat_S. destruct IH as (R1 & R2 & Hrow & Hoth); [lia|].
    cbn [fst snd].
    split; [by apply rect_set2|]. split; [by apply rect_set2|]. split.
    + intros k Hk. destruct (decide (k = K)) as [->|Hne].
      * rewrite !(get2_set2_same 0 _ _ n m) by (done || lia). done.
      * rewrite !get2_set2_other by congruence. apply Hrow. lia.
    + intros j k Hj. rewrite !get2_set2_other by congruence. by apply Hoth.
Qed.

(** Along the coarse range index the sub ray factor of the rows never
    goes down, so the ray count of the cells never goes up. *)
Lemma ray_borders_mono (limIdxs facSubs origStart origEnd : list Z)
    (nsr nsaz : Z) (cs ce : list (list Z)) :
  ascending limIdxs ->
  (forall k, (k < length facSubs)%nat -> get1 0 facSubs k = Z.of_nat k) ->
  ray_borders limIdxs facSubs origStart origEnd nsr nsaz = Some (cs, ce) ->
  forall j1 j2 k : nat,
    (j1 <= j2)%nat -> (j2 < Z.to_nat nsr)%nat -> (k < Z.to_nat nsaz)%nat ->
    get2 0 ce j2 k - get2 0 cs j2 k <= get2 0 ce j1 k - get2 0 cs j1 k.
Proof.
  intros Hasc Hfac Hrb. unfold ray_borders in Hrb.
  set (n := Z.to_nat nsr) in *. set (m := Z.to_nat nsaz) in *.
  match type of Hrb with
  | mbind _ (for_nat n ?body ?init) = _ =>
      assert (Hinv :
        forall cs ce cur, for_nat n body init = Some (cs, ce, cur) ->
          exists f, rows_filled origStart origEnd m cs ce n f /\
                    forall j1 j2, (j1 <= j2)%nat -> (j2 < n)%nat ->
                                  f j1 <= f j2);
      [ cut (forall J, (J <= n)%nat ->
               forall cs ce cur,
                 for_nat J body init = Some (cs, ce, cur) ->
                 rect cs n m /\ rect ce n m /\
                 tier_ok limIdxs (Z.of_nat J) cur /\
                 exists f, rows_filled origStart origEnd m cs ce J f /\
                           (forall j1 j2, (j1 <= j2)%nat -> (j2 < J)%nat ->
                                          f j1 <= f j2) /\
                           (forall j, (j < J)%nat -> f j <= cur));
        [ intros HJ cs0 ce0 cur0 Hsome;
          destruct (HJ n ltac:(lia) cs0 ce0 cur0 Hsome)
            as (_ & _ & _ & f & Hf & Hmono & _);
          by exists f
        | ]
      | ]
  end.
  - induction J as [|J IH]; intros HJ cs0 ce0 cur0 Hsome.
    + rewrite for_nat_0 in Hsome. injection Hsome as <- <- <-.
      split; [apply rect_vec|]. split; [apply rect_vec|].
      split; [by left|]. exists (fun _ => 0).
      split; [intros j k Hj; lia|]. split; intros; lia.
    + rewrite for_nat_S in Hsome.
      destruct (for_nat J _ _) as [[[cs1 ce1] cur1]|] eqn:Hprev;
        [|discriminate].
      destruct (IH ltac:(lia) cs1 ce1 cur1 eq_refl)
        as (R1 & R2 & Hok & f & Hf & Hmono & Hle).
      cbn [mbind option_bind] in Hsome.
      destruct (tier_lookup limIdxs facSubs (Z.of_nat J) cur1) as [cur2|]
        eqn:Hlook; [|discriminate].
      cbn [mbind option_bind] in Hsome.
      destruct (tier_lookup_mono _ _ _ _ _ Hasc Hfac Hok Hlook)
        as [Hcur Hok2].
      destruct (ray_row_filled
                  (fun k => get1 0 origStart k + cur2)
                  (fun k => get1 0 origEnd k - cur2)
                  n m J cs1 ce1 R1 R2 ltac:(lia))
        as (R1' & R2' & Hrow & Hoth).
      injection Hsome as Hpair <-.
      rewrite Hpair in R1', R2', Hrow, Hoth. cbn [fst snd] in *.
      split; [done|]. split; [done|]. split.
      * apply (tier_ok_later _ (Z.of_nat J)); [lia|done].
      * exists (fun j => if decide (j = J) then cur2 else f j).
        split; [|split].
        -- intros j k Hj Hk. destruct (decide (j = J)) as [->|Hne].
           ++ by apply Hrow.
           ++ destruct (Hoth j k Hne) as [-> ->]. apply Hf; [lia|done].
        -- intros j1 j2 H12 H2.
           destruct (decide (j1 = J)) as [->|Hn1];
             destruct (decide (j2 = J)) as [->|Hn2]; try lia.
           ++ specialize (Hle j1 ltac:(lia)). lia.
           ++ apply Hmono; lia.
        -- intros j Hj. destruct (decide (j = J)) as [->|Hne]; [lia|].
           specialize (Hle j ltac:(lia)). lia.
  - destruct (for_nat n _ _) as [[[cs0 ce0] cur0]|] eqn:Hloop;
      [|discriminate].
    cbn [mbind option_bind fst] in Hrb. injection Hrb as <- <-.
    destruct (Hinv cs0 ce0 cur0 eq_refl) as (f & Hf & Hmono).
    intros j1 j2 k H12 H2 Hk.
    destruct (Hf j1 k ltac:(lia) Hk) as [-> ->].
    destruct (Hf j2 k ltac:(lia) Hk) as [-> ->].
    specialize (Hmono j1 j2 H12 H2). lia.
Qed.

(** ** The ray bin limits *)

Lemma clamp_limit_range (x : Z) (size : nat) :
  0 <= clamp_limit x size <= Z.of_nat size.
Proof.
  unfold clamp_limit, ge_size.
  destruct (Z.ltb_spec x 0); simpl; [lia|].
  destruct (Z.leb_spec (Z.of_nat size) x); lia.
Qed.

Lemma clamp_limit_mono (x y : Z) (size : nat) :
  0 <= x <= y -> clamp_limit x size <= clamp_limit y size.
Proof.
  intros Hxy. unfold clamp_limit, ge_size.
  destruct (Z.ltb_spec x 0); [lia|].
  destruct (Z.ltb_spec y 0); [lia|]. simpl.
  destruct (Z.leb_spec (Z.of_nat size) x);
    destruct (Z.leb_spec (Z.of_nat size) y); lia.
Qed.

Lemma ascending_snoc (l : list Z) (x : Z) :
  ascending l -> (forall y, y ∈ l -> y <= x) -> ascending (l ++ [x]).
Proof.
  intros Hl Hx a b u v Hab Ha Hb.
  destruct (decide (b < length l)%nat) as [Hb'|Hb'].
  - rewrite lookup_app_l in Ha, Hb by lia. exact (Hl a b u v Hab Ha Hb).
  - rewrite (lookup_app_r l) in Hb by lia.
    apply list_lookup_singleton_Some in Hb as [_ <-].
    destruct (decide (a < length l)%nat) as [Ha'|Ha'].
    + rewrite lookup_app_l in Ha by lia.
      apply Hx. by eapply list_elem_of_lookup_2.
    + rewrite (lookup_app_r l) in Ha by lia.
      apply list_lookup_singleton_Some in Ha as [_ <-]. lia.
Qed.

Lemma ascending_le_back (l : list Z) (y : Z) :
  ascending l -> y ∈ l -> y <= back l.
Proof.
  intros Hl Hy. apply list_elem_of_lookup in Hy as [a Ha].
  unfold back. rewrite last_lookup.
  pose proof (lookup_lt_Some _ _ _ Ha) as Hlen.
  destruct (l !! pred (length l)) as [z|] eqn:Hz.
  - simpl. apply (Hl a (pred (length l)) y z); [lia|done|done].
  - apply lookup_ge_None in Hz. lia.
Qed.

Lemma ascending_prefix (l : list Z) (x : Z) :
  ascending (l ++ [x]) -> ascending l.
Proof.
  intros Hl a b u v Hab Ha Hb.
  apply (Hl a b u v Hab); by apply lookup_app_l_Some.
Qed.

Lemma ascending_set_back (l : list Z) (x : Z) :
  ascending l -> (forall y, y ∈ l -> y <= x) -> ascending (set_back x l).
Proof.
  intros Hl Hx. unfold set_back. destruct l as [|z l].
  - intros a b u v _ Ha. by rewrite lookup_nil in Ha.
  - destruct (exists_last (l := z :: l) ltac:(done)) as (l' & w & Heq).
    rewrite Heq in *. rewrite removelast_last.
    apply ascending_snoc.
    + by eapply ascending_prefix.
    + intros y Hy. apply Hx. apply elem_of_app. by left.
Qed.

Section TierLimits.
Context {D : Type} `{Double D}.

(** When the limits do not decrease with [z], the list [limIdxs] is
    ascending; every [z] is pushed to [facSubs]. *)
Lemma tier_limits_ascending (L : D) (zmax : Z) (size : nat) :
  (forall z1 z2, 0 <= z1 <= z2 -> z2 <= zmax ->
                 tier_limit L zmax size z1 <= tier_limit L zmax size z2) ->
  ascending (fst (tier_limits L zmax size)) /\
  (forall k, (k < length (snd (tier_limits L zmax size)))%nat ->
             get1 0 (snd (tier_limits L zmax size)) k = Z.of_nat k).
Proof.
  intros Hmono. unfold tier_limits. rewrite for_Z_for_nat.
  set (n := Z.to_nat (zmax + 1 - 0)).
  match goal with
  | |- context [for_nat n ?body ?init] =>
      assert (Hinv :
        forall I, (I <= n)%nat ->
          let acc := for_nat I body init in
          ascending (fst acc) /\ fst acc <> [] /\
          (forall x, x ∈ fst acc -> 0 <= x <= Z.of_nat size) /\
          (forall z, Z.of_nat I <= z <= zmax ->
                     back (fst acc) <= tier_limit L zmax size z) /\
          length (snd acc) = I /\
          (forall k, (k < I)%nat -> get1 0 (snd acc) k = Z.of_nat k))
  end.
  { induction I as [|I IH]; intros HI; cbv zeta.
    - rewrite for_nat_0. cbn [fst snd].
      split.
      { intros a b u v Hab Ha Hb.
        apply list_lookup_singleton_Some in Ha as [_ <-].
        apply list_lookup_singleton_Some in Hb as [_ <-]. lia. }
      split; [done|]. split.
      { intros x Hx. apply list_elem_of_singleton in Hx as ->. lia. }
      split.
      { intros z Hz. unfold back. simpl. unfold tier_limit.
        apply clamp_limit_range. }
      split; [done|]. intros k Hk. lia.
    - rewrite for_nat_S.
      destruct (for_nat I _ _) as [li fs] eqn:Hacc.
      destruct IH as (Hasc & Hne & Hrng & Hback & Hlen & Hfs); [lia|].
      cbn [fst snd] in *.
      replace (0 + Z.of_nat I) with (Z.of_nat I) by lia.
      fold (tier_limit L zmax size (Z.of_nat I)).
      set (lim := tier_limit L zmax size (Z.of_nat I)) in *.
      assert (HIz : Z.of_nat I <= zmax) by lia.
      assert (Hlim : back li <= lim) by (apply Hback; lia).
      assert (Hnext : forall z, Z.of_nat (S I) <= z <= zmax ->
                                lim <= tier_limit L zmax size z).
      { intros z Hz. apply Hmono; lia. }
      split; [|split; [|split; [|split; [|split]]]].
      + destruct (negb (lim =? back li)); [|done].
        apply ascending_snoc; [done|].
        intros y Hy. pose proof (ascending_le_back li y Hasc Hy). lia.
      + destruct (negb (lim =? back li)); [|done].
        intros Hnil. by apply app_nil in Hnil as [_ ?].
      + destruct (negb (lim =? back li)); [|done].
        intros x Hx. apply elem_of_app in Hx as [Hx|Hx]; [by apply Hrng|].
        apply list_elem_of_singleton in Hx as ->. apply clamp_limit_range.
      + intros z Hz. destruct (negb (lim =? back li)) eqn:Hneq.
        * unfold back. rewrite last_snoc. simpl. by apply Hnext.
        * apply negb_false_iff, Z.eqb_eq in Hneq. rewrite <- Hneq.
          by apply Hnext.
      + rewrite length_app. simpl. lia.
      + intros k Hk. unfold get1. destruct (decide (k = I)) as [->|Hne'].
        * rewrite lookup_app_r by lia. rewrite Hlen, Nat.sub_diag. done.
        * rewrite lookup_app_l by lia. apply Hfs. lia. }
  destruct (Hinv n ltac:(lia)) as (Hasc & Hne & Hrng & _ & Hlen & Hfs).
  destruct (for_nat n _ _) as [li fs]. cbn [fst snd] in *.
  split.
  - destruct (lt_size (back li) size); [|done].
    apply ascending_set_back; [done|]. intros y Hy. by apply Hrng.
  - intros k Hk. apply Hfs. lia.
Qed.

End TierLimits.

(** ** The ray bin limits on the exact numbers *)

Lemma xtrunc_integer (a : Z) : xtrunc (XFin (inject_Z a + inject_Z 1)) = a + 1.
Proof.
  rewrite <- inject_Z_plus. simpl.
  destruct (Qlt_le_dec (inject_Z (a + 1)) 0); [apply Qceiling_Z|apply Qfloor_Z].
Qed.

Lemma lim_index_number (l : Q) (f : Z) :
  0 < f ->
  lim_index (XFin l) f = Qfloor (l / inject_Z f + - inject_Z 1) + 1.
Proof.
  intros Hf. unfold lim_index.
  cbn [ddiv dsub dadd dfloor dlit to_int Exact xdiv xsub xadd xopp xfloor].
  rewrite Qis0_false.
  - apply xtrunc_integer.
  - intros Heq. assert (0 < inject_Z f)%Q; [|lra].
    change 0%Q with (inject_Z 0). rewrite <- Zlt_Qlt. exact Hf.
Qed.

Lemma lim_index_not_number (L : xdouble) (f : Z) :
  is_finite L = false -> lim_index L f = 0.
Proof. destruct L as [|b|l]; [reflexivity|reflexivity|discriminate]. Qed.

Lemma Qdiv_antitone (l a b : Q) :
  (0 <= l)%Q -> (0 < b)%Q -> (b <= a)%Q -> (l / a <= l / b)%Q.
Proof.
  intros Hl Hb Hab. apply Qle_shift_div_r; [lra|].
  assert (H0 : (0 <= l / b)%Q) by (apply Qdiv_nonneg; lra).
  assert (H1 : (l / b * b == l)%Q) by (field; lra).
  assert (H2 : (l / b * b <= l / b * a)%Q).
  { rewrite !(Qmult_comm (l / b)). apply Qmult_le_compat_r; lra. }
  lra.
Qed.

(** On the exact numbers the limits of the tiers never decrease with [z]. *)
Lemma tier_limit_mono (L : xdouble) (zmax : Z) (size : nat) (z1 z2 : Z) :
  0 <= z1 <= z2 -> z2 <= zmax ->
  tier_limit L zmax size z1 <= tier_limit L zmax size z2.
Proof.
  intros H12 H2. unfold tier_limit.
  destruct L as [| b |l].
  - rewrite !lim_index_not_number by reflexivity. lia.
  - rewrite !lim_index_not_number by reflexivity. lia.
  - rewrite !lim_index_number by lia.
    set (f1 := 2 * (zmax - z1) + 1). set (f2 := 2 * (zmax - z2) + 1).
    assert (Hf2 : (0 < inject_Z f2)%Q).
    { change 0%Q with (inject_Z 0). rewrite <- Zlt_Qlt. lia. }
    assert (Hf12 : (inject_Z f2 <= inject_Z f1)%Q).
    { rewrite <- Zle_Qle. lia. }
    destruct (Qlt_le_dec l 0) as [Hneg|Hpos].
    + (* a negative bound: every limit is clamped to the size *)
      assert (Hn : forall f, (0 < inject_Z f)%Q ->
                 Qfloor (l / inject_Z f + - inject_Z 1) + 1 < 0).
      { intros f Hf.
        assert (Hq : (l / inject_Z f < 0)%Q).
        { apply Qlt_shift_div_r; lra. }
        pose proof (Qfloor_le (l / inject_Z f + - inject_Z 1)) as Hfl.
        change (inject_Z 1) with 1%Q in Hfl.
        apply Z.lt_nge. intros Hge.
        assert (Hz : (inject_Z (-1) <=
                      inject_Z (Qfloor (l / inject_Z f + - inject_Z 1)))%Q).
        { rewrite <- Zle_Qle. lia. }
        change (inject_Z (-1)) with (-1)%Q in Hz.
        change (inject_Z 1) with 1%Q in Hz. lra. }
      unfold clamp_limit, ge_size.
      rewrite !(proj2 (Z.ltb_lt _ 0)) by (apply Hn; lra). simpl. lia.
    + apply clamp_limit_mono. split.
      * assert (H0 : (0 <= l / inject_Z f1)%Q) by (apply Qdiv_nonneg; lra).
        assert (Hm1 : (inject_Z (-1) <= l / inject_Z f1 + - inject_Z 1)%Q).
        { change (inject_Z (-1)) with (-1)%Q.
          change (inject_Z 1) with 1%Q. lra. }
        pose proof (Qfloor_resp_le _ _ Hm1) as Hfl.
        rewrite Qfloor_Z in Hfl. lia.
      * assert (Hle : (l / inject_Z f1 + - inject_Z 1 <=
                       l / inject_Z f2 + - inject_Z 1)%Q).
        { pose proof (Qdiv_antitone l (inject_Z f1) (inject_Z f2)
                        Hpos Hf2 Hf12). lra. }
        pose proof (Qfloor_resp_le _ _ Hle). lia.
Qed.

(** The ray counts of one elevation. *)
Lemma elevation_borders_mono (s : HoofSettings xdouble)
    (naz nr nsaz nsr : Z) (rscale : xdouble)
    (rb : list Z) (sb eb : list (list Z)) :
  elevation_borders s naz nr nsaz nsr rscale = Some (rb, sb, eb) ->
  forall j1 j2 k : nat,
    (j1 <= j2)%nat -> (j2 < Z.to_nat nsr)%nat -> (k < Z.to_nat nsaz)%nat ->
    get2 0 eb j2 k - get2 0 sb j2 k <= get2 0 eb j1 k - get2 0 sb j1 k.
Proof.
  unfold elevation_borders. intros Hb.
  destruct (range_borders nr (rangeBinFactor s)) as [crb|]; [|discriminate].
  cbn [mbind option_bind] in Hb.
  set (zmax := Z.quot (rayAngleFactor s - 1) 2) in *.
  set (L := arc_bound s naz rscale) in *.
  destruct (tier_limits_ascending L zmax (length crb)) as [Hasc Hfac].
  { intros z1 z2 H1 H2. by apply tier_limit_mono. }
  destruct (tier_limits L zmax (length crb)) as [limIdxs facSubs].
  cbn [fst snd] in *.
  destruct (stride_loop _ _ _ _ _) as [origStart|]; [|discriminate].
  cbn [mbind option_bind] in Hb.
  destruct (ray_borders _ _ _ _ _ _) as [[cs ce]|] eqn:Hrb; [|discriminate].
  cbn [mbind option_bind fst snd] in Hb. injection Hb as _ <- <-.
  by eapply ray_borders_mono.
Qed.

(** ** The borders of all elevations *)

Section BinBorders.
Context {D : Type} `{Double D}.

(** Every elevation of the superobed moment gets the borders that
    [elevation_borders] computes for it. *)
Lemma calculateBinBorders_elevation (s : HoofSettings D) (type : MomentType)
    (st st' : HoofSuperober D) (e : nat) :
  let m := source_moment type (so_data st) in
  let sm := superobed_moment type (so_data st) in
  calculateBinBorders s type st = Some st' ->
  (e < Z.to_nat (nel sm))%nat ->
  exists rb sb eb,
    elevation_borders s (get1 0 (naz m) e) (get1 0 (nr m) e)
      (get1 0 (naz sm) e) (get1 0 (nr sm) e) (get1 dNaN (rscales m) e)
      = Some (rb, sb, eb) /\
    so_rangeBorders st' !! e = Some rb /\
    so_startRayBorders st' !! e = Some sb /\
    so_endRayBorders st' !! e = Some eb.
Proof.
  intros m sm Hcalc He. unfold calculateBinBorders in Hcalc.
  fold m sm in Hcalc.
  match type of Hcalc with
  | mbind _ (for_nat _ ?body ?init) = _ =>
      assert (Hinv :
        forall I rb sb eb,
          for_nat I body init = Some (rb, sb, eb) ->
          length rb = I /\ length sb = I /\ length eb = I /\
          forall e, (e < I)%nat ->
            exists b1 b2 b3,
              elevation_borders s (get1 0 (naz m) e) (get1 0 (nr m) e)
                (get1 0 (naz sm) e) (get1 0 (nr sm) e)
                (get1 dNaN (rscales m) e) = Some (b1, b2, b3) /\
              rb !! e = Some b1 /\ sb !! e = Some b2 /\ eb !! e = Some b3)
  end.
  { induction I as [|I IH]; intros rb sb eb Hsome.
    - rewrite for_nat_0 in Hsome. injection Hsome as <- <- <-.
      repeat split; try done. intros e' He'. lia.
    - rewrite for_nat_S in Hsome.
      destruct (for_nat I _ _) as [[[rb0 sb0] eb0]|]; [|discriminate].
      destruct (IH rb0 sb0 eb0 eq_refl) as (L1 & L2 & L3 & Hprev).
      cbn [mbind option_bind] in Hsome.
      destruct (elevation_borders _ _ _ _ _ _) as [[[b1 b2] b3]|] eqn:Hel;
        [|discriminate].
      cbn [mbind option_bind fst snd] in Hsome.
      injection Hsome as <- <- <-.
      rewrite !length_app. simpl.
      split; [lia|]. split; [lia|]. split; [lia|].
      intros e' He'. destruct (decide (e' = I)) as [->|Hne].
      + exists b1, b2, b3. split; [done|].
        rewrite !lookup_app_r by lia. rewrite L1, L2, L3, Nat.sub_diag. done.
      + destruct (Hprev e' ltac:(lia)) as (c1 & c2 & c3 & Hc & H1 & H2 & H3).
        exists c1, c2, c3. split; [done|].
        rewrite !lookup_app_l by lia. done. }
  destruct (for_nat _ _ _) as [[[rb sb] eb]|] eqn:Hloop; [|discriminate].
  cbn [mbind option_bind fst snd] in Hcalc. injection Hcalc as <-.
  destruct (Hinv _ rb sb eb Hloop) as (_ & _ & _ & Hall).
  exact (Hall e He).
Qed.

(** The range borders [_calculateBinBorders] stores for an elevation are
    the multiples of [binFactor] up to the gate count of the source. *)
Lemma calculateBinBorders_range_borders (s : HoofSettings D)
    (type : MomentType) (st st' : HoofSuperober D) (e : nat) :
  let m := source_moment type (so_data st) in
  let sm := superobed_moment type (so_data st) in
  calculateBinBorders s type st = Some st' ->
  (e < Z.to_nat (nel sm))%nat ->
  0 <= get1 0 (nr m) e -> 0 < rangeBinFactor s ->
  so_rangeBorders st' !! e =
  Some ((fun i : nat => rangeBinFactor s * Z.of_nat i)
          <$> seq 0 (S (Z.to_nat (get1 0 (nr m) e / rangeBinFactor s)))).
Proof.
  intros m sm Hcalc He Hnr HbinF.
  destruct (calculateBinBorders_elevation s type st st' e Hcalc He)
    as (rb & sb & eb & Hel & Hrb & _).
  fold m in Hel. rewrite Hrb. f_equal.
  unfold elevation_borders in Hel.
  rewrite (range_borders_exact _ _ Hnr HbinF) in Hel.
  cbn [mbind option_bind] in Hel.
  destruct (tier_limits _ _ _) as [limIdxs facSubs].
  destruct (stride_loop _ _ _ _ _) as [origStart|]; [|discriminate].
  cbn [mbind option_bind] in Hel.
  destruct (ray_borders _ _ _ _ _ _) as [[cs ce]|]; [|discriminate].
  cbn [mbind option_bind fst snd] in Hel. by injection Hel as <- _ _.
Qed.

End BinBorders.

(** C7, as the code has it.  When [_calculateBinBorders] completes, in
    every elevation and for every coarse azimuth the number of source rays
    of a coarse cell, [endRay - startRay], never grows with the coarse
    range index: cells near the radar fold at least as many rays as cells
    farther out. *)
Theorem ray_count_never_grows_with_range (s : HoofSettings xdouble)
    (type : MomentType) (st st' : HoofSuperober xdouble) (e j1 j2 k : nat) :
  let sm := superobed_moment type (so_data st) in
  calculateBinBorders s type st = Some st' ->
  (e < Z.to_nat (nel sm))%nat ->
  (j1 <= j2)%nat -> (j2 < Z.to_nat (get1 0%Z (nr sm) e))%nat ->
  (k < Z.to_nat (get1 0%Z (naz sm) e))%nat ->
  get3 0 (so_endRayBorders st') e j2 k - get3 0 (so_startRayBorders st') e j2 k
  <= get3 0 (so_endRayBorders st') e j1 k
     - get3 0 (so_startRayBorders st') e j1 k.
Proof.
  intros sm Hcalc He H12 H2 Hk.
  destruct (calculateBinBorders_elevation s type st st' e Hcalc He)
    as (rb & sb & eb & Hel & _ & Hsb & Heb).
  change (get3 0 (so_endRayBorders st') e j2 k)
    with (get2 0 (get1 [] (so_endRayBorders st') e) j2 k).
  change (get3 0 (so_endRayBorders st') e j1 k)
    with (get2 0 (get1 [] (so_endRayBorders st') e) j1 k).
  change (get3 0 (so_startRayBorders st') e j2 k)
    with (get2 0 (get1 [] (so_startRayBorders st') e) j2 k).
  change (get3 0 (so_startRayBorders st') e j1 k)
    with (get2 0 (get1 [] (so_startRayBorders st') e) j1 k).
  assert (get1 [] (so_endRayBorders st') e = eb) as ->
    by (unfold get1; by rewrite Heb).
  assert (get1 [] (so_startRayBorders st') e = sb) as ->
    by (unfold get1; by rewrite Hsb).
  by eapply elevation_borders_mono.
Qed.

(** C7 as stated fails: with 12 rays, 20 gates of 500 m, [binFactor = 4],
    [rayFactor = 3] and [maxArcSize = 7] the coarse cells of the range
    indices 0 and 1 fold 3 rays and those of the indices 2 to 4 fold 1 ray:
    the count goes down as the range index goes up. *)
Lemma ray_count_drops_with_range :
  let s := tiers_settings (D:=float) in
  let st := prepareMetadata s tiers_superober in
  exists st',
    calculateBinBorders s VRAD st = Some st' /\
    get3 0 (so_endRayBorders st') 0 0 0
      - get3 0 (so_startRayBorders st') 0 0 0 = 3 /\
    get3 0 (so_endRayBorders st') 0 2 0
      - get3 0 (so_startRayBorders st') 0 2 0 = 1 /\
    get3 0 (so_endRayBorders st') 0 2 0
      - get3 0 (so_startRayBorders st') 0 2 0
    < get3 0 (so_endRayBorders st') 0 0 0
      - get3 0 (so_startRayBorders st') 0 0 0.
Proof.
  intros s st.
  destruct (calculateBinBorders s VRAD st) as [st'|] eqn:Hcalc;
    [|vm_compute in Hcalc; discriminate].
  exists st'. split; [reflexivity|].
  vm_compute in Hcalc. injection Hcalc as <-.
  vm_compute. repeat split; reflexivity.
Qed.

(** C7 as amended, applied to the same input on the exact numbers. *)
Lemma ray_count_never_grows_with_range_witness :
  let s := tiers_settings (D:=xdouble) in
  let st := prepareMetadata s tiers_superober in
  exists st',
    calculateBinBorders s VRAD st = Some st' /\
    get3 0 (so_endRayBorders st') 0 2 0 - get3 0 (so_startRayBorders st') 0 2 0
    <= get3 0 (so_endRayBorders st') 0 0 0
       - get3 0 (so_startRayBorders st') 0 0 0.
Proof.
  intros s st.
  destruct (calculateBinBorders s VRAD st) as [st'|] eqn:Hcalc;
    [|vm_compute in Hcalc; discriminate].
  exists st'. split; [reflexivity|].
  apply (ray_count_never_grows_with_range s VRAD st st' 0 0 2 0 Hcalc);
    vm_compute; lia.
Defined.

(** * The smallest Nyquist velocity *)

Lemma for_nat_proj {S T : Type} (proj : S -> T) (n : nat)
    (body : nat -> S -> S) (body' : nat -> T -> T) (s : S) :
  (forall i t, proj (body i t) = body' i (proj t)) ->
  proj (for_nat n body s) = for_nat n body' (proj s).
Proof.
  intros Hbody. induction n as [|n IH].
  - reflexivity.
  - by rewrite !for_nat_S, Hbody, IH.
Qed.

Section VnyMin.
Context {D : Type} `{DoubleLaws D} `{DoubleTrig D}.

(** [_vnyMin] after [calculateWindModelQtys] is the result of the scan of
    the Nyquist velocities. *)
Lemma calculateWindModelQtys_vnyMin (st : HoofDealiaser D) :
  dl_vnyMin (calculateWindModelQtys st) = vnyMin_scan (vrad (dl_data st)).
Proof.
  unfold calculateWindModelQtys, vnyMin_scan.
  set (m := vrad (dl_data st)).
  match goal with
  | |- context [for_nat (Z.to_nat (nel m)) ?body
                  (?c, ?c, ?c, ?e, ?p, ?p, dInf)] =>
      pose proof (for_nat_proj snd (Z.to_nat (nel m)) body
                    (fun i mn => let vNy := get1 dNaN (vnys m) i in
                                 if dltb vNy mn then vNy else mn)
                    (c, c, c, e, p, p, dInf)) as Hproj;
      destruct (for_nat (Z.to_nat (nel m)) body (c, c, c, e, p, p, dInf))
        as [[[[[[As Bs] f3s] cosEls] cosAzs] sinAzs] vnyMin] eqn:Hloop
  end.
  simpl. simpl in Hproj. apply Hproj.
  intros i [[[[[[As' Bs'] f3s'] cosEls'] cosAzs'] sinAzs'] vnyMin'].
  destruct (for_nat (naz_at m i) _ _) as [[[[? ?] ?] ?] ?]. reflexivity.
Qed.

(** No Nyquist velocity of the volume is below the result of the scan. *)
Lemma vnyMin_scan_lower_bound (m : HoofMeasurement D) (i : nat) :
  (i < Z.to_nat (nel m))%nat ->
  dltb (get1 dNaN (vnys m) i) (vnyMin_scan m) = false.
Proof.
  unfold vnyMin_scan. revert i.
  induction (Z.to_nat (nel m)) as [|n IH]; intros i Hi; [lia|].
  rewrite for_nat_S.
  set (mn := for_nat n _ _) in *. cbv zeta.
  destruct (dltb (get1 dNaN (vnys m) n) mn) eqn:Hlt.
  - destruct (decide (i = n)) as [->|Hne]; [apply dltb_irrefl|].
    destruct (dltb (get1 dNaN (vnys m) i) (get1 dNaN (vnys m) n)) eqn:Hi';
      [|reflexivity].
    rewrite <- (IH i) by lia. symmetry. exact (dltb_trans _ _ _ Hi' Hlt).
  - destruct (decide (i = n)) as [->|Hne]; [exact Hlt|]. apply IH. lia.
Qed.

End VnyMin.

(** * HoofAux: linspace, eqDbl and nanminmax *)

Lemma get1_insert {A : Type} (d x : A) (v : list A) (i j : nat) :
  get1 d (<[i := x]> v) j =
  if decide (i = j /\ (i < length v)%nat) then x else get1 d v j.
Proof.
  unfold get1. rewrite list_lookup_insert. by destruct (decide _).
Qed.

Lemma get1_lookup {A : Type} (d x : A) (v : list A) (i : nat) :
  v !! i = Some x -> get1 d v i = x.
Proof. unfold get1. by intros ->. Qed.

Lemma get1_outside {A : Type} (d : A) (v : list A) (i : nat) :
  (length v <= i)%nat -> get1 d v i = d.
Proof.
  intros Hi. unfold get1. by rewrite (proj2 (lookup_ge_None v i)).
Qed.

(** The loop [for(i = 0; i < n; i++) vec[i] = f(i)] on a vector that holds
    at least [n] elements. *)
Lemma fill_loop {A : Type} (d : A) (f : nat -> A) (n : nat) (v : list A)
    (i : nat) :
  (n <= length v)%nat ->
  length (for_nat n (fun i v => <[i := f i]> v) v) = length v /\
  get1 d (for_nat n (fun i v => <[i := f i]> v) v) i =
    if decide (i < n)%nat then f i else get1 d v i.
Proof.
  induction n as [|n IH]; intros Hn.
  - rewrite for_nat_0. split; [done|]. rewrite decide_False by lia. done.
  - rewrite for_nat_S. destruct IH as [Hlen Hget]; [lia|].
    split; [by rewrite length_insert|].
    rewrite get1_insert, Hlen.
    destruct (decide (n = i /\ (n < length v)%nat)) as [[-> _]|Hne].
    + by rewrite decide_True by lia.
    + rewrite Hget.
      destruct (decide (i < n)%nat), (decide (i < S n)%nat);
        try done; try lia.
Qed.

Section Linspace.
Context {D : Type} `{Double D}.

(** The elements of the vector [linspace] returns. *)
Lemma linspace_elements (v : list D) (a b : D) (n : Z) (i : nat) :
  length (linspace v a b n) = length v /\
  get1 dNaN (linspace v a b n) i =
    if decide (1 <= n <= Z.of_nat (length v) /\ Z.of_nat i < n)
    then dadd a (dmul (dlit (Z.of_nat i)) (ddiv (dsub b a) (dlit n)))
    else get1 dNaN v i.
Proof.
  unfold linspace.
  destruct ((Z.of_nat (length v) <? n) || (n <? 1)) eqn:Hguard.
  - split; [done|]. rewrite decide_False; [done|].
    apply orb_true_iff in Hguard as [Hg|Hg]; lia.
  - apply orb_false_iff in Hguard as [Hg1 Hg2].
    destruct (fill_loop dNaN
                (fun i => dadd a (dmul (dlit (Z.of_nat i))
                                       (ddiv (dsub b a) (dlit n))))
                (Z.to_nat n) v i) as [Hlen Hget]; [lia|].
    split; [exact Hlen|]. rewrite Hget.
    destruct (decide (i < Z.to_nat n)%nat), (decide _); try done; lia.
Qed.

(** X1.  [HoofAux::linspace] keeps the length of the vector.  When
    [1 <= n <= vec.size()] the first [n] elements become
    [a + i*((b - a)/n)] and the others are kept; for every other [n] the
    vector is returned as it was. *)
Theorem linspace_fills (v : list D) (a b : D) (n : Z) (i : nat) :
  length (linspace v a b n) = length v /\
  get1 dNaN (linspace v a b n) i =
    if decide (1 <= n <= Z.of_nat (length v) /\ Z.of_nat i < n)
    then dadd a (dmul (dlit (Z.of_nat i)) (ddiv (dsub b a) (dlit n)))
    else get1 dNaN v i.
Proof. apply linspace_elements. Qed.

End Linspace.

(** * nanminmax: the bounds are attained *)

Lemma scanned_step (acc : xdouble * xdouble) (P : xdouble -> Prop)
    (v : xdouble) :
  isinf v = false -> scanned acc P ->
  scanned (minmax_step acc v) (fun x => P x \/ x = v).
Proof.
  intros Hv [[-> Hnan]|(mn & mx & -> & Hmn & Hmx & Hb)];
    destruct v as [|s|q]; try discriminate; unfold minmax_step; simpl.
  - left. split; [done|]. intros x [Hx| ->]; [by apply Hnan|done].
  - right. exists q, q. split; [done|]. split; [by right|].
    split; [by right|]. intros q' [Hq'|Hq'].
    + by apply Hnan in Hq'.
    + injection Hq' as ->. split; apply Qle_refl.
  - right. exists mn, mx. split; [done|]. split; [by left|].
    split; [by left|]. intros q' [Hq'|Hq']; [by apply Hb|done].
  - right.
    destruct (Hb mn Hmn) as [_ Hmnmx].
    destruct (Qlt_le_dec q mn) as [Hlo|Hlo], (Qlt_le_dec mx q) as [Hhi|Hhi].
    + exfalso. lra.
    + exists q, mx. split; [done|]. split; [by right|]. split; [by left|].
      intros q' [Hq'|Hq'].
      * destruct (Hb q' Hq'). split; lra.
      * injection Hq' as ->. split; lra.
    + exists mn, q. split; [done|]. split; [by left|]. split; [by right|].
      intros q' [Hq'|Hq'].
      * destruct (Hb q' Hq'). split; lra.
      * injection Hq' as ->. split; lra.
    + exists mn, mx. split; [done|]. split; [by left|]. split; [by left|].
      intros q' [Hq'|Hq'].
      * by apply Hb.
      * injection Hq' as ->. split; lra.
Qed.

Lemma scanned_iff (acc : xdouble * xdouble) (P Q : xdouble -> Prop) :
  (forall v, P v <-> Q v) -> scanned acc P -> scanned acc Q.
Proof.
  intros HPQ [[-> Hnan]|(mn & mx & -> & Hmn & Hmx & Hb)].
  - left. split; [done|]. intros v Hv. by apply Hnan, HPQ.
  - right. exists mn, mx. split; [done|]. split; [by apply HPQ|].
    split; [by apply HPQ|]. intros q Hq. by apply Hb, HPQ.
Qed.

Lemma scanned_row (row : list xdouble) (acc : xdouble * xdouble)
    (P : xdouble -> Prop) :
  (forall v, v ∈ row -> isinf v = false) -> scanned acc P ->
  scanned (foldl minmax_step acc row) (fun x => P x \/ x ∈ row).
Proof.
  induction row as [|v row IH] using rev_ind; intros Hrow Hacc.
  - simpl. eapply scanned_iff; [|exact Hacc].
    intros v. split; [by left|]. intros [Hv|Hv]; [done|].
    by apply elem_of_nil in Hv.
  - rewrite foldl_snoc.
    eapply scanned_iff; [|apply scanned_step; [|apply IH; [|exact Hacc]]].
    + intros x. rewrite elem_of_app, list_elem_of_singleton. tauto.
    + apply Hrow. rewrite elem_of_app, list_elem_of_singleton. by right.
    + intros x Hx. apply Hrow. rewrite elem_of_app. by left.
Qed.

Lemma scanned_field (el : list (list xdouble)) (acc : xdouble * xdouble)
    (P : xdouble -> Prop) :
  (forall row v, row ∈ el -> v ∈ row -> isinf v = false) ->
  scanned acc P ->
  scanned (foldl (foldl minmax_step) acc el)
          (fun x => P x \/ exists row, row ∈ el /\ x ∈ row).
Proof.
  induction el as [|row el IH] using rev_ind; intros Hel Hacc.
  - simpl. eapply scanned_iff; [|exact Hacc].
    intros v. split; [by left|]. intros [Hv|(row & Hrow & _)]; [done|].
    by apply elem_of_nil in Hrow.
  - rewrite foldl_snoc.
    eapply scanned_iff; [|apply scanned_row; [|apply IH; [|exact Hacc]]].
    + intros x. split.
      * intros [[Hx|(r & Hr & Hx)]|Hx].
        -- by left.
        -- right. exists r. split; [|done]. rewrite elem_of_app. by left.
        -- right. exists row. split; [|done].
           rewrite elem_of_app, list_elem_of_singleton. by right.
      * intros [Hx|(r & Hr & Hx)]; [by left; left|].
        apply elem_of_app in Hr as [Hr|Hr].
        -- left. right. by exists r.
        -- apply list_elem_of_singleton in Hr as ->. by right.
    + intros v Hv. apply (Hel row); [|done].
      rewrite elem_of_app, list_elem_of_singleton. by right.
    + intros r v Hr Hv. apply (Hel r); [|done]. rewrite elem_of_app.
      by left.
Qed.

Lemma isallnan2_cells {D : Type} `{Double D} (el : list (list D)) :
  isallnan2 el = true <->
  forall row v, row ∈ el -> v ∈ row -> isnan v = true.
Proof.
  unfold isallnan2. rewrite forallb_forall. split.
  - intros Hall row v Hrow Hv.
    specialize (Hall row (proj1 (list_elem_of_In _ _) Hrow)).
    rewrite forallb_forall in Hall. apply Hall.
    by apply list_elem_of_In.
  - intros Hall row Hrow. apply forallb_forall. intros v Hv.
    apply (Hall row); by apply list_elem_of_In.
Qed.

(** X4.  On the exact numbers, for a field without infinities that holds
    a value: [HoofAux::nanminmax] returns two values of the field, and
    every value of the field lies between them. *)
Theorem nanminmax2_attained (el : list (list xdouble)) :
  (forall row v, row ∈ el -> v ∈ row -> isinf v = false) ->
  isallnan2 el = false ->
  exists mn mx,
    nanminmax2 el = (XFin mn, XFin mx) /\
    (exists row, row ∈ el /\ XFin mn ∈ row) /\
    (exists row, row ∈ el /\ XFin mx ∈ row) /\
    forall row q, row ∈ el -> XFin q ∈ row -> (mn <= q)%Q /\ (q <= mx)%Q.
Proof.
  intros Hfin Hdata. unfold nanminmax2.
  destruct (scanned_field el (dInf, dopp dInf) (fun _ => False) Hfin)
    as [[_ Hnan]|(mn & mx & -> & Hmn & Hmx & Hb)].
  - left. split; [done|]. by intros v [].
  - exfalso. assert (isallnan2 el = true) as Hall; [|congruence].
    apply isallnan2_cells. intros row v Hrow Hv.
    rewrite (Hnan v); [done|]. right. by exists row.
  - exists mn, mx. split; [done|].
    destruct Hmn as [[]|Hmn], Hmx as [[]|Hmx].
    split; [done|]. split; [done|].
    intros row q Hrow Hq. apply Hb. right. by exists row.
Qed.

(** X4, applied to a field of three values and a NaN. *)
Lemma nanminmax2_attained_witness :
  let el := [[XFin 1; XNaN]; [XFin 3; XFin 2]] in
  exists mn mx,
    nanminmax2 el = (XFin mn, XFin mx) /\
    (exists row, row ∈ el /\ XFin mn ∈ row) /\
    (exists row, row ∈ el /\ XFin mx ∈ row) /\
    forall row q, row ∈ el -> XFin q ∈ row -> (mn <= q)%Q /\ (q <= mx)%Q.
Proof.
  apply (nanminmax2_attained [[XFin 1; XNaN]; [XFin 3; XFin 2]]).
  - intros row v Hrow Hv.
    repeat (apply elem_of_cons in Hrow as [->|Hrow]);
      [| |by apply elem_of_nil in Hrow];
      repeat (apply elem_of_cons in Hv as [->|Hv]);
      try reflexivity; by apply elem_of_nil in Hv.
  - reflexivity.
Defined.

Section NoData.
Context {D : Type} `{Double D}.

(** The data written for a field of NaN. *)
Lemma write_field_all_nan (nodataRaw : Z) (el : list (list D)) :
  isallnan2 el = true ->
  write_field nodataRaw el =
  (dlit 1, dlit 0, map (map (fun _ => nodataRaw)) el).
Proof.
  intros Hall. unfold write_field, quant_params. rewrite Hall. simpl.
  f_equal. apply map_ext_in. intros row Hrow.
  apply map_ext_in. intros v Hv.
  rewrite (proj1 (isallnan2_cells el) Hall row v); [done| |];
    by apply list_elem_of_In.
Qed.

(** X5.  A field without a value (every cell a NaN, or no cell at all) is
    written with the gain 1, the offset 0 and the nodata byte in every
    cell. *)
Theorem write_field_no_data (nodataRaw : Z) (el : list (list D)) :
  isallnan2 el = true ->
  write_field nodataRaw el =
  (dlit 1, dlit 0, map (map (fun _ => nodataRaw)) el).
Proof. apply write_field_all_nan. Qed.

End NoData.

(** X5, applied to a field of two NaN cells. *)
Lemma write_field_no_data_witness :
  write_field (D:=float) 255 [[dNaN; dNaN]] =
  (dlit 1, dlit 0, [[255; 255]]).
Proof.
  apply (write_field_no_data (D:=float) 255 [[dNaN; dNaN]]). reflexivity.
Defined.

(** * dealias: the cells without a value, and the nearest multiple *)

Section DealiasCells.
Context {D : Type} `{DoubleLaws D}.

(** Every cell of [dvrads] after the second loop nest of [dealias]. *)
Lemma dealias_unfold_obs (st : HoofDealiaser D) (ns : list (list (list Z)))
    (a b c : nat) :
  get3 dNaN (dealias_unfold st ns) a b c =
  if decide (in_range (vrad (dl_data st)) a b c)
  then unfold_upd st ns a b c dNaN else dNaN.
Proof.
  set (m := vrad (dl_data st)).
  set (dv0 := vec (nel m) (vec (nazMax m) (vec (nrMax m) (dNaN : D)))).
  assert (Hdv0 : get3 dNaN dv0 a b c = dNaN).
  { unfold dv0. by destruct (get3_vec (dNaN : D) dNaN (nel m) (nazMax m)
                               (nrMax m) a b c). }
  destruct (sweep_obs (Z.to_nat (nel m)) (naz_at m) (nr_at m)
              (unfold_body st ns) (fun dv a b c => get3 dNaN dv a b c)
              (unfold_upd st ns) (cube_shaped m)) with (s := dv0)
    (a := a) (b := b) (c := c) as [_ Hobs].
  - intros i j k dv Hdv. unfold unfold_body.
    destruct (negb _); [|done]. by apply cube_shaped_set3.
  - intros i j k dv Hdv _ _ _. unfold unfold_body, unfold_upd. fold m.
    destruct (decide (in_cube m i j k)) as [Hin|Hout].
    + destruct (negb _); [|done]. apply get3_set3_same. by apply Hdv.
    + destruct (negb _); [|done]. rewrite set3_unallocated; [done|].
      intros Ha. by apply Hout, Hdv.
  - intros i j k dv i' j' k' Hne. unfold unfold_body.
    destruct (negb _); [|done]. by apply get3_set3_other.
  - apply cube_shaped_vec.
  - unfold dealias_unfold. fold m dv0.
    etransitivity; [exact Hobs|]. rewrite Hdv0.
    unfold visited, in_range. by destruct (decide _).
Qed.

(** X6.  [dealias] leaves NaN in [dvrads] at every bin outside the rays
    and gates of its elevation, at every bin without a measurement and at
    every bin whose D quantity is NaN. *)
Theorem dealias_leaves_nan (s : HoofSettings D) (st : HoofDealiaser D)
    (i j k : nat) :
  ~ in_range (vrad (dl_data st)) i j k \/
  isnan (get3 dNaN (meas (vrad (dl_data st))) i j k) = true \/
  isnan (get3 dNaN (dl_Ds st) i j k) = true ->
  isnan (get3 dNaN (dvrads (dl_data (dealias s st))) i j k) = true.
Proof.
  intros Hcase.
  change (dvrads (dl_data (dealias s st)))
    with (dealias_unfold st (snd (dealias_search s st))).
  rewrite dealias_unfold_obs.
  destruct (decide (in_range (vrad (dl_data st)) i j k)) as [Hin|Hout];
    [|apply isnan_dNaN].
  unfold unfold_upd. destruct (decide _); [|apply isnan_dNaN].
  destruct Hcase as [Hc|[Hc|Hc]]; [done| |]; rewrite Hc.
  - apply isnan_dNaN.
  - rewrite orb_true_r. apply isnan_dNaN.
Qed.

End DealiasCells.

(** X6, applied to a bin beyond the two gates of S3. *)
Lemma dealias_leaves_nan_witness :
  let s := S3_settings (D:=float) in
  let st := S3_dealiaser (D:=float) in
  isnan (get3 dNaN (dvrads (dl_data (dealias s st))) 0 1 5) = true.
Proof.
  apply (dealias_leaves_nan (D:=float) S3_settings S3_dealiaser 0 1 5).
  left. unfold in_range. vm_compute. lia.
Defined.

(** ** On the exact numbers *)

Lemma fold_distance_exact (mq vq wq : Q) (n : Z) :
  fold_distance (XFin mq) (XFin vq) (XFin wq) n =
  XFin (Qabs (mq + inject_Z 2 * vq * inject_Z n + - wq)).
Proof. reflexivity. Qed.

Lemma unfolded_exact (mq vq : Q) (n : Z) :
  unfolded (XFin mq) (XFin vq) n =
  XFin (mq + inject_Z 2 * inject_Z n * vq).
Proof. reflexivity. Qed.

Lemma xleb_intro (a b : Q) : (a <= b)%Q -> xleb (XFin a) (XFin b) = true.
Proof.
  intros Hab. simpl. destruct (Qlt_le_dec b a) as [Hlt|]; [|done].
  exfalso. exact (Qlt_not_le _ _ Hlt Hab).
Qed.

Lemma xltb_false_le (a b : Q) : xltb (XFin a) (XFin b) = false -> (b <= a)%Q.
Proof. simpl. by destruct (Qlt_le_dec a b). Qed.

(** The multiplier the search keeps for a bin with a measurement and a
    model: it lies in [-N, N] and no multiplier of that range is nearer. *)
Lemma bin_search_exact (mq vq wq : Q) (N : Z) :
  0 <= N ->
  let k := snd (bin_search (XFin mq) (XFin vq) (XFin wq) N) in
  - N <= k <= N /\
  forall n, - N <= n <= N ->
    (Qabs (mq + inject_Z 2 * vq * inject_Z k + - wq) <=
     Qabs (mq + inject_Z 2 * vq * inject_Z n + - wq))%Q.
Proof.
  intros HN k.
  destruct (bin_search_searched (XFin mq) (XFin vq) (XFin wq) N)
    as [Hall [[Hinf _]|(Hk & Hbest & _ & _)]]; [done|done| |].
  - exfalso. specialize (Hall 0). rewrite Hinf in Hall.
    rewrite fold_distance_exact in Hall.
    assert (Hf : false = true -> False) by discriminate.
    apply Hf. rewrite <- Hall; [reflexivity|lia].
  - fold k in Hk, Hbest. split; [lia|]. intros n Hn.
    specialize (Hall n). rewrite Hbest, !fold_distance_exact in Hall.
    apply xltb_false_le. apply Hall. lia.
Qed.

(** The cell of [dvrads] of a bin with a measurement, whose D quantity is
    not NaN. *)
Lemma dealias_exact_cell (s : HoofSettings xdouble)
    (st : HoofDealiaser xdouble) (i j k : nat) (mq vq wq : Q) :
  in_range (vrad (dl_data st)) i j k ->
  in_cube (vrad (dl_data st)) i j k ->
  get3 dNaN (meas (vrad (dl_data st))) i j k = XFin mq ->
  get1 dNaN (vnys (vrad (dl_data st))) i = XFin vq ->
  get3 dNaN (wModels (dl_data st)) i j k = XFin wq ->
  isnan (get3 dNaN (dl_Ds st) i j k) = false ->
  get3 dNaN (dvrads (dl_data (dealias s st))) i j k =
  XFin (mq + inject_Z 2
             * inject_Z (snd (bin_search (XFin mq) (XFin vq) (XFin wq)
                                         (nymax_of s st))) * vq).
Proof.
  intros Hr Hc Hm Hv Hw HD.
  change (dvrads (dl_data (dealias s st)))
    with (dealias_unfold st (snd (dealias_search s st))).
  rewrite (dealias_unfold_bin st _ i j k Hr Hc).
  pose proof (dealias_search_bin s st i j k Hr Hc) as Hbin.
  rewrite Hm, Hv, Hw in Hbin. rewrite Hm, Hv, HD.
  apply (f_equal snd) in Hbin. simpl in Hbin. rewrite Hbin.
  reflexivity.
Qed.

(** X7.  On the exact numbers, for a bin with a measurement [m], a model
    [wm] and a D quantity that is not NaN: [dealias] writes
    [m + 2*n0*vny] for a multiplier [n0] of [-N .. N], and no
    [m + 2*n*vny] with [n] in that range is nearer to the model. *)
Theorem dealias_nearest_to_model (s : HoofSettings xdouble)
    (st : HoofDealiaser xdouble) (i j k : nat) (mq vq wq : Q) :
  let m := get3 dNaN (meas (vrad (dl_data st))) i j k in
  let vny := get1 dNaN (vnys (vrad (dl_data st))) i in
  let wm := get3 dNaN (wModels (dl_data st)) i j k in
  let dv := get3 dNaN (dvrads (dl_data (dealias s st))) i j k in
  in_range (vrad (dl_data st)) i j k ->
  in_cube (vrad (dl_data st)) i j k ->
  m = XFin mq -> vny = XFin vq -> wm = XFin wq ->
  isnan (get3 dNaN (dl_Ds st) i j k) = false ->
  0 <= nymax_of s st ->
  exists n0,
    - nymax_of s st <= n0 <= nymax_of s st /\
    dv = unfolded m vny n0 /\
    forall n, - nymax_of s st <= n <= nymax_of s st ->
      dleb (dabs (dsub dv wm)) (dabs (dsub (unfolded m vny n) wm)) = true.
Proof.
  intros m vny wm dv Hr Hc Hm Hv Hw HD HN.
  destruct (bin_search_exact mq vq wq (nymax_of s st) HN) as [Hk Hmin].
  set (n0 := snd (bin_search (XFin mq) (XFin vq) (XFin wq) (nymax_of s st)))
    in *.
  exists n0. split; [done|].
  assert (Hdv : dv = XFin (mq + inject_Z 2 * inject_Z n0 * vq)).
  { unfold dv. by rewrite (dealias_exact_cell s st i j k mq vq wq). }
  rewrite Hdv, Hm, Hv, Hw. split; [by rewrite unfolded_exact|].
  intros n Hn. rewrite unfolded_exact.
  apply (xleb_intro (Qabs (mq + inject_Z 2 * inject_Z n0 * vq + - wq))
                    (Qabs (mq + inject_Z 2 * inject_Z n * vq + - wq))).
  specialize (Hmin n Hn).
  rewrite (Qabs_wd (mq + inject_Z 2 * inject_Z n0 * vq + - wq)
                   (mq + inject_Z 2 * vq * inject_Z n0 + - wq)) by ring.
  rewrite (Qabs_wd (mq + inject_Z 2 * inject_Z n * vq + - wq)
                   (mq + inject_Z 2 * vq * inject_Z n + - wq)) by ring.
  exact Hmin.
Qed.

(** A bin of measurement 0 with the model -30 under the Nyquist velocity
    10 and [maxWind = 40], on the exact numbers. *)
Lemma tie_bin_exact :
  let s := tie_settings (D:=xdouble) in
  let st := tie_dealiaser (D:=xdouble) in
  in_range (vrad (dl_data st)) 0 0 0 /\ in_cube (vrad (dl_data st)) 0 0 0 /\
  get3 dNaN (meas (vrad (dl_data st))) 0 0 0 = XFin 0 /\
  get1 dNaN (vnys (vrad (dl_data st))) 0 = XFin 10 /\
  get3 dNaN (wModels (dl_data st)) 0 0 0 = XFin (-30) /\
  isnan (get3 dNaN (dl_Ds st) 0 0 0) = false /\
  nymax_of s st = 4.
Proof.
  unfold in_range, in_cube. vm_compute.
  repeat split; try reflexivity; lia.
Qed.

(** X7, applied to that bin. *)
Lemma dealias_nearest_to_model_witness :
  let s := tie_settings (D:=xdouble) in
  let st := tie_dealiaser (D:=xdouble) in
  let m := get3 dNaN (meas (vrad (dl_data st))) 0 0 0 in
  let vny := get1 dNaN (vnys (vrad (dl_data st))) 0 in
  let wm := get3 dNaN (wModels (dl_data st)) 0 0 0 in
  let dv := get3 dNaN (dvrads (dl_data (dealias s st))) 0 0 0 in
  exists n0,
    - nymax_of s st <= n0 <= nymax_of s st /\
    dv = unfolded m vny n0 /\
    forall n, - nymax_of s st <= n <= nymax_of s st ->
      dleb (dabs (dsub dv wm)) (dabs (dsub (unfolded m vny n) wm)) = true.
Proof.
  destruct tie_bin_exact as (Hr & Hc & Hm & Hv & Hw & HD & HN).
  apply (dealias_nearest_to_model tie_settings tie_dealiaser 0 0 0
           0 10 (-30) Hr Hc Hm Hv Hw HD).
  rewrite HN. lia.
Defined.

(** * calculateWindModels *)

Section WindModels.
Context {D : Type} `{DoubleLaws D}.

(** The loop over the sectors keeps every property of the cells of
    [wModels] that NaN has and that the writes of a sector keep. *)
Lemma calculateWindModels_inv (P : vector3D D -> Prop)
    (multifit : list (D * D * D) -> D * D) (s : HoofSettings D)
    (st : HoofDealiaser D) :
  P (vec (nel (vrad (dl_data st)))
       (vec (nazMax (vrad (dl_data st)))
          (vec (nrMax (vrad (dl_data st))) dNaN))) ->
  (forall w z idxs i vm,
     zIdxs (dl_data st) !! z = Some idxs ->
     minGoodPoints s <= Z.of_nat (length idxs) ->
     (i < length idxs)%nat ->
     dltb (dabs vm) (maxWind s) = true -> P w ->
     P (set3 w (get1 (0, 0, 0)%nat idxs i).1.1 (get1 (0, 0, 0)%nat idxs i).1.2
             (get1 (0, 0, 0)%nat idxs i).2 vm)) ->
  P (wModels (dl_data (calculateWindModels multifit s st))).
Proof.
  intros Hinit Hstep. unfold calculateWindModels. simpl.
  apply for_nat_inv; [exact Hinit|].
  intros z w Hz Hw.
  destruct (lookup_lt_is_Some_2 (zIdxs (dl_data st)) z Hz) as [idxs Hidxs].
  rewrite (get1_lookup [] idxs _ z Hidxs).
  destruct (minGoodPoints s <=? Z.of_nat (length idxs)) eqn:Hgood; [|done].
  apply Z.leb_le in Hgood.
  destruct (multifit _) as [u v].
  apply for_nat_inv; [exact Hw|].
  intros i w' Hi Hw'.
  specialize (Hstep w' z idxs i).
  destruct (get1 (0, 0, 0)%nat idxs i) as [[iel iaz] ir]. simpl in Hstep.
  destruct (dltb _ _) eqn:Hlt; [|done].
  by apply Hstep.
Qed.

(** X10.  After [calculateWindModels] every cell of [wModels] is NaN or a
    model velocity below [maxWind] in absolute value. *)
Theorem wind_models_below_maxWind
    (multifit : list (D * D * D) -> D * D) (s : HoofSettings D)
    (st : HoofDealiaser D) (i j k : nat) :
  let w := get3 dNaN (wModels (dl_data (calculateWindModels multifit s st)))
                i j k in
  isnan w = true \/ dltb (dabs w) (maxWind s) = true.
Proof.
  revert i j k.
  apply (calculateWindModels_inv
           (fun w => forall i j k,
              isnan (get3 dNaN w i j k) = true \/
              dltb (dabs (get3 dNaN w i j k)) (maxWind s) = true)).
  - intros i j k. left.
    destruct (get3_vec (dNaN : D) dNaN (nel (vrad (dl_data st)))
                (nazMax (vrad (dl_data st))) (nrMax (vrad (dl_data st)))
                i j k) as [-> | ->]; apply isnan_dNaN.
  - intros w z idxs n vm _ _ _ Hvm Hw i j k.
    destruct (get3_set3_cases dNaN vm w
                (get1 (0, 0, 0)%nat idxs n).1.1
                (get1 (0, 0, 0)%nat idxs n).1.2
                (get1 (0, 0, 0)%nat idxs n).2 i j k) as [-> | [_ ->]].
    + apply Hw.
    + by right.
Qed.

(** X11.  A bin gets a wind model only from a height sector that lists it
    and holds at least [minGoodPoints] bins: a bin that only sectors with
    fewer bins list, or no sector at all, keeps NaN in [wModels]. *)
Theorem wind_models_need_points
    (multifit : list (D * D * D) -> D * D) (s : HoofSettings D)
    (st : HoofDealiaser D) (a b c : nat) :
  (forall z idxs, zIdxs (dl_data st) !! z = Some idxs -> (a, b, c) ∈ idxs ->
                  Z.of_nat (length idxs) < minGoodPoints s) ->
  isnan (get3 dNaN (wModels (dl_data (calculateWindModels multifit s st)))
              a b c) = true.
Proof.
  intros Hfew.
  apply (calculateWindModels_inv
           (fun w => isnan (get3 dNaN w a b c) = true)).
  - destruct (get3_vec (dNaN : D) dNaN (nel (vrad (dl_data st)))
                (nazMax (vrad (dl_data st))) (nrMax (vrad (dl_data st)))
                a b c) as [-> | ->]; apply isnan_dNaN.
  - intros w z idxs n vm Hz Hgood Hn _ Hw.
    rewrite get3_set3_other; [exact Hw|].
    intros Heq.
    destruct (lookup_lt_is_Some_2 idxs n Hn) as [t Ht].
    rewrite (get1_lookup _ t idxs n Ht) in Heq.
    assert (Hin : (a, b, c) ∈ idxs).
    { rewrite Heq. destruct t as [[? ?] ?]. simpl.
      by apply (list_elem_of_lookup_2 idxs n). }
    specialize (Hfew z idxs Hz Hin).
    apply (Z.lt_irrefl (minGoodPoints s)).
    eapply Z.le_lt_trans; [exact Hgood|exact Hfew].
Qed.

End WindModels.

(** X10, applied to the bins of S3. *)
Lemma wind_models_below_maxWind_witness :
  let s := S3_settings (D:=float) in
  let w := get3 dNaN
             (wModels (dl_data (calculateWindModels steady_fit s
                                  S3_dealiaser))) 0 1 1 in
  isnan w = true \/ dltb (dabs w) (maxWind s) = true.
Proof.
  exact (wind_models_below_maxWind (D:=float) steady_fit S3_settings
           S3_dealiaser 0 1 1).
Defined.

(** X11, applied to S3 with one sector of two bins, where
    [minGoodPoints] is 100. *)
Lemma wind_models_need_points_witness :
  isnan (get3 dNaN
           (wModels (dl_data (calculateWindModels steady_fit
                                (S3_settings (D:=float)) S3_sectored)))
           0 1 1) = true.
Proof.
  apply (wind_models_need_points (D:=float) steady_fit S3_settings
           S3_sectored 0 1 1).
  intros z idxs Hz _. destruct z as [|z]; [|by destruct z].
  injection Hz as <-. vm_compute. reflexivity.
Defined.

(** * determineHeightSectors *)

(** A loop nest over the bins that collects: an invariant indexed by the
    set of the bins visited so far. *)
Section SweepCollect.
Context {S : Type}.
Variables (n1 : nat) (n2 n3 : nat -> nat).
Variable body : nat -> nat -> nat -> S -> S.
Variable I : (nat -> nat -> nat -> Prop) -> S -> Prop.
Hypothesis I_iff : forall (P Q : nat -> nat -> nat -> Prop) s,
  (forall a b c, P a b c <-> Q a b c) -> I P s -> I Q s.
Hypothesis I_body : forall (P : nat -> nat -> nat -> Prop) i j k s,
  (i < n1)%nat -> (j < n2 i)%nat -> (k < n3 i)%nat -> I P s ->
  I (fun a b c => P a b c \/ (a, b, c) = (i, j, k)) (body i j k s).

Lemma collect_row (P : nat -> nat -> nat -> Prop) (i j K : nat) (s : S) :
  (i < n1)%nat -> (j < n2 i)%nat -> (K <= n3 i)%nat -> I P s ->
  I (fun a b c => P a b c \/ (a = i /\ b = j /\ (c < K)%nat))
    (for_nat K (body i j) s).
Proof.
  intros Hi Hj. induction K as [|K IH]; intros HK Hs.
  - rewrite for_nat_0. eapply I_iff; [|exact Hs].
    intros a b c. split; [by left|]. intros [?|(_ & _ & ?)]; [done|lia].
  - rewrite for_nat_S. eapply I_iff; [|apply I_body; [done|done|lia|]].
    2: { apply IH; [lia|done]. }
    intros a b c. simpl. split.
    + intros [[HP|(-> & -> & Hc)]|Heq].
      * by left.
      * right. repeat split; lia.
      * injection Heq as -> -> ->. right. repeat split; lia.
    + intros [HP|(-> & -> & Hc)]; [by left; left|].
      destruct (decide (c = K)) as [->|Hne]; [by right|].
      left. right. repeat split; lia.
Qed.

Lemma collect_plane (P : nat -> nat -> nat -> Prop) (i J : nat) (s : S) :
  (i < n1)%nat -> (J <= n2 i)%nat -> I P s ->
  I (fun a b c => P a b c \/ (a = i /\ (b < J)%nat /\ (c < n3 i)%nat))
    (for_nat J (fun j => for_nat (n3 i) (body i j)) s).
Proof.
  intros Hi. induction J as [|J IH]; intros HJ Hs.
  - rewrite for_nat_0. eapply I_iff; [|exact Hs].
    intros a b c. split; [by left|]. intros [?|(_ & ? & _)]; [done|lia].
  - rewrite for_nat_S.
    eapply I_iff;
      [|apply (collect_row
                 (fun a b c => P a b c \/
                    (a = i /\ (b < J)%nat /\ (c < n3 i)%nat))
                 i J (n3 i)); [done|lia|lia|]].
    2: { apply IH; [lia|done]. }
    intros a b c. simpl. split.
    + intros [[HP|(-> & Hb & Hc)]|(-> & -> & Hc)].
      * by left.
      * right. repeat split; lia.
      * right. repeat split; lia.
    + intros [HP|(-> & Hb & Hc)]; [by left; left|].
      destruct (decide (b = J)) as [->|Hne]; [by right|].
      left. right. repeat split; lia.
Qed.

Lemma sweep_collect (s : S) :
  I (fun _ _ _ => False) s -> I (visited n1 n2 n3) (sweep n1 n2 n3 body s).
Proof.
  intros Hs. unfold sweep.
  assert (Hall : forall N, (N <= n1)%nat ->
            I (fun a b c => (a < N)%nat /\ (b < n2 a)%nat /\ (c < n3 a)%nat)
              (for_nat N (fun i => for_nat (n2 i)
                                     (fun j => for_nat (n3 i) (body i j))) s)).
  { induction N as [|N IH]; intros HN.
    - rewrite for_nat_0. eapply I_iff; [|exact Hs].
      intros a b c. split; [done|]. intros [? _]. lia.
    - rewrite for_nat_S.
      eapply I_iff;
        [|apply (collect_plane
                   (fun a b c => (a < N)%nat /\ (b < n2 a)%nat /\
                                 (c < n3 a)%nat)
                   N (n2 N)); [lia|lia|]].
      2: { apply IH. lia. }
      intros a b c. simpl. split.
      + intros [(Ha & Hb & Hc)|(-> & Hb & Hc)]; repeat split; try done; lia.
      + intros (Ha & Hb & Hc).
        destruct (decide (a = N)) as [->|Hne]; [by right|].
        left. repeat split; try done; lia. }
  apply (Hall n1). lia.
Qed.

End SweepCollect.

Section HeightSectors.
Context {D : Type} `{Double D}.

Lemma get1_alter {A : Type} (d : A) (f : A -> A) (v : list A) (i j : nat) :
  (i < length v)%nat ->
  get1 d (alter f i v) j = if decide (i = j) then f (get1 d v j)
                           else get1 d v j.
Proof.
  intros Hi. unfold get1. rewrite list_lookup_alter.
  destruct (decide (i = j)) as [->|]; [|done].
  by destruct (lookup_lt_is_Some_2 v j Hi) as [x ->].
Qed.

Lemma sectors_hold_body (s : HoofSettings D) (st : HoofDealiaser D)
    (P : nat -> nat -> nat -> Prop) (i j k : nat)
    (acc : option (list (list Triple))) :
  sectors_hold s st P acc ->
  sectors_hold s st (fun a b c => P a b c \/ (a, b, c) = (i, j, k))
    (zI ← acc;
     let z := get3 dNaN (zs (vrad (dl_data st))) i j k in
     if eligible z (get3 dNaN (meas (vrad (dl_data st))) i j k)
                 (get3 dNaN (dl_Ds st) i j k) (sector_ceiling s (dl_data st))
     then push_sector zI (sector_index s (dl_data st) z) (i, j, k)
     else Some zI).
Proof.
  intros Hacc zI' HzI'. destruct acc as [zI|]; [|discriminate].
  destruct (Hacc zI eq_refl) as (Hlen & Hbound & Hmem).
  simpl in HzI'.
  fold (bin_eligible s st i j k) in HzI'.
  fold (bin_sector s st i j k) in HzI'.
  destruct (bin_eligible s st i j k) eqn:Helig.
  - unfold push_sector in HzI'.
    destruct ((0 <=? bin_sector s st i j k)
              && (bin_sector s st i j k <? Z.of_nat (length zI)))
      eqn:Hin; [|discriminate].
    injection HzI' as <-.
    apply andb_true_iff in Hin as [Hlo Hhi].
    apply Z.leb_le in Hlo. apply Z.ltb_lt in Hhi.
    rewrite length_alter. split; [done|]. split.
    + intros a b c [HP|Heq] He; [by apply Hbound|].
      injection Heq as -> -> ->. lia.
    + intros n a b c. rewrite get1_alter by lia.
      destruct (decide (Z.to_nat (bin_sector s st i j k) = n)) as [Hn|Hn].
      * rewrite elem_of_app, list_elem_of_singleton, Hmem. split.
        -- intros [(HP & He & Hs)|Heq]; [by repeat split; [left|..]|].
           injection Heq as -> -> ->. repeat split; [by right|done|lia].
        -- intros ([HP|Heq] & He & Hs); [by left|by right].
      * rewrite Hmem. split.
        -- intros (HP & He & Hs). by repeat split; [left|..].
        -- intros ([HP|Heq] & He & Hs); [done|].
           injection Heq as -> -> ->. lia.
  - injection HzI' as <-. split; [done|]. split.
    + intros a b c [HP|Heq] He; [by apply Hbound|].
      injection Heq as -> -> ->. congruence.
    + intros n a b c. rewrite Hmem. split.
      * intros (HP & He & Hs). by repeat split; [left|..].
      * intros ([HP|Heq] & He & Hs); [done|].
        injection Heq as -> -> ->. congruence.
Qed.

(** The parts of the state [determineHeightSectors] returns. *)
Lemma determineHeightSectors_parts (s : HoofSettings D)
    (st st' : HoofDealiaser D) :
  determineHeightSectors s st = Some st' ->
  let d := dl_data st in
  let nl := sector_count s d in
  let zS := for_nat (Z.to_nat nl)
              (fun n v => <[n := dadd (height d)
                                      (dmul (dlit (Z.of_nat n))
                                            (zSectorSize s))]> v)
              (vec nl (dlit 0)) in
  0 <= nl /\
  exists zI,
    sectors_hold s st (in_range (vrad d)) (Some zI) /\
    st' = dl_with_data
            (data_with_sectors zS
               (for_nat (Z.to_nat nl)
                  (fun n v => <[n := dadd (get1 dNaN zS n) (zSectorSize s)]> v)
                  (vec nl (dlit 0)))
               zI d) st.
Proof.
  intros Hsome d nl zS. unfold determineHeightSectors in Hsome.
  fold d nl in Hsome.
  destruct (nl <? 0) eqn:Hnl; [discriminate|]. apply Z.ltb_ge in Hnl.
  split; [done|].
  match type of Hsome with
  | (mbind _ ?loop) = _ => destruct loop as [zI|] eqn:Hloop
  end; [|discriminate].
  simpl in Hsome. injection Hsome as <-.
  exists zI. split; [|reflexivity].
  rewrite <- Hloop.
  apply (sweep_collect (Z.to_nat (nel (vrad d))) (naz_at (vrad d))
           (nr_at (vrad d))
           (fun i j k acc =>
              zI ← acc;
              let z := get3 dNaN (zs (vrad d)) i j k in
              if eligible z (get3 dNaN (meas (vrad d)) i j k)
                          (get3 dNaN (dl_Ds st) i j k) (sector_ceiling s d)
              then push_sector zI (sector_index s d z) (i, j, k)
              else Some zI)
           (sectors_hold s st)).
  - intros P Q acc HPQ Hacc zI0 HzI0.
    destruct (Hacc zI0 HzI0) as (Hlen & Hbound & Hmem).
    split; [done|]. split.
    + intros a b c HQ. apply Hbound. by apply HPQ.
    + intros n a b c. rewrite Hmem. by rewrite HPQ.
  - intros P i j k acc _ _ _. apply sectors_hold_body.
  - intros zI0 HzI0. injection HzI0 as <-. fold d nl.
    split; [apply length_vec|]. split; [done|].
    intros n a b c. rewrite get1_vec.
    split; [|by intros [[] _]].
    destruct (decide _); intros Hin; by apply elem_of_nil in Hin.
Qed.

(** The sectors [determineHeightSectors] lays out. *)
Lemma determineHeightSectors_layout (s : HoofSettings D)
    (st st' : HoofDealiaser D) (n : nat) :
  determineHeightSectors s st = Some st' ->
  let d := dl_data st in
  let d' := dl_data st' in
  let nl := sector_count s d in
  0 <= nl /\
  length (zStarts d') = Z.to_nat nl /\
  length (zEnds d') = Z.to_nat nl /\
  length (zIdxs d') = Z.to_nat nl /\
  vrad d' = vrad d /\ dl_Ds st' = dl_Ds st /\
  ((n < Z.to_nat nl)%nat ->
   get1 dNaN (zStarts d') n =
     dadd (height d) (dmul (dlit (Z.of_nat n)) (zSectorSize s)) /\
   get1 dNaN (zEnds d') n = dadd (get1 dNaN (zStarts d') n) (zSectorSize s)).
Proof.
  intros Hsome d d' nl.
  destruct (determineHeightSectors_parts s st st' Hsome)
    as (Hnl & zI & HzI & Hst').
  fold d nl in Hnl, HzI, Hst'.
  destruct (HzI zI eq_refl) as (Hlen & _ & _).
  unfold d'. rewrite Hst'. simpl.
  set (f := fun n : nat => dadd (height d)
                             (dmul (dlit (Z.of_nat n)) (zSectorSize s))).
  set (zS := for_nat (Z.to_nat nl) (fun n v => <[n := f n]> v)
               (vec nl (dlit 0))).
  assert (HzS : forall i, length zS = Z.to_nat nl /\
            get1 dNaN zS i = if decide (i < Z.to_nat nl)%nat then f i
                             else get1 dNaN (vec nl (dlit 0)) i).
  { intros i.
    destruct (fill_loop dNaN f (Z.to_nat nl) (vec nl (dlit 0)) i)
      as [H1 H2]; [by rewrite length_vec|].
    rewrite length_vec in H1. done. }
  destruct (fill_loop dNaN (fun n => dadd (get1 dNaN zS n) (zSectorSize s))
              (Z.to_nat nl) (vec nl (dlit 0)) n) as [HE1 HE2];
    [by rewrite length_vec|].
  rewrite length_vec in HE1.
  split; [done|]. split; [apply (HzS O)|]. split; [done|]. split; [done|].
  split; [done|]. split; [done|].
  intros Hn. destruct (HzS n) as [_ Hget].
  rewrite decide_True in Hget by done. split; [exact Hget|].
  rewrite decide_True in HE2 by done. exact HE2.
Qed.

(** X12.  When [determineHeightSectors] completes there are [nl] height
    sectors, [nl] being [(int)((zmax - height)/dz) + 1]; the sector [n]
    starts at [height + n*dz] and ends [dz] above its start; the
    measurements and the D quantity are as before. *)
Theorem height_sectors_layout (s : HoofSettings D)
    (st st' : HoofDealiaser D) (n : nat) :
  determineHeightSectors s st = Some st' ->
  let d := dl_data st in
  let d' := dl_data st' in
  let nl := sector_count s d in
  0 <= nl /\
  length (zStarts d') = Z.to_nat nl /\
  length (zEnds d') = Z.to_nat nl /\
  length (zIdxs d') = Z.to_nat nl /\
  vrad d' = vrad d /\ dl_Ds st' = dl_Ds st /\
  ((n < Z.to_nat nl)%nat ->
   get1 dNaN (zStarts d') n =
     dadd (height d) (dmul (dlit (Z.of_nat n)) (zSectorSize s)) /\
   get1 dNaN (zEnds d') n = dadd (get1 dNaN (zStarts d') n) (zSectorSize s)).
Proof. apply determineHeightSectors_layout. Qed.

(** X13.  When [determineHeightSectors] completes, the sector [n] lists
    exactly the bins within the rays and gates of their elevation that
    are eligible (height, measurement and D not NaN, height below the
    ceiling) and whose sector index [(int)((z - height)/dz)] is [n]. *)
Theorem height_sectors_membership (s : HoofSettings D)
    (st st' : HoofDealiaser D) (n i j k : nat) :
  determineHeightSectors s st = Some st' ->
  let d := dl_data st in
  let z := get3 dNaN (zs (vrad d)) i j k in
  (i, j, k) ∈ get1 [] (zIdxs (dl_data st')) n <->
  in_range (vrad d) i j k /\
  eligible z (get3 dNaN (meas (vrad d)) i j k) (get3 dNaN (dl_Ds st) i j k)
           (sector_ceiling s d) = true /\
  sector_index s d z = Z.of_nat n.
Proof.
  intros Hsome d z.
  destruct (determineHeightSectors_parts s st st' Hsome)
    as (Hnl & zI & HzI & Hst').
  destruct (HzI zI eq_refl) as (_ & _ & Hmem).
  rewrite Hst'. simpl. apply Hmem.
Qed.

End HeightSectors.

(** X12, applied to S3: one sector, from the height 0 of the site to 100. *)
Lemma height_sectors_layout_witness :
  exists st',
    determineHeightSectors (D:=float) S3_settings S3_dealiaser = Some st' /\
    length (zStarts (dl_data st')) = 1%nat /\
    length (zIdxs (dl_data st')) = 1%nat /\
    get1 dNaN (zStarts (dl_data st')) 0 = 0%float /\
    get1 dNaN (zEnds (dl_data st')) 0 = 100%float.
Proof.
  destruct (determineHeightSectors (D:=float) S3_settings S3_dealiaser)
    as [st'|] eqn:Hsome; [|vm_compute in Hsome; discriminate].
  exists st'. split; [done|].
  destruct (height_sectors_layout (D:=float) S3_settings S3_dealiaser st'
              O Hsome) as (_ & H1 & _ & H3 & _ & _ & H6).
  split; [exact H1|]. split; [exact H3|].
  destruct H6 as [H6 H7]; [vm_compute; lia|].
  split; [exact H6|]. rewrite H7, H6. reflexivity.
Defined.

(** X13, applied to S3: the bin (0, 1, 0) is listed in the sector 0. *)
Lemma height_sectors_membership_witness :
  exists st',
    determineHeightSectors (D:=float) S3_settings S3_dealiaser = Some st' /\
    (0, 1, 0)%nat ∈ get1 [] (zIdxs (dl_data st')) 0.
Proof.
  destruct (determineHeightSectors (D:=float) S3_settings S3_dealiaser)
    as [st'|] eqn:Hsome; [|vm_compute in Hsome; discriminate].
  exists st'. split; [done|].
  apply (height_sectors_membership (D:=float) S3_settings S3_dealiaser st'
           0 0 1 0 Hsome).
  unfold in_range. vm_compute. repeat split; try reflexivity; lia.
Defined.

(** * The roll of the superober *)

Lemma for_nat_ext {S : Type} (n : nat) (f g : nat -> S -> S) (s : S) :
  (forall i t, (i < n)%nat -> f i t = g i t) ->
  for_nat n f s = for_nat n g s.
Proof.
  induction n as [|n IH]; intros Hfg; [reflexivity|].
  rewrite !for_nat_S, IH by (intros; apply Hfg; lia).
  apply Hfg. lia.
Qed.

Lemma sweep_ext {S : Type} (n1 : nat) (n2 n3 : nat -> nat)
    (f g : nat -> nat -> nat -> S -> S) (s : S) :
  (forall i j k t, (i < n1)%nat -> (j < n2 i)%nat -> (k < n3 i)%nat ->
                   f i j k t = g i j k t) ->
  sweep n1 n2 n3 f s = sweep n1 n2 n3 g s.
Proof.
  intros Hfg. unfold sweep.
  apply for_nat_ext. intros i t Hi.
  apply for_nat_ext. intros j t' Hj.
  apply for_nat_ext. intros k t'' Hk. by apply Hfg.
Qed.

Lemma box_shaped_vec {A : Type} (n1 n2 n3 : Z) (x : A) :
  box_shaped n1 n2 n3 (vec n1 (vec n2 (vec n3 x))).
Proof. intros a b c. apply allocated_vec. Qed.

Lemma box_shaped_set3 {A : Type} (n1 n2 n3 : Z) (v : list (list (list A)))
    (i j k : nat) (x : A) :
  box_shaped n1 n2 n3 v -> box_shaped n1 n2 n3 (set3 v i j k x).
Proof. intros Hv a b c. rewrite allocated_set3. apply Hv. Qed.

Lemma rolled_ray_lt (zmax Naz : Z) (j : nat) :
  0 <= zmax <= Naz -> (j < Z.to_nat Naz)%nat ->
  (rolled_ray zmax Naz j < Z.to_nat Naz)%nat.
Proof.
  intros Hz Hj. unfold rolled_ray.
  destruct (Naz <=? Z.of_nat j + zmax) eqn:Hwrap; lia.
Qed.

Lemma rolled_ray_inj (zmax Naz : Z) (j j' : nat) :
  0 <= zmax <= Naz -> (j < Z.to_nat Naz)%nat -> (j' < Z.to_nat Naz)%nat ->
  rolled_ray zmax Naz j = rolled_ray zmax Naz j' -> j = j'.
Proof.
  intros Hz Hj Hj'. unfold rolled_ray.
  destruct (Naz <=? Z.of_nat j + zmax) eqn:Hw,
           (Naz <=? Z.of_nat j' + zmax) eqn:Hw'; lia.
Qed.

Lemma rolled_ray_mod (zmax Naz : Z) (j : nat) :
  0 <= zmax <= Naz -> (j < Z.to_nat Naz)%nat ->
  rolled_ray zmax Naz j = Z.to_nat ((Z.of_nat j + zmax) mod Naz).
Proof.
  intros Hz Hj. unfold rolled_ray. f_equal.
  destruct (Naz <=? Z.of_nat j + zmax) eqn:Hw.
  - apply Z.leb_le in Hw.
    apply (Z.mod_unique_pos _ _ 1); lia.
  - apply Z.leb_gt in Hw. symmetry. apply Z.mod_small. lia.
Qed.

Section Roll.
Context {D : Type} `{Double D}.

Lemma roll_from_sweep (x0 : D) (zmax Nel Naz Nr : Z)
    (old : list (list (list D))) :
  roll_from x0 zmax Nel Naz Nr old =
  sweep (Z.to_nat Nel) (fun _ => Z.to_nat Naz) (fun _ => Z.to_nat Nr)
        (roll_body zmax Naz old) (vec Nel (vec Naz (vec Nr x0))).
Proof.
  unfold roll_from.
  change (for_nat (Z.to_nat Nel) _ (vec Nel (vec Naz (vec Nr x0))))
    with (sweep (Z.to_nat Nel) (fun _ => Z.to_nat Naz) (fun _ => Z.to_nat Nr)
            (fun i j k m =>
               set3 m i (rolled_ray zmax Naz j) k (get3 dNaN old i j k))
            (vec Nel (vec Naz (vec Nr x0)))).
  apply sweep_ext. intros i j k t _ Hj _. unfold roll_body.
  by rewrite decide_True by done.
Qed.

(** The cells of the rolled cube. *)
Lemma roll_from_cells (x0 : D) (zmax Nel Naz Nr : Z)
    (old : list (list (list D))) (i j k : nat) :
  0 <= zmax <= Naz ->
  (i < Z.to_nat Nel)%nat -> (j < Z.to_nat Naz)%nat -> (k < Z.to_nat Nr)%nat ->
  box_shaped Nel Naz Nr (roll_from x0 zmax Nel Naz Nr old) /\
  get3 dNaN (roll_from x0 zmax Nel Naz Nr old) i (rolled_ray zmax Naz j) k =
  get3 dNaN old i j k.
Proof.
  intros Hz Hi Hj Hk. rewrite roll_from_sweep.
  destruct (sweep_obs (Z.to_nat Nel) (fun _ => Z.to_nat Naz)
              (fun _ => Z.to_nat Nr) (roll_body zmax Naz old)
              (fun m a b c =>
                 if decide (b < Z.to_nat Naz)%nat
                 then get3 dNaN m a (rolled_ray zmax Naz b) c else dNaN)
              (fun a b c _ => get3 dNaN old a b c)
              (box_shaped Nel Naz Nr))
    with (s := vec Nel (vec Naz (vec Nr x0))) (a := i) (b := j) (c := k)
    as [Hshape Hobs].
  - intros a b c m Hm. unfold roll_body.
    destruct (decide _); [|done]. by apply box_shaped_set3.
  - intros a b c m Hm Ha Hb Hc. unfold roll_body.
    rewrite !decide_True by done.
    apply get3_set3_same. apply Hm.
    split; [done|]. split; [by apply rolled_ray_lt|done].
  - intros a b c m a' b' c' Hne. unfold roll_body.
    destruct (decide (b' < Z.to_nat Naz)%nat) as [Hb'|]; [|done].
    destruct (decide (b < Z.to_nat Naz)%nat) as [Hb|]; [|done].
    apply get3_set3_other. intros Heq. apply Hne.
    injection Heq as -> Hray ->.
    by rewrite (rolled_ray_inj zmax Naz b' b Hz Hb' Hb Hray).
  - apply box_shaped_vec.
  - split; [exact Hshape|].
    rewrite decide_True in Hobs by done. rewrite Hobs.
    unfold visited. by rewrite decide_True by done.
Qed.

(** X15.  The roll of the superober is a rotation of the rays: for
    [0 <= zmax <= Naz], the ray [j] of the source cube is the ray
    [(j + zmax) mod Naz] of the rolled cube, in every elevation and at
    every gate.  [roll] is the roll of the measurements, [roll_from] with
    0.0 the roll of the DBZ qualities. *)
Theorem roll_rotates_rays (x0 : D) (zmax Nel Naz Nr : Z)
    (old : list (list (list D))) (i j k : nat) :
  0 <= zmax <= Naz ->
  (i < Z.to_nat Nel)%nat -> (j < Z.to_nat Naz)%nat -> (k < Z.to_nat Nr)%nat ->
  get3 dNaN (roll zmax Nel Naz Nr old) i
       (Z.to_nat ((Z.of_nat j + zmax) mod Naz)) k = get3 dNaN old i j k /\
  get3 dNaN (roll_from x0 zmax Nel Naz Nr old) i
       (Z.to_nat ((Z.of_nat j + zmax) mod Naz)) k = get3 dNaN old i j k.
Proof.
  intros Hz Hi Hj Hk. rewrite <- rolled_ray_mod by done.
  split.
  - change (roll zmax Nel Naz Nr old)
      with (roll_from dNaN zmax Nel Naz Nr old).
    by apply roll_from_cells.
  - by apply roll_from_cells.
Qed.

End Roll.

(** X15, applied to the 3 rays of S6 rolled by 1: the ray 2 becomes the
    ray 0. *)
Lemma roll_rotates_rays_witness :
  get3 dNaN (roll 1 1 3 3 (S6_cube (D:=float))) 0
       (Z.to_nat ((Z.of_nat 2 + 1) mod 3)) 2
    = get3 dNaN (S6_cube (D:=float)) 0 2 2 /\
  get3 dNaN (roll_from 0%float 1 1 3 3 (S6_cube (D:=float))) 0
       (Z.to_nat ((Z.of_nat 2 + 1) mod 3)) 2
    = get3 dNaN (S6_cube (D:=float)) 0 2 2.
Proof.
  apply (roll_rotates_rays (D:=float) 0%float 1 1 3 3 S6_cube 0 2 2); lia.
Defined.

(** * The cells of the superobed cubes *)

Lemma get3_vec_any {A : Type} (x : A) (n1 n2 n3 : Z) (a b c : nat) :
  get3 x (vec n1 (vec n2 (vec n3 x))) a b c = x.
Proof. by destruct (get3_vec x x n1 n2 n3 a b c). Qed.

Section SuperobCells.
Context {D : Type} `{Double D}.

(** The loop nest of the VRAD branch, cell by cell: the cell [(i, k, j)]
    of the two cubes holds the value of the coarse cell [(i, j, k)] if
    the loops visit it and the cubes hold it. *)
Lemma vrad_body_fills (cell : nat -> nat -> nat -> option D)
    (n1 : nat) (n2 n3 : nat -> nat) (N1 N2 N3 : Z) (i j k : nat) :
  let out := sweep n1 n2 n3 (vrad_body cell)
               (vec N1 (vec N2 (vec N3 dNaN)),
                vec N1 (vec N2 (vec N3 (dlit 0)))) in
  (get3 dNaN (fst out) i k j, get3 (dlit 0) (snd out) i k j) =
  if decide (visited n1 n2 n3 i j k /\
             (i < Z.to_nat N1 /\ k < Z.to_nat N2 /\ j < Z.to_nat N3)%nat)
  then match cell i j k with
       | Some avg => (avg, dlit 1)
       | None => (dNaN, dlit 0)
       end
  else (dNaN, dlit 0).
Proof.
  intros out.
  destruct (sweep_obs n1 n2 n3 (vrad_body cell)
              (fun acc a b c => (get3 dNaN (fst acc) a c b,
                                 get3 (dlit 0) (snd acc) a c b))
              (fun a b c x =>
                 if decide (a < Z.to_nat N1 /\ c < Z.to_nat N2 /\
                            b < Z.to_nat N3)%nat
                 then match cell a b c with
                      | Some avg => (avg, dlit 1)
                      | None => x
                      end
                 else x)
              (fun acc => box_shaped N1 N2 N3 (fst acc) /\
                          box_shaped N1 N2 N3 (snd acc)))
    with (s := (vec N1 (vec N2 (vec N3 (dNaN : D))),
                vec N1 (vec N2 (vec N3 (dlit 0 : D)))))
         (a := i) (b := j) (c := k) as [_ Hobs].
  - intros a b c acc [H1 H2]. unfold vrad_body.
    destruct (cell a b c); [|done]. simpl.
    split; by apply box_shaped_set3.
  - intros a b c acc [H1 H2] _ _ _. unfold vrad_body.
    destruct (decide _) as [Hin|Hout].
    + destruct (cell a b c); [|done]. simpl.
      rewrite !get3_set3_same; [done|by apply H2|by apply H1].
    + destruct (cell a b c); [|done]. simpl.
      rewrite !set3_unallocated; [done| |];
        intros Ha; apply Hout; [by apply H2|by apply H1].
  - intros a b c acc a' b' c' Hne. unfold vrad_body.
    destruct (cell a b c); [|done]. simpl.
    rewrite !get3_set3_other; [done| |]; intros Heq; apply Hne;
      by injection Heq as -> -> ->.
  - split; apply box_shaped_vec.
  - unfold out. rewrite Hobs. simpl. rewrite !get3_vec_any.
    destruct (decide (visited n1 n2 n3 i j k)) as [Hv|Hv].
    + destruct (decide (i < Z.to_nat N1 /\ k < Z.to_nat N2 /\
                        j < Z.to_nat N3)%nat) as [Hb|Hb].
      * by rewrite decide_True by done.
      * rewrite decide_False; [done|]. by intros [_ ?].
    + rewrite decide_False; [done|]. by intros [? _].
Qed.

(** The loop nest of the DBZ branch, cell by cell. *)
Lemma dbz_body_fills (cell : nat -> nat -> nat -> option (D * option D))
    (n1 : nat) (n2 n3 : nat -> nat) (N1 N2 N3 : Z) (i j k : nat) :
  let cube0 := vec N1 (vec N2 (vec N3 (dNaN : D))) in
  let out := sweep n1 n2 n3 (dbz_body cell) (cube0, cube0, cube0) in
  (get3 dNaN (fst (fst out)) i k j, get3 dNaN (snd (fst out)) i k j,
   get3 dNaN (snd out) i k j) =
  if decide (visited n1 n2 n3 i j k /\
             (i < Z.to_nat N1 /\ k < Z.to_nat N2 /\ j < Z.to_nat N3)%nat)
  then match cell i j k with
       | Some (v, t) => (v, default dNaN t, dlit 1)
       | None => (dNaN, dNaN, dNaN)
       end
  else (dNaN, dNaN, dNaN).
Proof.
  intros cube0 out.
  destruct (sweep_obs n1 n2 n3 (dbz_body cell)
              (fun acc a b c => (get3 dNaN (fst (fst acc)) a c b,
                                 get3 dNaN (snd (fst acc)) a c b,
                                 get3 dNaN (snd acc) a c b))
              (fun a b c (x : D * D * D) =>
                 if decide (a < Z.to_nat N1 /\ c < Z.to_nat N2 /\
                            b < Z.to_nat N3)%nat
                 then match cell a b c with
                      | Some (v, t) => (v, default (snd (fst x)) t, dlit 1)
                      | None => x
                      end
                 else x)
              (fun acc => box_shaped N1 N2 N3 (fst (fst acc)) /\
                          box_shaped N1 N2 N3 (snd (fst acc)) /\
                          box_shaped N1 N2 N3 (snd acc)))
    with (s := (cube0, cube0, cube0)) (a := i) (b := j) (c := k)
    as [_ Hobs].
  - intros a b c [[sm sth] sq] (H1 & H2 & H3). unfold dbz_body.
    simpl in H1, H2, H3.
    destruct (cell a b c) as [[v [t|]]|]; simpl;
      (split; [|split]); try done; by apply box_shaped_set3.
  - intros a b c [[sm sth] sq] (H1 & H2 & H3) _ _ _. unfold dbz_body.
    simpl in H1, H2, H3.
    destruct (decide _) as [Hin|Hout].
    + destruct (cell a b c) as [[v [t|]]|]; simpl; [| |done];
        rewrite !get3_set3_same; try done;
        first [by apply H1|by apply H2|by apply H3].
    + destruct (cell a b c) as [[v [t|]]|]; simpl; [| |done];
        rewrite !set3_unallocated; try done;
        intros Ha; apply Hout;
        first [by apply H1|by apply H2|by apply H3].
  - intros a b c [[sm sth] sq] a' b' c' Hne. unfold dbz_body.
    destruct (cell a b c) as [[v [t|]]|]; simpl; [| |done];
      rewrite !get3_set3_other; try done; intros Heq; apply Hne;
      by injection Heq as -> -> ->.
  - unfold cube0. simpl. (split; [|split]); apply box_shaped_vec.
  - unfold out. rewrite Hobs. unfold cube0. simpl. rewrite !get3_vec_any.
    destruct (decide (visited n1 n2 n3 i j k)) as [Hv|Hv].
    + destruct (decide (i < Z.to_nat N1 /\ k < Z.to_nat N2 /\
                        j < Z.to_nat N3)%nat) as [Hb|Hb].
      * rewrite decide_True by done. by destruct (cell i j k) as [[v t]|].
      * rewrite decide_False; [done|]. by intros [_ ?].
    + rewrite decide_False; [done|]. by intros [? _].
Qed.

(** X17.  The DBZ branch of [superob], cell by cell.  When it completes
    on a volume with DBZ elevations, the bin borders are those of
    [_calculateBinBorders] for DBZ and the coarse cell of the elevation
    [i], the coarse gate [j] and the coarse ray [k] (within the counts of
    its elevation and the padded sizes) holds in [sdbz.meas[i][k][j]],
    [sdbz.ths[i][k][j]] and [sdbz.quals[i][k][j]]: the value of its own
    window of source bins, the mean of TH if there is one and NaN
    otherwise, and the quality 1.0; or three NaN when no rule applies.
    Every other cell of the three cubes is NaN. *)
Theorem superob_dbz_cells (s : HoofSettings D) (st st' : HoofSuperober D)
    (i j k : nat) :
  let d := so_data st in
  let sd := sdbz d in
  let zmax := Z.quot (rayAngleFactor s - 1) 2 in
  let cell :=
    dbz_cell s (fst (nanminmax3 (meas (dbz d))))
      (roll zmax (nel (dbz d)) (nazMax (dbz d)) (nrMax (dbz d)) (meas (dbz d)))
      (roll zmax (nel (dbz d)) (nazMax (dbz d)) (nrMax (dbz d)) (ths (dbz d)))
      (roll_from (dlit 0) zmax (nel (dbz d)) (nazMax (dbz d)) (nrMax (dbz d))
                 (quals (dbz d)))
      i (get3 0 (so_startRayBorders st') i j k)
      (get3 0 (so_endRayBorders st') i j k)
      (get2 0 (so_rangeBorders st') i j)
      (get2 0 (so_rangeBorders st') i (j + 1)) in
  let sd' := sdbz (so_data st') in
  0 < nel (dbz d) ->
  superob_dbz s st = Some st' ->
  (exists sb, calculateBinBorders s DBZ st = Some sb /\
              so_rangeBorders st' = so_rangeBorders sb /\
              so_startRayBorders st' = so_startRayBorders sb /\
              so_endRayBorders st' = so_endRayBorders sb) /\
  (get3 dNaN (meas sd') i k j, get3 dNaN (ths sd') i k j,
   get3 dNaN (quals sd') i k j) =
  if decide ((i < Z.to_nat (nel sd) /\ j < Z.to_nat (get1 0%Z (nr sd) i) /\
              k < Z.to_nat (get1 0%Z (naz sd) i)) /\
             (i < Z.to_nat (nel sd) /\ k < Z.to_nat (nazMax sd) /\
              j < Z.to_nat (nrMax sd)))%nat
  then match cell with
       | Some (v, t) => (v, default dNaN t, dlit 1)
       | None => (dNaN, dNaN, dNaN)
       end
  else (dNaN, dNaN, dNaN).
Proof.
  intros d sd zmax cell sd' Hnel Hsome.
  unfold superob_dbz in Hsome. fold d zmax in Hsome.
  rewrite (proj2 (Z.ltb_lt 0 (nel (dbz d))) Hnel) in Hsome.
  destruct (calculateBinBorders s DBZ st) as [sb|] eqn:Hsb;
    [|discriminate].
  simpl in Hsome.
  assert (Hd : so_data sb = d).
  { unfold calculateBinBorders in Hsb.
    destruct (for_nat _ _ _) as [r|]; [|discriminate].
    simpl in Hsb. by injection Hsb as <-. }
  pose proof (dbz_body_fills
                (fun i j k =>
                   dbz_cell s (fst (nanminmax3 (meas (dbz d))))
                     (roll zmax (nel (dbz d)) (nazMax (dbz d))
                           (nrMax (dbz d)) (meas (dbz d)))
                     (roll zmax (nel (dbz d)) (nazMax (dbz d))
                           (nrMax (dbz d)) (ths (dbz d)))
                     (roll_from (dlit 0) zmax (nel (dbz d)) (nazMax (dbz d))
                                (nrMax (dbz d)) (quals (dbz d)))
                     i (get3 0 (so_startRayBorders sb) i j k)
                     (get3 0 (so_endRayBorders sb) i j k)
                     (get2 0 (so_rangeBorders sb) i j)
                     (get2 0 (so_rangeBorders sb) i (j + 1)))
                (Z.to_nat (nel (sdbz (so_data sb))))
                (fun i => Z.to_nat (get1 0 (nr (sdbz (so_data sb))) i))
                (fun i => Z.to_nat (get1 0 (naz (sdbz (so_data sb))) i))
                (nel (sdbz (so_data sb))) (nazMax (sdbz (so_data sb)))
                (nrMax (sdbz (so_data sb))) i j k) as Hfill.
  cbv zeta in Hfill.
  change (sweep _ _ _ _ _)
    with (dbz_cubes s sb (fst (nanminmax3 (meas (dbz d))))
            (roll zmax (nel (dbz d)) (nazMax (dbz d)) (nrMax (dbz d))
                  (meas (dbz d)))
            (roll zmax (nel (dbz d)) (nazMax (dbz d)) (nrMax (dbz d))
                  (ths (dbz d)))
            (roll_from (dlit 0) zmax (nel (dbz d)) (nazMax (dbz d))
                       (nrMax (dbz d)) (quals (dbz d)))) in Hfill.
  rewrite Hd in Hfill. fold sd in Hfill.
  destruct (dbz_cubes _ _ _ _ _ _) as [[sm sth] sq].
  injection Hsome as <-. split.
  - by exists sb.
  - exact Hfill.
Qed.

End SuperobCells.

Section SuperobVradCells.
Context {D : Type} `{Double D} `{DoubleSqrt D}.

(** X16.  The VRAD branch of [superob], cell by cell.  When it completes
    on a volume with VRAD elevations, the coarse cell of the elevation
    [i], the coarse gate [j] and the coarse ray [k] (within the counts of
    its elevation and the padded sizes) holds in [svrad.meas[i][k][j]] the
    value of its own window of source bins, with the quality 1.0, or NaN
    with the quality 0.0 when the window does not pass the two tests;
    every other cell is NaN with the quality 0.0. *)
Theorem superob_vrad_cells (s : HoofSettings D) (st st' : HoofSuperober D)
    (sm sq : list (list (list D))) (i j k : nat) :
  let d := so_data st in
  let sv := svrad d in
  let rolled :=
    roll (Z.quot (rayAngleFactor s - 1) 2) (nel (vrad d)) (nazMax (vrad d))
         (nrMax (vrad d)) (if dealiasing s then dvrads d else meas (vrad d)) in
  let cell :=
    vrad_cell s rolled i (get3 0 (so_startRayBorders st') i j k)
      (get3 0 (so_endRayBorders st') i j k)
      (get2 0 (so_rangeBorders st') i j)
      (get2 0 (so_rangeBorders st') i (j + 1)) in
  0 < nel (vrad d) ->
  superob_vrad s st = Some (st', sm, sq) ->
  calculateBinBorders s VRAD st = Some st' /\
  (get3 dNaN sm i k j, get3 (dlit 0) sq i k j) =
  if decide ((i < Z.to_nat (nel sv) /\ j < Z.to_nat (get1 0%Z (nr sv) i) /\
              k < Z.to_nat (get1 0%Z (naz sv) i)) /\
             (i < Z.to_nat (nel sv) /\ k < Z.to_nat (nazMax sv) /\
              j < Z.to_nat (nrMax sv)))%nat
  then match cell with
       | Some avg => (avg, dlit 1)
       | None => (dNaN, dlit 0)
       end
  else (dNaN, dlit 0).
Proof.
  intros d sv rolled cell Hnel Hsome.
  unfold superob_vrad in Hsome. fold d in Hsome.
  rewrite (proj2 (Z.ltb_lt 0 (nel (vrad d))) Hnel) in Hsome.
  destruct (calculateBinBorders s VRAD st) as [sb|] eqn:Hsb;
    [|discriminate].
  simpl in Hsome. injection Hsome as <- <- <-.
  split; [done|].
  exact (vrad_body_fills
           (fun i j k =>
              vrad_cell s rolled i (get3 0 (so_startRayBorders sb) i j k)
                (get3 0 (so_endRayBorders sb) i j k)
                (get2 0 (so_rangeBorders sb) i j)
                (get2 0 (so_rangeBorders sb) i (j + 1)))
           (Z.to_nat (nel sv))
           (fun i => Z.to_nat (get1 0 (nr sv) i))
           (fun i => Z.to_nat (get1 0 (naz sv) i))
           (nel sv) (nazMax sv) (nrMax sv) i j k).
Qed.

(** X18.  A coarse VRAD cell without a good bin (no measurement below
    1000000.0 in its window, NaN included) gets no superob when the share
    threshold [vradPercentage * N] is not negative; the mean, a division
    by [nGood], is not computed. *)
Theorem vrad_cell_without_good_bin (s : HoofSettings D)
    (meas : list (list (list D))) (i : nat)
    (startRay endRay startBin endBin : Z) :
  (forall l m, startRay <= l < endRay -> startBin <= m < endBin ->
     dltb (get3 dNaN meas i (Z.to_nat l) (Z.to_nat m)) (dlit 1000000)
     = false) ->
  dltb (dmul (vradPercentage s)
             (dlit ((endRay - startRay) * (endBin - startBin))))
       (dlit 0) = false ->
  vrad_sums meas i startRay endRay startBin endBin = (0, dlit 0, dlit 0) /\
  vrad_cell s meas i startRay endRay startBin endBin = None.
Proof.
  intros Hbad Hshare.
  assert (Hsums : vrad_sums meas i startRay endRay startBin endBin
                  = (0, dlit 0, dlit 0)).
  { unfold vrad_sums.
    apply (for_Z_inv (fun acc => acc = (0, dlit 0, dlit 0))); [done|].
    intros l acc Hl ->.
    apply (for_Z_inv (fun acc => acc = (0, dlit 0, dlit 0))); [done|].
    intros m acc Hm ->. by rewrite Hbad by lia. }
  split; [exact Hsums|].
  unfold vrad_cell. rewrite Hsums. simpl. by rewrite Hshare.
Qed.

End SuperobVradCells.

Section DbzCell.
Context {D : Type} `{Double D}.

(** X19.  A coarse DBZ cell without a bin of a quality above
    [minQuality] counts no wet and no dry bin, and gets no superob when
    the share threshold [dbzPercentage * N] is not negative. *)
Theorem dbz_cell_without_valid_bin (s : HoofSettings D) (dbzmin : D)
    (meas ths quals : list (list (list D))) (i : nat)
    (startRay endRay startBin endBin : Z) :
  (forall l m, startRay <= l < endRay -> startBin <= m < endBin ->
     dltb (minQuality s) (get3 dNaN quals i (Z.to_nat l) (Z.to_nat m))
     = false) ->
  dltb (dmul (dbzPercentage s)
             (dlit ((endRay - startRay) * (endBin - startBin))))
       (dlit 0) = false ->
  dbz_cell s dbzmin meas ths quals i startRay endRay startBin endBin = None.
Proof.
  intros Hbad Hshare.
  assert (Hsums : dbz_sums s meas ths quals i startRay endRay startBin endBin
                  = (0, 0, dlit 0, 0, dlit 0)).
  { unfold dbz_sums.
    apply (for_Z_inv (fun acc => acc = (0, 0, dlit 0, 0, dlit 0))); [done|].
    intros l acc Hl ->.
    apply (for_Z_inv (fun acc => acc = (0, 0, dlit 0, 0, dlit 0))); [done|].
    intros m acc Hm ->. by rewrite Hbad by lia. }
  unfold dbz_cell. rewrite Hsums. simpl. by rewrite Hshare.
Qed.

End DbzCell.

(** X16, applied to S6: the one coarse cell holds 1.0 with the quality
    1.0. *)
Lemma superob_vrad_cells_witness :
  let s := S6_settings (D:=float) in
  let st := prepareMetadata s S6_superober in
  exists st' sm sq,
    superob_vrad s st = Some (st', sm, sq) /\
    (get3 dNaN sm 0 0 0, get3 (dlit 0) sq 0 0 0) = (1%float, 1%float).
Proof.
  intros s st.
  destruct (superob_vrad s st) as [[[st' sm] sq]|] eqn:Hsome;
    [|vm_compute in Hsome; discriminate].
  exists st', sm, sq. split; [done|].
  destruct (superob_vrad_cells (D:=float) s st st' sm sq 0 0 0)
    as [_ Hcell]; [vm_compute; reflexivity|exact Hsome|].
  vm_compute in Hsome. injection Hsome as <- <- <-.
  etransitivity; [exact Hcell|]. vm_compute. reflexivity.
Defined.

(** X17, applied to the DBZ moment of 3 rays of 3 gates: the one coarse
    cell holds the reflectivity 20, the TH 25 and the quality 1. *)
Lemma superob_dbz_cells_witness :
  let s := S6_settings (D:=float) in
  let st := prepareMetadata s S6_dbz_superober in
  exists st',
    superob_dbz s st = Some st' /\
    (get3 dNaN (meas (sdbz (so_data st'))) 0 0 0,
     get3 dNaN (ths (sdbz (so_data st'))) 0 0 0,
     get3 dNaN (quals (sdbz (so_data st'))) 0 0 0)
    = (20%float, 25%float, 1%float).
Proof.
  intros s st.
  destruct (superob_dbz s st) as [st'|] eqn:Hsome;
    [|vm_compute in Hsome; discriminate].
  exists st'. split; [done|].
  destruct (superob_dbz_cells (D:=float) s st st' 0 0 0)
    as [_ Hcell]; [vm_compute; reflexivity|exact Hsome|].
  vm_compute in Hsome. injection Hsome as <-.
  etransitivity; [exact Hcell|]. vm_compute. reflexivity.
Defined.

(** X18, applied to a window of NaN. *)
Lemma vrad_cell_without_good_bin_witness :
  let cube := vec 1 (vec 3 (vec 3 (dNaN : float))) in
  vrad_sums cube 0 0 3 0 3 = (0, dlit 0, dlit 0) /\
  vrad_cell (S6_settings (D:=float)) cube 0 0 3 0 3 = None.
Proof.
  apply (vrad_cell_without_good_bin (D:=float) S6_settings
           (vec 1 (vec 3 (vec 3 dNaN))) 0 0 3 0 3).
  - intros l m _ _. by rewrite get3_vec_any.
  - reflexivity.
Defined.

(** X19, applied to a window of the quality 0. *)
Lemma dbz_cell_without_valid_bin_witness :
  let cube := vec 1 (vec 3 (vec 3 (dlit 20 : float))) in
  let quals := vec 1 (vec 3 (vec 3 (dNaN : float))) in
  dbz_cell (S6_settings (D:=float)) (dlit 20) cube cube quals 0 0 3 0 3
  = None.
Proof.
  apply (dbz_cell_without_valid_bin (D:=float) S6_settings (dlit 20)
           (vec 1 (vec 3 (vec 3 (dlit 20)))) (vec 1 (vec 3 (vec 3 (dlit 20))))
           (vec 1 (vec 3 (vec 3 dNaN))) 0 0 3 0 3).
  - intros l m _ _. by rewrite get3_vec_any.
  - reflexivity.
Defined.

(** * Reading a written dataset *)

Lemma lookup_map {A B : Type} (h : A -> B) (l : list A) (i : nat) :
  map h l !! i = h <$> (l !! i).
Proof.
  revert i. induction l as [|x l IH]; intros [|i]; simpl; try done.
Qed.

Lemma rect_map {A B : Type} (h : A -> B) (v : list (list A)) (n m : nat) :
  rect v n m -> rect (map (map h) v) n m.
Proof.
  intros [Hlen Hrows]. split; [by rewrite length_map|].
  intros i row Hrow. rewrite lookup_map in Hrow.
  destruct (v !! i) as [r|] eqn:Hr; [|done].
  injection Hrow as <-. rewrite length_map. by apply (Hrows i).
Qed.

Lemma rect_cell {A : Type} (v : list (list A)) (n m a b : nat) :
  rect v n m -> (a < n)%nat -> (b < m)%nat ->
  exists row x, v !! a = Some row /\ row !! b = Some x.
Proof.
  intros [Hlen Hrows] Ha Hb.
  destruct (lookup_lt_is_Some_2 v a) as [row Hrow]; [lia|].
  destruct (lookup_lt_is_Some_2 row b) as [x Hx].
  { rewrite (Hrows a row Hrow). lia. }
  by exists row, x.
Qed.

Lemma get2_cell {A : Type} (d x : A) (v : list (list A)) (row : list A)
    (a b : nat) :
  v !! a = Some row -> row !! b = Some x -> get2 d v a b = x.
Proof. intros Hrow Hx. unfold get2, get1. by rewrite Hrow; simpl; rewrite Hx. Qed.

Lemma get2_map {A B : Type} (d : A) (d' : B) (h : A -> B)
    (v : list (list A)) (n m a b : nat) :
  rect v n m -> (a < n)%nat -> (b < m)%nat ->
  get2 d' (map (map h) v) a b = h (get2 d v a b).
Proof.
  intros Hv Ha Hb.
  destruct (rect_cell v n m a b Hv Ha Hb) as (row & x & Hrow & Hx).
  rewrite (get2_cell d x v row a b Hrow Hx).
  apply (get2_cell d' (h x) _ (map h row)).
  - by rewrite lookup_map, Hrow.
  - by rewrite lookup_map, Hx.
Qed.

(** The loops [for i < n, for j < m: v[i][j] = f(i, j)] on a vector of
    [N >= n] rows of [M >= m] cells. *)
Lemma set2_fill_row {A : Type} (d : A) (f : nat -> A) (N M i m : nat)
    (v0 : list (list A)) (a b : nat) :
  rect v0 N M -> (i < N)%nat -> (m <= M)%nat ->
  let v := for_nat m (fun j v => set2 v i j (f j)) v0 in
  rect v N M /\
  get2 d v a b = if decide (a = i /\ b < m)%nat then f b else get2 d v0 a b.
Proof.
  intros Hv0 Hi. induction m as [|m IH]; intros Hm v.
  - unfold v. rewrite for_nat_0. split; [done|].
    rewrite decide_False; [done|]. lia.
  - unfold v. rewrite for_nat_S.
    destruct IH as [Hrect Hget]; [lia|].
    split; [by apply rect_set2|].
    destruct (decide ((a, b) = (i, m))) as [Heq|Hne].
    + injection Heq as -> ->.
      rewrite (get2_set2_same d _ _ N M) by (try done; lia).
      rewrite decide_True; [done|]. lia.
    + rewrite get2_set2_other by done. rewrite Hget.
      destruct (decide (a = i /\ (b < m)%nat)) as [[-> Hb]|Hn1].
      * rewrite decide_True; [done|]. lia.
      * rewrite decide_False; [done|]. intros [-> Hb]. apply Hn1.
        split; [done|]. destruct (decide (b = m)) as [->|]; [done|lia].
Qed.

Lemma set2_fill {A : Type} (d : A) (f : nat -> nat -> A) (N M n m : nat)
    (v0 : list (list A)) (a b : nat) :
  rect v0 N M -> (n <= N)%nat -> (m <= M)%nat ->
  let v := for_nat n (fun i => for_nat m (fun j v => set2 v i j (f i j))) v0 in
  rect v N M /\
  get2 d v a b = if decide (a < n /\ b < m)%nat then f a b
                 else get2 d v0 a b.
Proof.
  intros Hv0. induction n as [|n IH]; intros Hn Hm v.
  - unfold v. rewrite for_nat_0. split; [done|].
    rewrite decide_False; [done|]. lia.
  - unfold v. rewrite for_nat_S.
    destruct IH as [Hrect Hget]; [lia|done|].
    destruct (set2_fill_row d (f n) N M n m
                (for_nat n (fun i => for_nat m
                                       (fun j v => set2 v i j (f i j))) v0)
                a b Hrect) as [Hrect' Hget']; [lia|done|].
    split; [exact Hrect'|]. rewrite Hget', Hget.
    destruct (decide (a = n /\ (b < m)%nat)) as [[-> Hb]|Hn1].
    + rewrite decide_True; [done|]. lia.
    + destruct (decide (a < n /\ b < m)%nat) as [[Ha Hb]|Hn2].
      * rewrite decide_True; [done|]. lia.
      * rewrite decide_False; [done|]. intros [Ha Hb]. apply Hn2.
        split; [|done]. destruct (decide (a = n)) as [->|]; [|lia].
        exfalso. by apply Hn1.
Qed.

Section ReadCells.
Context {D : Type} `{Double D}.

(** The cells that [_fillHomDataDataset] fills from a dataset of [n] rows
    of [m] bytes. *)
Lemma fillHomDataDataset_cell (g o nodata undetect : D)
    (d : list (list Z)) (v0 : list (list D)) (N M n m a b : nat) :
  rect d n m -> rect v0 N M -> (n <= N)%nat -> (m <= M)%nat ->
  (a < n)%nat -> (b < m)%nat ->
  get2 dNaN (fillHomDataDataset g o nodata undetect d v0) a b =
  let x := dequantize g o (get2 0 d a b) in
  let y := if eqDbl x (dadd (dmul g nodata) o) then dNaN else x in
  if eqDbl y (dadd (dmul g undetect) o) then dNaN else y.
Proof.
  intros Hd Hv0 Hn Hm Ha Hb. unfold fillHomDataDataset.
  assert (Hlen : length d = n) by apply Hd.
  assert (Hrow0 : length (get1 [] d 0) = m).
  { destruct (rect_cell d n m 0 b Hd) as (row & _ & Hrow & _); [lia|done|].
    rewrite (get1_lookup [] row d 0 Hrow). by apply (proj2 Hd 0%nat). }
  rewrite Hlen, Hrow0.
  destruct (set2_fill dNaN (fun i j => dequantize g o (get2 0 d i j))
              N M n m v0 a b Hv0 Hn Hm) as [Hrect Hget].
  rewrite decide_True in Hget by done. unfold replace2.
  rewrite (get2_map dNaN dNaN _ _ N M) by (try done; try lia;
                                          by apply rect_map).
  rewrite (get2_map dNaN dNaN _ _ N M) by (try done; lia).
  by rewrite Hget.
Qed.

End ReadCells.

(** On binary64 the difference of a number and itself is +0. *)
Lemma float_sub_self (x : float) :
  PrimFloat.is_nan x = false -> PrimFloat.is_infinity x = false ->
  PrimFloat.sub x x = 0%float.
Proof.
  intros Hnan Hinf. apply Prim2SF_inj. rewrite FloatAxioms.sub_spec.
  unfold PrimFloat.is_nan in Hnan. unfold PrimFloat.is_infinity in Hinf.
  rewrite FloatAxioms.eqb_spec in Hnan.
  rewrite FloatAxioms.eqb_spec, FloatAxioms.abs_spec in Hinf.
  destruct (Prim2SF x) as [s|s| |s m e].
  - by destruct s.
  - by destruct s.
  - discriminate.
  - unfold SF64sub, SFsub. cbv zeta. by rewrite Z.sub_diag.
Qed.

(** On binary64 [eqDbl] finds a number equal to itself. *)
Lemma eqDbl_self (x : float) : is_finite x = true -> eqDbl x x = true.
Proof.
  unfold is_finite. intros Hfin. apply negb_true_iff, orb_false_iff in Hfin.
  destruct Hfin as [Hnan Hinf]. unfold eqDbl.
  change (dsub x x) with (PrimFloat.sub x x).
  by rewrite (float_sub_self x Hnan Hinf).
Qed.

(** X23.  The reader of a written dataset, on binary64: a cell of the
    dataset is read as [g*byte + o], or as NaN when [eqDbl] finds that
    value equal to [g*nodata + o] or to [g*undetect + o].  A byte that
    is the nodata or the undetect attribute is read as NaN whenever
    [g*byte + o] is a number. *)
Theorem read_back_cell (g o nodata undetect : float)
    (d : list (list Z)) (v0 : list (list float)) (N M n m a b : nat) :
  rect d n m -> rect v0 N M -> (n <= N)%nat -> (m <= M)%nat ->
  (a < n)%nat -> (b < m)%nat ->
  let byte := get2 0 d a b in
  let x := dequantize g o byte in
  let back := get2 dNaN (fillHomDataDataset g o nodata undetect d v0) a b in
  back = (if eqDbl x (dadd (dmul g nodata) o)
             || eqDbl x (dadd (dmul g undetect) o)
          then dNaN else x) /\
  (is_finite x = true -> dlit byte = nodata \/ dlit byte = undetect ->
   isnan back = true).
Proof.
  intros Hd Hv0 Hn Hm Ha Hb byte x back.
  assert (Hback : back = (if eqDbl x (dadd (dmul g nodata) o)
                             || eqDbl x (dadd (dmul g undetect) o)
                          then dNaN else x)).
  { unfold back.
    rewrite (fillHomDataDataset_cell g o nodata undetect d v0 N M n m a b)
      by done.
    cbv zeta. fold byte x.
    destruct (eqDbl x (dadd (dmul g nodata) o)); [|done].
    by destruct (eqDbl dNaN (dadd (dmul g undetect) o)). }
  split; [exact Hback|].
  intros Hfin Hbyte. rewrite Hback.
  assert (Hx : x = dadd (dmul g (dlit byte)) o) by reflexivity.
  destruct Hbyte as [<-|<-]; rewrite <- Hx, (eqDbl_self x Hfin).
  - reflexivity.
  - by rewrite orb_true_r.
Qed.

(** X23, applied to a row of the bytes 1, 255, 0 and 128 read with the
    gain 0.5, the offset 10, the nodata 255 and the undetect 0: the byte
    255 is read as NaN and the byte 128 as 74. *)
Lemma read_back_cell_witness :
  let d := [[1; 255; 0; 128]] in
  let v0 := vec 1 (vec 4 (dNaN : float)) in
  let back := fillHomDataDataset (D:=float) 0.5%float (dlit 10) (dlit 255)
                (dlit 0) d v0 in
  isnan (get2 dNaN back 0 1) = true /\ get2 dNaN back 0 3 = 74%float.
Proof.
  intros d v0 back. split.
  - destruct (read_back_cell 0.5%float (dlit 10) (dlit 255) (dlit 0) d v0
                1 4 1 4 0 1) as [_ Hnan].
    + split; [reflexivity|].
      intros [|i] row Hrow; [by injection Hrow as <-|discriminate].
    + apply rect_vec.
    + lia.
    + lia.
    + lia.
    + lia.
    + apply Hnan; [reflexivity|by left].
  - reflexivity.
Defined.

(** * The windows of the coarse cells *)

Lemma set_back_head (x h : Z) (rest : list Z) :
  0 < h -> 0 < x ->
  exists h' rest', set_back x (0 :: h :: rest) = 0 :: h' :: rest' /\ 0 < h'.
Proof.
  intros Hh Hx. unfold set_back. destruct rest as [|r rest].
  - exists x, []. by split.
  - exists h, (removelast (r :: rest) ++ [x]). by split.
Qed.

Section TierHead.
Context {D : Type} `{Double D}.

(** When the limit of the last tier is not 0, the list of the limits
    starts with 0 and a positive limit; every [z] of [0 .. zmax] is a sub
    ray factor. *)
Lemma tier_limits_head (L : D) (zmax : Z) (size : nat) :
  0 <= zmax -> tier_limit L zmax size zmax <> 0 -> (0 < size)%nat ->
  (exists h rest, fst (tier_limits L zmax size) = 0 :: h :: rest /\ 0 < h) /\
  length (snd (tier_limits L zmax size)) = Z.to_nat (zmax + 1).
Proof.
  intros Hz Hlast Hsize. unfold tier_limits.
  rewrite for_Z_for_nat.
  replace (Z.to_nat (zmax + 1 - 0)) with (S (Z.to_nat zmax)) by lia.
  set (body := fun (i : nat) (acc : list Z * list Z) =>
                 let '(limIdxs, facSubs) := acc in
                 let newFac := 2 * (zmax - (0 + Z.of_nat i)) + 1 in
                 let limIdx := clamp_limit (lim_index L newFac) size in
                 let limIdxs := if negb (limIdx =? back limIdxs)
                                then limIdxs ++ [limIdx] else limIdxs in
                 (limIdxs, facSubs ++ [0 + Z.of_nat i])).
  assert (Hinv : forall I,
            let acc := for_nat I body ([0], []) in
            (fst acc = [0] \/
             exists h rest, fst acc = 0 :: h :: rest /\ 0 < h) /\
            length (snd acc) = I).
  { induction I as [|I [IH1 IH2]]; cbv zeta.
    - rewrite for_nat_0. split; [by left|done].
    - rewrite for_nat_S. destruct (for_nat I body ([0], [])) as [li fs].
      cbn [fst snd] in *. unfold body. cbv beta iota zeta.
      cbn [fst snd].
      split; [|rewrite length_app; simpl; lia].
      set (lim := clamp_limit _ size).
      pose proof (clamp_limit_range
                    (lim_index L (2 * (zmax - (0 + Z.of_nat I)) + 1)) size)
        as Hrange.
      fold lim in Hrange.
      destruct (negb (lim =? back li)) eqn:Hpush.
      + destruct IH1 as [->|(h & rest & -> & Hh)].
        * right. exists lim, []. split; [done|].
          apply negb_true_iff, Z.eqb_neq in Hpush.
          unfold back in Hpush. simpl in Hpush. lia.
        * right. exists h, (rest ++ [lim]). by split.
      + exact IH1. }
  specialize (Hinv (Z.to_nat zmax)) as Hprev. cbv zeta in Hprev.
  rewrite for_nat_S.
  destruct (for_nat (Z.to_nat zmax) body ([0], [])) as [li fs].
  cbn [fst snd] in Hprev. destruct Hprev as [Hli Hfs].
  unfold body. cbv beta iota zeta.
  replace (0 + Z.of_nat (Z.to_nat zmax)) with zmax by lia.
  fold (tier_limit L zmax size zmax).
  set (lim := tier_limit L zmax size zmax) in *.
  assert (Hrange : 0 <= lim <= Z.of_nat size) by apply clamp_limit_range.
  assert (Hhead : exists h rest,
            (if negb (lim =? back li) then li ++ [lim] else li)
            = 0 :: h :: rest /\ 0 < h).
  { destruct Hli as [->|(h & rest & -> & Hh)].
    - unfold back. simpl.
      rewrite (proj2 (Z.eqb_neq lim 0)) by done. simpl.
      exists lim, []. split; [done|lia].
    - destruct (negb _).
      + exists h, (rest ++ [lim]). by split.
      + by exists h, rest. }
  destruct Hhead as (h & rest & Heq & Hh). rewrite Heq.
  cbn [fst snd]. split.
  - destruct (lt_size (back (0 :: h :: rest)) size).
    + apply set_back_head; lia.
    + by exists h, rest.
  - rewrite length_app, Hfs. simpl. lia.
Qed.

End TierHead.

(** The pick of [currFacSub] is the former one or the index of a tier. *)
Lemma tier_lookup_range (limIdxs facSubs : list Z) (j cur c' : Z) :
  (forall k, (k < length facSubs)%nat -> get1 0 facSubs k = Z.of_nat k) ->
  tier_lookup limIdxs facSubs j cur = Some c' ->
  c' = cur \/ 0 <= c' < Z.of_nat (length facSubs).
Proof.
  intros Hfac. unfold tier_lookup. revert c'.
  apply (for_nat_ind
           (fun _ acc => forall c, acc = Some c ->
              c = cur \/ 0 <= c < Z.of_nat (length facSubs))).
  - intros c [= <-]. by left.
  - intros k acc Hk IH c Hc.
    destruct acc as [c0|]; [|discriminate]. cbn [mbind option_bind] in Hc.
    destruct (limIdxs !! k) as [lo|]; [|discriminate].
    cbn [mbind option_bind] in Hc.
    destruct (lo <=? j); [|injection Hc as <-; by apply IH].
    destruct (limIdxs !! (k + 1)%nat) as [hi|]; [|discriminate].
    cbn [mbind option_bind] in Hc.
    destruct (j <? hi); [|injection Hc as <-; by apply IH].
    injection Hc as <-. right. rewrite Hfac by done. lia.
Qed.

(** At the first coarse gate the pick is the index of a tier. *)
Lemma tier_lookup_first (h : Z) (rest facSubs : list Z) (cur c' : Z) :
  0 < h -> (0 < length facSubs)%nat ->
  (forall k, (k < length facSubs)%nat -> get1 0 facSubs k = Z.of_nat k) ->
  tier_lookup (0 :: h :: rest) facSubs 0 cur = Some c' ->
  0 <= c' < Z.of_nat (length facSubs).
Proof.
  intros Hh Hlen Hfac. unfold tier_lookup. revert c'.
  cut (forall K acc, (0 < K <= length facSubs)%nat ->
         for_nat K
           (fun k acc =>
              cur ← acc;
              lo ← (0 :: h :: rest) !! k;
              if lo <=? 0 then
                hi ← (0 :: h :: rest) !! (k + 1)%nat;
                if 0 <? hi then Some (get1 0 facSubs k) else Some cur
              else Some cur)
           (Some cur) = acc ->
         forall c, acc = Some c -> 0 <= c < Z.of_nat (length facSubs)).
  { intros Hcut c' Hc'. by eapply (Hcut (length facSubs)); [lia|..]. }
  induction K as [|K IH]; intros acc HK Hacc c Hc; [lia|].
  rewrite for_nat_S in Hacc.
  destruct (decide (K = O)) as [->|HK0].
  - rewrite for_nat_0 in Hacc. simpl in Hacc.
    rewrite (proj2 (Z.ltb_lt 0 h)) in Hacc by done.
    rewrite <- Hacc in Hc. injection Hc as <-.
    rewrite Hfac by lia. lia.
  - destruct (for_nat K _ (Some cur)) as [c0|] eqn:Hprev.
    2: { rewrite <- Hacc in Hc. discriminate. }
    specialize (IH (Some c0) ltac:(lia) eq_refl c0 eq_refl).
    rewrite <- Hacc in Hc. cbn [mbind option_bind] in Hc.
    destruct ((0 :: h :: rest) !! K) as [lo|]; [|discriminate].
    cbn [mbind option_bind] in Hc.
    destruct (lo <=? 0); [|by injection Hc as <-].
    destruct ((0 :: h :: rest) !! (K + 1)%nat) as [hi|]; [|discriminate].
    cbn [mbind option_bind] in Hc.
    destruct (0 <? hi); [|by injection Hc as <-].
    injection Hc as <-. rewrite Hfac by lia. lia.
Qed.

(** The rows of the ray borders are the original borders moved by the
    index of a tier. *)
Lemma ray_borders_tiers (h : Z) (rest facSubs origStart origEnd : list Z)
    (nsr nsaz : Z) (cs ce : list (list Z)) :
  0 < h -> (0 < length facSubs)%nat ->
  (forall k, (k < length facSubs)%nat -> get1 0 facSubs k = Z.of_nat k) ->
  ray_borders (0 :: h :: rest) facSubs origStart origEnd nsr nsaz
  = Some (cs, ce) ->
  exists f, rows_filled origStart origEnd (Z.to_nat nsaz) cs ce
                        (Z.to_nat nsr) f /\
            forall j, (j < Z.to_nat nsr)%nat ->
                      0 <= f j < Z.of_nat (length facSubs).
Proof.
  intros Hh Hlen Hfac Hrb. unfold ray_borders in Hrb.
  set (n := Z.to_nat nsr) in *. set (m := Z.to_nat nsaz) in *.
  match type of Hrb with
  | mbind _ (for_nat n ?body ?init) = _ =>
      assert (Hinv :
        forall J, (J <= n)%nat ->
          forall cs ce cur,
            for_nat J body init = Some (cs, ce, cur) ->
            rect cs n m /\ rect ce n m /\
            ((J = O /\ cur = -1) \/
             (J <> O /\ 0 <= cur < Z.of_nat (length facSubs))) /\
            exists f, rows_filled origStart origEnd m cs ce J f /\
                      forall j, (j < J)%nat ->
                                0 <= f j < Z.of_nat (length facSubs))
  end.
  { induction J as [|J IH]; intros HJ cs0 ce0 cur0 Hsome.
    - rewrite for_nat_0 in Hsome. injection Hsome as <- <- <-.
      split; [apply rect_vec|]. split; [apply rect_vec|].
      split; [by left|]. exists (fun _ => 0).
      split; [intros j k Hj; lia|]. intros; lia.
    - rewrite for_nat_S in Hsome.
      destruct (for_nat J _ _) as [[[cs1 ce1] cur1]|] eqn:Hprev;
        [|discriminate].
      destruct (IH ltac:(lia) cs1 ce1 cur1 eq_refl)
        as (R1 & R2 & Hcur & f & Hf & Hrange).
      cbn [mbind option_bind] in Hsome.
      destruct (tier_lookup (0 :: h :: rest) facSubs (Z.of_nat J) cur1)
        as [cur2|] eqn:Hlook; [|discriminate].
      cbn [mbind option_bind] in Hsome.
      assert (Hcur2 : 0 <= cur2 < Z.of_nat (length facSubs)).
      { destruct Hcur as [[-> ->]|[_ Hc1]].
        - by apply (tier_lookup_first h rest facSubs (-1)).
        - destruct (tier_lookup_range _ _ _ _ _ Hfac Hlook) as [->|]; done. }
      destruct (ray_row_filled
                  (fun k => get1 0 origStart k + cur2)
                  (fun k => get1 0 origEnd k - cur2)
                  n m J cs1 ce1 R1 R2 ltac:(lia))
        as (R1' & R2' & Hrow & Hoth).
      injection Hsome as Hpair <-.
      rewrite Hpair in R1', R2', Hrow, Hoth. cbn [fst snd] in *.
      split; [done|]. split; [done|]. split; [right; split; [lia|done]|].
      exists (fun j => if decide (j = J) then cur2 else f j).
      split.
      + intros j k Hj Hk. destruct (decide (j = J)) as [->|Hne].
        * by apply Hrow.
        * destruct (Hoth j k Hne) as [-> ->]. apply Hf; [lia|done].
      + intros j Hj. destruct (decide (j = J)) as [->|Hne]; [done|].
        apply Hrange. lia. }
  destruct (for_nat n _ _) as [[[cs0 ce0] cur0]|] eqn:Hloop;
    [|discriminate].
  cbn [mbind option_bind fst] in Hrb. injection Hrb as <- <-.
  destruct (Hinv n ltac:(lia) cs0 ce0 cur0 Hloop)
    as (_ & _ & _ & f & Hf & Hrange).
  by exists f.
Qed.

(** The limit of the last tier under an arc bound of one bin or more. *)
Lemma last_tier_limit (l : Q) (zmax : Z) (size : nat) :
  (1 <= l)%Q -> (0 < size)%nat -> tier_limit (XFin l) zmax size zmax <> 0.
Proof.
  intros Hl Hsize. unfold tier_limit.
  replace (2 * (zmax - zmax) + 1) with 1 by lia.
  rewrite lim_index_number by lia.
  assert (H0 : 0 <= Qfloor (l / inject_Z 1 + - inject_Z 1)).
  { apply Qfloor_nonneg. change (inject_Z 1) with 1%Q.
    assert (l / 1 == l)%Q by (field). lra. }
  unfold clamp_limit, ge_size.
  destruct ((_ <? 0) || _); lia.
Qed.

(** The ray windows of one elevation. *)
Lemma elevation_ray_windows (s : HoofSettings xdouble)
    (naz nr nsaz nsr : Z) (rscale : xdouble) (l : Q)
    (rb : list Z) (sb eb : list (list Z)) (j k : nat) :
  elevation_borders s naz nr nsaz nsr rscale = Some (rb, sb, eb) ->
  0 < rangeBinFactor s -> 0 < rayAngleFactor s -> 0 <= nr -> 0 <= naz ->
  nsaz <= naz / rayAngleFactor s ->
  arc_bound s naz rscale = XFin l -> (1 <= l)%Q ->
  (j < Z.to_nat nsr)%nat -> (k < Z.to_nat nsaz)%nat ->
  0 <= get2 0 sb j k /\ get2 0 sb j k < get2 0 eb j k /\
  get2 0 eb j k <= naz.
Proof.
  unfold elevation_borders.
  intros Hb HbinF HrayF Hnr Hnaz Hnsaz HL Hl Hj Hk.
  rewrite (range_borders_exact nr (rangeBinFactor s)) in Hb by done.
  cbn [mbind option_bind] in Hb.
  set (crb := (fun i : nat => rangeBinFactor s * Z.of_nat i)
                <$> seq 0 (S (Z.to_nat (nr / rangeBinFactor s)))) in *.
  assert (Hsize : (0 < length crb)%nat).
  { unfold crb. rewrite length_fmap, length_seq. lia. }
  set (zmax := Z.quot (rayAngleFactor s - 1) 2) in *.
  assert (Hzmax : 0 <= zmax /\ 2 * zmax <= rayAngleFactor s - 1).
  { unfold zmax.
    pose proof (Z.quot_pos (rayAngleFactor s - 1) 2 ltac:(lia) ltac:(lia)).
    pose proof (Z.mul_quot_le (rayAngleFactor s - 1) 2 ltac:(lia)
                  ltac:(lia)).
    lia. }
  rewrite HL in Hb.
  destruct (tier_limits_ascending (XFin l) zmax (length crb)) as [_ Hfac].
  { intros z1 z2 H1 H2. by apply tier_limit_mono. }
  destruct (tier_limits_head (XFin l) zmax (length crb))
    as [(h & rest & Hlim & Hh) Hlen];
    [lia|by apply last_tier_limit|done|].
  destruct (tier_limits (XFin l) zmax (length crb)) as [limIdxs facSubs].
  cbn [fst snd] in *. subst limIdxs.
  set (n := Z.to_nat ((naz + rayAngleFactor s - 1) / rayAngleFactor s)).
  assert (Hn : (naz + rayAngleFactor s - 1) / rayAngleFactor s * rayAngleFactor s
               <= naz + rayAngleFactor s - 1 /\
               naz + rayAngleFactor s - 1
               < ((naz + rayAngleFactor s - 1) / rayAngleFactor s + 1)
                 * rayAngleFactor s).
  { pose proof (Z.mul_div_le (naz + rayAngleFactor s - 1) (rayAngleFactor s)
                  ltac:(lia)).
    pose proof (Z.mul_succ_div_gt (naz + rayAngleFactor s - 1)
                  (rayAngleFactor s) ltac:(lia)).
    lia. }
  assert (Hn0 : 0 <= (naz + rayAngleFactor s - 1) / rayAngleFactor s).
  { apply Z.div_pos; lia. }
  rewrite (stride_loop_multiples n (Z.to_nat naz) naz (rayAngleFactor s))
    in Hb; [|done|unfold n; nia|unfold n; nia|unfold n; nia].
  cbn [mbind option_bind] in Hb.
  destruct (ray_borders _ _ _ _ _ _) as [[cs ce]|] eqn:Hrb; [|discriminate].
  cbn [mbind option_bind fst snd] in Hb. injection Hb as _ <- <-.
  destruct (ray_borders_tiers h rest facSubs _ _ nsr nsaz cs ce Hh
              ltac:(lia) Hfac Hrb) as (f & Hf & Hrange).
  destruct (Hf j k Hj Hk) as [-> ->].
  specialize (Hrange j Hj). rewrite Hlen in Hrange.
  assert (Hkn : (k < n)%nat).
  { unfold n.
    assert (naz / rayAngleFactor s
            <= (naz + rayAngleFactor s - 1) / rayAngleFactor s)
      by (apply Z.div_le_mono; lia).
    lia. }
  assert (Hstart : get1 0 ((fun i : nat => rayAngleFactor s * Z.of_nat i)
                             <$> seq 0 n) k = rayAngleFactor s * Z.of_nat k).
  { apply get1_lookup. rewrite list_lookup_fmap.
    by rewrite (lookup_seq_lt 0 n k Hkn). }
  assert (Hend : get1 0 (map (fun j0 => rayAngleFactor s + j0)
                             ((fun i : nat => rayAngleFactor s * Z.of_nat i)
                                <$> seq 0 n)) k
                 = rayAngleFactor s + rayAngleFactor s * Z.of_nat k).
  { apply get1_lookup. rewrite lookup_map, list_lookup_fmap.
    by rewrite (lookup_seq_lt 0 n k Hkn). }
  rewrite Hstart, Hend.
  assert (Hkz : Z.of_nat k + 1 <= naz / rayAngleFactor s) by lia.
  pose proof (Z.mul_div_le naz (rayAngleFactor s) ltac:(lia)).
  split; [nia|]. split; [lia|]. nia.
Qed.

(** X24.  On the exact numbers, under an arc bound of one range bin or
    more: when [_calculateBinBorders] completes on a moment whose
    superobed counts are at most [naz / rayFactor] rays and
    [nr / binFactor] gates, the window of every coarse cell is not empty
    and lies within the rays and the gates of its source elevation:
    [0 <= startRay < endRay <= naz] and
    [0 <= startBin < endBin <= nr]. *)
Theorem coarse_cell_window_within_source (s : HoofSettings xdouble)
    (type : MomentType) (st st' : HoofSuperober xdouble) (e j k : nat)
    (l : Q) :
  let m := source_moment type (so_data st) in
  let sm := superobed_moment type (so_data st) in
  calculateBinBorders s type st = Some st' ->
  0 < rangeBinFactor s -> 0 < rayAngleFactor s ->
  0 <= get1 0 (nr m) e -> 0 <= get1 0 (naz m) e ->
  get1 0 (naz sm) e <= get1 0 (naz m) e / rayAngleFactor s ->
  get1 0 (nr sm) e <= get1 0 (nr m) e / rangeBinFactor s ->
  arc_bound s (get1 0 (naz m) e) (get1 dNaN (rscales m) e) = XFin l ->
  (1 <= l)%Q ->
  (e < Z.to_nat (nel sm))%nat ->
  (j < Z.to_nat (get1 0%Z (nr sm) e))%nat ->
  (k < Z.to_nat (get1 0%Z (naz sm) e))%nat ->
  (0 <= get3 0 (so_startRayBorders st') e j k /\
   get3 0 (so_startRayBorders st') e j k
     < get3 0 (so_endRayBorders st') e j k /\
   get3 0 (so_endRayBorders st') e j k <= get1 0 (naz m) e) /\
  (0 <= get2 0 (so_rangeBorders st') e j /\
   get2 0 (so_rangeBorders st') e j < get2 0 (so_rangeBorders st') e (j + 1) /\
   get2 0 (so_rangeBorders st') e (j + 1) <= get1 0 (nr m) e).
Proof.
  intros m sm Hcalc HbinF HrayF Hnr Hnaz Hnsaz Hnsr HL Hl He Hj Hk.
  destruct (calculateBinBorders_elevation s type st st' e Hcalc He)
    as (rb & sb & eb & Hel & Hrb & Hsb & Heb).
  fold m sm in Hel. split.
  - change (get3 0 (so_endRayBorders st') e j k)
      with (get2 0 (get1 [] (so_endRayBorders st') e) j k).
    change (get3 0 (so_startRayBorders st') e j k)
      with (get2 0 (get1 [] (so_startRayBorders st') e) j k).
    rewrite (get1_lookup [] eb _ e Heb), (get1_lookup [] sb _ e Hsb).
    by apply (elevation_ray_windows s _ (get1 0 (nr m) e)
                (get1 0 (naz sm) e) (get1 0 (nr sm) e)
                (get1 dNaN (rscales m) e) l rb).
  - pose proof (calculateBinBorders_range_borders s type st st' e Hcalc He
                  Hnr HbinF) as Hrange.
    fold m in Hrange.
    assert (Hcell : forall i : nat,
              Z.of_nat i <= get1 0 (nr m) e / rangeBinFactor s ->
              get2 0 (so_rangeBorders st') e i
              = rangeBinFactor s * Z.of_nat i).
    { intros i Hi. unfold get2. rewrite (get1_lookup [] _ _ e Hrange).
      apply get1_lookup. rewrite list_lookup_fmap.
      by rewrite lookup_seq_lt by lia. }
    rewrite !Hcell by lia.
    pose proof (Z.mul_div_le (get1 0 (nr m) e) (rangeBinFactor s)
                  ltac:(lia)).
    split; [nia|]. split; [nia|]. nia.
Qed.

(** X24, applied to the 12 rays of 20 gates with [binFactor = 4],
    [rayFactor = 3] and the arc bound of about 6 bins: the windows of the
    coarse cell at the coarse gate 2 and the coarse ray 0. *)
Lemma coarse_cell_window_within_source_witness :
  let s := tiers_settings (D:=xdouble) in
  let st := prepareMetadata s tiers_superober in
  exists st',
    calculateBinBorders s VRAD st = Some st' /\
    (0 <= get3 0 (so_startRayBorders st') 0 2 0 /\
     get3 0 (so_startRayBorders st') 0 2 0
       < get3 0 (so_endRayBorders st') 0 2 0 /\
     get3 0 (so_endRayBorders st') 0 2 0 <= 12) /\
    (0 <= get2 0 (so_rangeBorders st') 0 2 /\
     get2 0 (so_rangeBorders st') 0 2 < get2 0 (so_rangeBorders st') 0 (2 + 1) /\
     get2 0 (so_rangeBorders st') 0 (2 + 1) <= 20).
Proof.
  intros s st.
  destruct (calculateBinBorders s VRAD st) as [st'|] eqn:Hcalc;
    [|vm_compute in Hcalc; discriminate].
  exists st'. split; [reflexivity|].
  refine (coarse_cell_window_within_source s VRAD st st' 0 2 0 _ Hcalc
            _ _ _ _ _ _ _ _ _ _ _).
  - vm_compute. reflexivity.
  - vm_compute. reflexivity.
  - vm_compute. discriminate.
  - vm_compute. discriminate.
  - vm_compute. discriminate.
  - vm_compute. discriminate.
  - vm_compute. reflexivity.
  - vm_compute. discriminate.
  - vm_compute. lia.
  - vm_compute. lia.
  - vm_compute. lia.
Defined.

(** * What the writers make of the cubes *)

Section Writers.
Context {D : Type} `{Double D}.

(** The 2-D array of an elevation holds the cells of the cube. *)
Lemma elevation_field_cell (cube : list (list (list D))) (i : nat)
    (naz nr : Z) (j k : nat) :
  (j < Z.to_nat naz)%nat -> (k < Z.to_nat nr)%nat ->
  rect (elevation_field cube i naz nr) (Z.to_nat naz) (Z.to_nat nr) /\
  get2 dNaN (elevation_field cube i naz nr) j k = get3 dNaN cube i j k.
Proof.
  intros Hj Hk. unfold elevation_field.
  destruct (set2_fill dNaN (fun j k => get3 dNaN cube i j k)
              (Z.to_nat naz) (Z.to_nat nr) (Z.to_nat naz) (Z.to_nat nr)
              (vec naz (vec nr dNaN)) j k) as [Hrect Hget];
    [apply rect_vec|lia|lia|].
  split; [exact Hrect|]. rewrite Hget. by rewrite decide_True by done.
Qed.

(** The bytes [HoofDealiaser::write] writes for a bin of the elevation
    [i]. *)
Lemma dl_write_dataset_cell (nodata : D) (st : HoofDealiaser D)
    (i j k : nat) :
  in_range (vrad (dl_data st)) i j k ->
  let w := dl_write_dataset nodata st i in
  let dv := get3 dNaN (dvrads (dl_data st)) i j k in
  get2 0 (snd (fst w)) j k =
    (if negb (isnan dv)
     then quantize (fst (fst (fst w))) (snd (fst (fst w))) dv
     else to_uchar nodata) /\
  get2 0 (snd w) j k = if negb (isnan dv) then 1 else 0.
Proof.
  intros (Hi & Hj & Hk) w dv. unfold w, dl_write_dataset.
  set (m := vrad (dl_data st)) in *.
  destruct (elevation_field_cell (dvrads (dl_data st)) i
              (get1 0 (naz m) i) (get1 0 (nr m) i) j k Hj Hk)
    as [Hrect Hcell].
  set (el := elevation_field (dvrads (dl_data st)) i (get1 0 (naz m) i)
               (get1 0 (nr m) i)) in *.
  unfold write_field. destruct (quant_params el) as [g o]. cbn [fst snd].
  rewrite !(get2_map dNaN 0 _ el _ _ j k Hrect Hj Hk). by rewrite Hcell.
Qed.

End Writers.

Section DealiasWrite.
Context {D : Type} `{DoubleLaws D}.

(** X25.  From [dealias] to [write]: a bin within the rays and gates of
    its elevation that has no measurement, or whose D quantity is NaN, is
    written as the nodata byte with the quality byte 0; every bin with a
    dealiased value gets the quality byte 1. *)
Theorem dealiaser_writes_missing_as_nodata (nodata : D)
    (s : HoofSettings D) (st : HoofDealiaser D) (i j k : nat) :
  in_range (vrad (dl_data st)) i j k ->
  let w := dl_write_dataset nodata (dealias s st) i in
  let dv := get3 dNaN (dvrads (dl_data (dealias s st))) i j k in
  (isnan (get3 dNaN (meas (vrad (dl_data st))) i j k) = true \/
   isnan (get3 dNaN (dl_Ds st) i j k) = true ->
   get2 0 (snd (fst w)) j k = to_uchar nodata /\ get2 0 (snd w) j k = 0) /\
  (isnan dv = false -> get2 0 (snd w) j k = 1).
Proof.
  intros Hr w dv.
  destruct (dl_write_dataset_cell nodata (dealias s st) i j k Hr)
    as [Hdata Hqual].
  fold w dv in Hdata, Hqual. split.
  - intros Hmissing.
    assert (Hnan : isnan dv = true).
    { unfold dv.
      change (dvrads (dl_data (dealias s st)))
        with (dealias_unfold st (snd (dealias_search s st))).
      rewrite dealias_unfold_obs, decide_True by done.
      unfold unfold_upd. destruct (decide _); [|apply isnan_dNaN].
      destruct Hmissing as [Hc|Hc]; rewrite Hc.
      - apply isnan_dNaN.
      - rewrite orb_true_r. apply isnan_dNaN. }
    rewrite Hdata, Hqual, Hnan. done.
  - intros Hval. by rewrite Hqual, Hval.
Qed.

End DealiasWrite.

(** X25, applied to S3 with a NaN in place of its measurements: the bin
    (0, 1, 1) is written as the byte 255 of the nodata 255.0, with the
    quality 0. *)
Lemma dealiaser_writes_missing_as_nodata_witness :
  let s := S3_settings (D:=float) in
  let st := dealiaser_on
              (volume (dlit 0) empty_moment
                 (flat_moment 4 2 (dlit 10) dNaN [dlit 0; dlit 0]) [])
              (dlit 0) (dlit 10) in
  let w := dl_write_dataset (dlit 255) (dealias s st) 0 in
  get2 0 (snd (fst w)) 1 1 = 255 /\ get2 0 (snd w) 1 1 = 0.
Proof.
  intros s st w.
  destruct (dealiaser_writes_missing_as_nodata (D:=float) (dlit 255) s st
              0 1 1) as [Hmissing _].
  - unfold in_range. vm_compute. lia.
  - destruct Hmissing as [Hdata Hqual]; [left; reflexivity|].
    split; [exact Hdata|exact Hqual].
Defined.

(** * From superob to write *)

Lemma get3_any_default {A : Type} (d d' : A) (v : list (list (list A)))
    (a b c : nat) :
  allocated v a b c -> get3 d v a b c = get3 d' v a b c.
Proof.
  intros (plane & row & Hp & Hr & Hc). unfold get3, get1.
  rewrite Hp. simpl. rewrite Hr. simpl.
  destruct (lookup_lt_is_Some_2 row c Hc) as [x Hx]. by rewrite Hx.
Qed.

Section SuperobFrame.
Context {D : Type} `{Double D}.

(** The loop nest of the VRAD branch keeps the shape of the two cubes. *)
Lemma vrad_body_shape (cell : nat -> nat -> nat -> option D)
    (n1 : nat) (n2 n3 : nat -> nat) (N1 N2 N3 : Z) :
  let out := sweep n1 n2 n3 (vrad_body cell)
               (vec N1 (vec N2 (vec N3 dNaN)),
                vec N1 (vec N2 (vec N3 (dlit 0)))) in
  box_shaped N1 N2 N3 (fst out) /\ box_shaped N1 N2 N3 (snd out).
Proof.
  intros out. unfold out, sweep.
  apply (for_nat_inv (fun acc => box_shaped N1 N2 N3 (fst acc) /\
                                 box_shaped N1 N2 N3 (snd acc))).
  { split; apply box_shaped_vec. }
  intros i t _ Ht. apply for_nat_inv; [exact Ht|].
  intros j t' _ Ht'. apply for_nat_inv; [exact Ht'|].
  intros k acc _ [H1 H2]. unfold vrad_body.
  destruct (cell i j k); [|done]. simpl.
  split; by apply box_shaped_set3.
Qed.

(** [_calculateBinBorders] leaves the data alone. *)
Lemma calculateBinBorders_data (s : HoofSettings D) (type : MomentType)
    (st st' : HoofSuperober D) :
  calculateBinBorders s type st = Some st' -> so_data st' = so_data st.
Proof.
  unfold calculateBinBorders. destruct (for_nat _ _ _); [|done].
  simpl. by intros [= <-].
Qed.

(** The DBZ branch leaves the VRAD moments and the dealiased velocities
    alone. *)
Lemma superob_dbz_frame (s : HoofSettings D) (st st1 : HoofSuperober D) :
  superob_dbz s st = Some st1 ->
  vrad (so_data st1) = vrad (so_data st) /\
  svrad (so_data st1) = svrad (so_data st) /\
  dvrads (so_data st1) = dvrads (so_data st).
Proof.
  unfold superob_dbz. destruct (0 <? _); [|by intros [= <-]].
  destruct (calculateBinBorders s DBZ st) as [sb|] eqn:Hsb; [|done].
  simpl. destruct (dbz_cubes _ _ _ _ _ _) as [[sm sth] sq].
  by intros [= <-].
Qed.

End SuperobFrame.

(** The two quality bytes of binary64. *)
Lemma quality_byte_one :
  quantize (D:=float) (ddiv (dlit 1) (dlit 255)) (dlit 0) (dlit 1) = 255.
Proof. vm_compute. reflexivity. Qed.

Lemma quality_byte_zero :
  quantize (D:=float) (ddiv (dlit 1) (dlit 255)) (dlit 0) (dlit 0) = 0.
Proof. vm_compute. reflexivity. Qed.

(** X26.  From [superob] to [write], on binary64: in the VRAD dataset of
    a superobed volume every quality byte of a coarse cell is 255 or 0,
    and a cell with the quality byte 0 is written with the nodata byte
    255. *)
Theorem superobed_quality_zero_is_nodata (s : HoofSettings float)
    (st st2 : HoofSuperober float) (i a r : nat) :
  let sv := svrad (so_data st) in
  0 < nel (vrad (so_data st)) ->
  superob s st = Some st2 ->
  in_range sv i a r -> in_cube sv i a r ->
  let w := so_write_vrad st2 i in
  get2 0 (snd w) a r = 255 \/
  (get2 0 (snd w) a r = 0 /\ get2 0 (snd (fst w)) a r = 255).
Proof.
  intros sv Hnel Hsome (Hi & Ha & Hr) Hcube w.
  unfold superob in Hsome.
  destruct (superob_dbz s st) as [st1|] eqn:Hdbz; [|done].
  destruct (superob_dbz_frame s st st1 Hdbz) as (Hvrad & Hsvrad & Hdv).
  simpl in Hsome.
  destruct (superob_vrad s st1) as [[[st' sm] sq]|] eqn:Hv; [|done].
  simpl in Hsome. injection Hsome as <-.
  unfold superob_vrad in Hv. rewrite Hvrad, Hsvrad, Hdv in Hv. fold sv in Hv.
  rewrite (proj2 (Z.ltb_lt 0 (nel (vrad (so_data st)))) Hnel) in Hv.
  destruct (calculateBinBorders s VRAD st1) as [sb|] eqn:Hsb; [|done].
  pose proof (calculateBinBorders_data s VRAD st1 sb Hsb) as Hdata.
  simpl in Hv. injection Hv as <- <- <-. subst w.
  set (rolled := roll _ _ _ _ _).
  set (cell := fun i j k =>
         vrad_cell s rolled i (get3 0 (so_startRayBorders sb) i j k)
           (get3 0 (so_endRayBorders sb) i j k)
           (get2 0 (so_rangeBorders sb) i j)
           (get2 0 (so_rangeBorders sb) i (j + 1))).
  pose proof (vrad_body_fills cell (Z.to_nat (nel sv))
                (fun i => Z.to_nat (get1 0 (nr sv) i))
                (fun i => Z.to_nat (get1 0 (naz sv) i))
                (nel sv) (nazMax sv) (nrMax sv) i r a) as Hfill.
  destruct (vrad_body_shape cell (Z.to_nat (nel sv))
              (fun i => Z.to_nat (get1 0 (nr sv) i))
              (fun i => Z.to_nat (get1 0 (naz sv) i))
              (nel sv) (nazMax sv) (nrMax sv)) as [_ Hshape].
  change (sweep _ _ _ (vrad_body cell) _) with
    (for_nat (Z.to_nat (nel sv)) (fun i =>
        for_nat (Z.to_nat (get1 0 (nr sv) i)) (fun j =>
          for_nat (Z.to_nat (get1 0 (naz sv) i))
            (fun k (acc : vector3D float * vector3D float) =>
               match vrad_cell s rolled i
                       (get3 0 (so_startRayBorders sb) i j k)
                       (get3 0 (so_endRayBorders sb) i j k)
                       (get2 0 (so_rangeBorders sb) i j)
                       (get2 0 (so_rangeBorders sb) i (j + 1)) with
               | Some avg => (set3 (fst acc) i k j avg,
                              set3 (snd acc) i k j (dlit 1))
               | None => acc
               end)))
       (vec (nel sv) (vec (nazMax sv) (vec (nrMax sv) dNaN)),
        vec (nel sv) (vec (nazMax sv) (vec (nrMax sv) (dlit 0)))))
    in Hfill, Hshape.
  set (out := for_nat _ _ _) in *.
  unfold so_write_vrad. rewrite Hdata, Hsvrad. fold sv.
  cbn [so_data so_with_data svrad data_with_superobs moment_with_cubes
       naz nr meas quals fst snd].
  destruct (elevation_field_cell (fst out) i (get1 0 (naz sv) i)
              (get1 0 (nr sv) i) a r Ha Hr) as [Hrm Hm].
  destruct (elevation_field_cell (snd out) i (get1 0 (naz sv) i)
              (get1 0 (nr sv) i) a r Ha Hr) as [Hrq Hq].
  unfold write_quality, write_field.
  destruct (quant_params _) as [g o]. cbn [fst snd].
  rewrite (get2_map dNaN 0 _ _ _ _ a r Hrq Ha Hr).
  rewrite (get2_map dNaN 0 _ _ _ _ a r Hrm Ha Hr).
  rewrite Hm, Hq.
  rewrite (get3_any_default dNaN (dlit 0) (snd out) i a r)
    by (by apply Hshape).
  cbv zeta in Hfill.
  destruct (decide _) as [_|_] in Hfill;
    [destruct (cell i r a) as [avg|]|];
    pose proof (f_equal fst Hfill) as Hm'; pose proof (f_equal snd Hfill) as Hq';
    cbn [fst snd] in Hm', Hq'; rewrite Hm', Hq'.
  - left. exact quality_byte_one.
  - right. split; [exact quality_byte_zero|reflexivity].
  - right. split; [exact quality_byte_zero|reflexivity].
Qed.

(** X26, applied to S6: the quality byte of the one coarse cell. *)
Lemma superobed_quality_zero_is_nodata_witness :
  let s := S6_settings (D:=float) in
  let st := prepareMetadata s S6_superober in
  exists st2,
    superob s st = Some st2 /\
    (get2 0 (snd (so_write_vrad st2 0)) 0 0 = 255 \/
     (get2 0 (snd (so_write_vrad st2 0)) 0 0 = 0 /\
      get2 0 (snd (fst (so_write_vrad st2 0))) 0 0 = 255)).
Proof.
  intros s st.
  destruct (superob s st) as [st2|] eqn:Hsome;
    [|vm_compute in Hsome; discriminate].
  exists st2. split; [reflexivity|].
  apply (superobed_quality_zero_is_nodata s st st2 0 0 0).
  - vm_compute. reflexivity.
  - exact Hsome.
  - unfold in_range. vm_compute. lia.
  - unfold in_cube. vm_compute. lia.
Defined.

(** * The smallest Nyquist velocity and the padded sizes *)

Section VnyMinBound.
Context {D : Type} `{DoubleLaws D} `{DoubleTrig D}.

(** The result of the scan is the start value or one of the Nyquist
    velocities. *)
Lemma vnyMin_scan_attained (m : HoofMeasurement D) :
  vnyMin_scan m = dInf \/
  exists i, (i < Z.to_nat (nel m))%nat /\
            vnyMin_scan m = get1 dNaN (vnys m) i.
Proof.
  unfold vnyMin_scan.
  induction (Z.to_nat (nel m)) as [|n IH]; [by left|].
  rewrite for_nat_S. set (mn := for_nat n _ _) in *. cbv zeta.
  destruct (dltb (get1 dNaN (vnys m) n) mn).
  - right. exists n. split; [lia|reflexivity].
  - destruct IH as [IH|(i & Hi & IH)]; [by left|].
    right. exists i. split; [lia|exact IH].
Qed.

(** X27.  After [calculateWindModelQtys] no elevation has a Nyquist
    velocity below [_vnyMin], and [_vnyMin] is the Nyquist velocity of an
    elevation, or the infinity it starts from. *)
Theorem vnyMin_is_least_nyquist (st : HoofDealiaser D) :
  let m := vrad (dl_data st) in
  let vnyMin := dl_vnyMin (calculateWindModelQtys st) in
  (forall i, (i < Z.to_nat (nel m))%nat ->
             dltb (get1 dNaN (vnys m) i) vnyMin = false) /\
  (vnyMin = dInf \/
   exists i, (i < Z.to_nat (nel m))%nat /\ vnyMin = get1 dNaN (vnys m) i).
Proof.
  intros m vnyMin. unfold vnyMin. rewrite calculateWindModelQtys_vnyMin.
  split.
  - intros i Hi. by apply vnyMin_scan_lower_bound.
  - apply vnyMin_scan_attained.
Qed.

End VnyMinBound.

Section PaddedSizes.
Context {D : Type} `{Double D}.

Lemma foldl_max_ge (v : list Z) (x : Z) :
  x <= foldl Z.max x v /\ forall y, y ∈ v -> y <= foldl Z.max x v.
Proof.
  revert x. induction v as [|z v IH]; intros x; simpl.
  - split; [lia|]. intros y Hy. by apply elem_of_nil in Hy.
  - destruct (IH (Z.max x z)) as [H1 H2]. split; [lia|].
    intros y Hy. apply elem_of_cons in Hy as [->|Hy]; [lia|by apply H2].
Qed.

(** No element is above [max_element]. *)
Lemma max_element_ge (v : list Z) (y : Z) : y ∈ v -> y <= max_element v.
Proof.
  destruct v as [|x v]; simpl; intros Hy; [by apply elem_of_nil in Hy|].
  destruct (foldl_max_ge v x) as [H1 H2].
  apply elem_of_cons in Hy as [->|Hy]; [exact H1|by apply H2].
Qed.

(** A count that lets a loop run is within the padded size. *)
Lemma count_within_max (v : list Z) (i a : nat) :
  (a < Z.to_nat (get1 0%Z v i))%nat -> (a < Z.to_nat (max_element v))%nat.
Proof.
  unfold get1. destruct (v !! i) as [x|] eqn:Hx; simpl; [|lia].
  intros Ha. pose proof (max_element_ge v x (list_elem_of_lookup_2 v i x Hx)).
  lia.
Qed.

(** The bins of a superobed moment that [prepare_moment] has made fit its
    padded sizes. *)
Lemma prepare_moment_fits (binF rayF : Z) (m sm : HoofMeasurement D)
    (i a r : nat) :
  in_range (prepare_moment binF rayF m sm) i a r ->
  in_cube (prepare_moment binF rayF m sm) i a r.
Proof.
  unfold prepare_moment. destruct (0 <? nel m) eqn:Hn.
  - destruct (for_nat _ _ (vec (nel m) iNaN, vec (nel m) iNaN))
      as [nr1 naz1].
    destruct (for_nat _ _ (_, _, _, _)) as [[[az rg] rsc] rst].
    unfold in_range, in_cube, naz_at, nr_at. simpl.
    intros (Hi & Ha & Hr). split; [exact Hi|].
    split; eapply count_within_max; eassumption.
  - unfold in_range, naz_at. simpl. intros (_ & Ha & _). exfalso.
    apply Z.ltb_ge in Hn. rewrite get1_vec in Ha.
    destruct (decide _) in Ha; unfold iNaN in Ha; lia.
Qed.

(** X28.  After [prepareMetadata] every coarse cell within the counts of
    its elevation lies within the padded sizes [nazMax] and [nrMax] of the
    superobed moment, for DBZ and for VRAD: the cubes of [superob] hold
    every cell its loops visit. *)
Theorem prepared_cells_fit_cubes (s : HoofSettings D) (st : HoofSuperober D)
    (i a r : nat) :
  let d' := so_data (prepareMetadata s st) in
  (in_range (sdbz d') i a r -> in_cube (sdbz d') i a r) /\
  (in_range (svrad d') i a r -> in_cube (svrad d') i a r).
Proof.
  intros d'. split; apply prepare_moment_fits.
Qed.

End PaddedSizes.

(** X27, on three elevations with the Nyquist velocities 12, 8 and 10:
    the second one is not below [_vnyMin].  The polynomials [1 - x*x/2]
    and [x] stand for [cos] and [sin], which the scan does not look at. *)
Lemma vnyMin_is_least_nyquist_witness :
  let trig : DoubleTrig float :=
    {| dcos := fun x => dsub (dlit 1) (ddiv (dmul x x) (dlit 2));
       dsin := fun x => x |} in
  let st := dl_new (volume (dlit 0) empty_moment three_tilts []) in
  dltb (dlit 8) (dl_vnyMin (calculateWindModelQtys st)) = false.
Proof.
  intros trig st.
  destruct (vnyMin_is_least_nyquist (D:=float) st) as [Hbound _].
  exact (Hbound 1%nat ltac:(vm_compute; lia)).
Defined.

(** X28, applied to S6 and its one coarse cell. *)
Lemma prepared_cells_fit_cubes_witness :
  in_cube (svrad (so_data (prepareMetadata (S6_settings (D:=float))
                             S6_superober))) 0 0 0.
Proof.
  destruct (prepared_cells_fit_cubes (D:=float) S6_settings S6_superober
              0 0 0) as [_ Hvrad].
  apply Hvrad. unfold in_range. vm_compute. lia.
Defined.
